(** * A shallow embedding of the Fusion-like event engine

    The development follows two source files of the repository:

    - [multimediafuzion4k.py]: the engine with the plugin registries,
      counters and text objects (module [Multimedia]);
    - [enginev0.py]: the first engine together with the editor's project
      file operations (module [EngineV0]).

    Python objects that are mutated in place and reached through more than
    one reference (the [Frame] instances held both by [self.frames] and by
    [self.current_frame]) live in an explicit store; exceptions are
    explicit results; the host platform (pygame, [eval], [float]) is an
    interface the engine is parameterised by. *)

From Stdlib Require Import ZArith QArith Bool Lia.
From stdpp Require Import base option list gmap strings fin_maps pretty.

Local Open Scope Z_scope.

(** ** Python values, exceptions *)

(** The scalars a project document carries as parameter values. *)
Inductive PyVal :=
| PNone
| PBool (b : bool)
| PNum (q : Q)
| PStr (s : string).

(** Truth value testing, as [if v] does it. *)
Definition py_truthy (v : PyVal) : bool :=
  match v with
  | PNone => false
  | PBool b => b
  | PNum q => negb (Qeq_bool q 0)
  | PStr s => negb (String.eqb s "")
  end.

(** [v == s] for a string [s]: only an equal string compares equal. *)
Definition py_eq_str (v : PyVal) (s : string) : bool :=
  match v with
  | PStr t => String.eqb t s
  | _ => false
  end.

Inductive PyExc :=
| AttributeError
| TypeError
| IndexError
| ValueError
| SyntaxError
| NameError
| KeyError
| FileNotFoundError
| PygameError.

Inductive Exc (A : Type) :=
| Ok (a : A)
| Raise (e : PyExc).
Arguments Ok {A} a.
Arguments Raise {A} e.

#[global] Instance Exc_ret : MRet Exc := fun A a => Ok a.
#[global] Instance Exc_bind : MBind Exc := fun A B k m =>
  match m with
  | Ok a => k a
  | Raise e => Raise e
  end.

(** [try: body / except: handler] with a bare [except]. *)
Definition try_except {A} (body handler : Exc A) : Exc A :=
  match body with
  | Ok a => Ok a
  | Raise _ => handler
  end.

(** Sequencing a fallible function over a list, left to right. *)
Fixpoint for_each {A B} (f : A -> Exc B) (l : list A) : Exc (list B) :=
  match l with
  | [] => Ok []
  | a :: l' => b ← f a; bs ← for_each f l'; Ok (b :: bs)
  end.

(** ** The host platform *)

Definition Color : Type := Z * Z * Z.
Definition RED : Color := (255, 0, 0).
Definition WHITE : Color := (255, 255, 255).
Definition BLACK : Color := (0, 0, 0).

Record Rect := mkRect { rx : Z; ry : Z; rw : Z; rh : Z }.

(** What [self.image] holds: a solid surface, or rendered text. *)
Inductive Image :=
| Surface (w h : Z) (fill : Color)
| Rendered (text : string) (font_size : Z) (c : Color).

(** The keyboard table returned by [pygame.key.get_pressed()]; indexing
    it may raise. *)
Definition KeyTable : Type := Z -> Exc bool.

(** The host platform. Everything here is code outside the repository. *)
Class Host := {
  (** [getattr(pygame, key)], as the value used to index the key table *)
  pygame_getattr : PyVal -> Exc Z;
  (** [eval(spec)] as the colour pygame makes of its result; [Raise] when
      [eval] or the pygame call consuming the result raises. The
      expression is evaluated for its value: it has no effect on the
      engine's state *)
  py_eval_color : PyVal -> Exc Color;
  (** [float(v)] *)
  py_float : PyVal -> Exc Q;
  (** [str(v)] of a number *)
  py_str : Q -> string;
  (** size of the surface [font.render] makes of a text at a font size *)
  font_extent : Z -> string -> Z * Z;
  (** [Rect.colliderect] *)
  colliderect : Rect -> Rect -> bool;
  (** [Surface.fill(color)] on the screen with the background of a
      frame: [Raise] when pygame rejects the colour argument *)
  surface_fill : list Z -> Exc unit
}.

(** A background the screen can be filled with. *)
Definition accepted `{Host} (bg : list Z) : Prop := surface_fill bg = Ok tt.

(** The module-level state: the global [ENGINE_CURRENT_FRAME] and the
    keyboard table pygame last sampled. *)
Record Globals := mkGlobals {
  ENGINE_CURRENT_FRAME : option PyVal;
  key_state : KeyTable
}.

(** What [screen] shows after [Frame.draw]: the background and the
    blitted sprites. *)
Record Picture := mkPicture {
  background : list Z;
  blits : list (Image * Rect)
}.

(** What one pass of the loop receives from the platform: whether a
    [QUIT] event is in the queue, and the keyboard as the event pump
    samples it. *)
Record TickInput := mkTickInput {
  quit_event : bool;
  keys_sampled : KeyTable
}.

(** ** The declarative project document

    [None] in an optional field is a key the document omits; the loader
    reads those with [dict.get] and a default. [type] and [params] of a
    condition or action entry are read with a subscript. *)

Record EntryData := mkEntry {
  entry_type : string;
  entry_params : gmap string PyVal
}.

Record EventData := mkEventData {
  conditions_data : option (list EntryData);
  actions_data : option (list EntryData)
}.

Record ObjectData := mkObjectData {
  o_type : option string;
  o_name : option string;
  o_x : option Z;
  o_y : option Z;
  o_w : option Z;
  o_h : option Z;
  o_color : option string;
  o_text : option string;
  o_font_size : option Z;
  o_initial_value : option Q
}.

Record FrameData := mkFrameData {
  f_name : option string;
  f_bg_color : option (list Z);
  f_objects : option (list ObjectData);
  f_events : option (list EventData)
}.

Record ProjectData := mkProjectData {
  frames_data : option (list FrameData)
}.

Module Multimedia.

(** ** Scene objects *)

(** The class of an object with the attributes the subclass adds. *)
Inductive Payload :=
| ActivePayload
| TextPayload (text : string) (font_size : Z)
| CounterPayload (value : Q) (font_size : Z).

Record EngineObject := mkObject {
  name : string;
  x : Z;
  y : Z;
  width : Z;
  height : Z;
  color : Color;
  image : Image;
  rect : Rect;
  payload : Payload
}.

Definition is_CounterObject (o : EngineObject) : bool :=
  match payload o with
  | CounterPayload _ _ => true
  | _ => false
  end.

Section Objects.
Context `{Host}.

Definition image_size (i : Image) : Z * Z :=
  match i with
  | Surface w h _ => (w, h)
  | Rendered t fs _ => font_extent fs t
  end.

(** [image.get_rect(topleft=(x, y))] *)
Definition get_rect (i : Image) (px py : Z) : Rect :=
  mkRect px py (fst (image_size i)) (snd (image_size i)).

(** [image.fill(c)]: the surface keeps its size. *)
Definition image_fill (i : Image) (c : Color) : Image :=
  Surface (fst (image_size i)) (snd (image_size i)) c.

(** [pygame.Surface((w, h))] refuses a negative size. *)
Definition pygame_Surface (w h : Z) (c : Color) : Exc Image :=
  if (w <? 0) || (h <? 0) then Raise PygameError else Ok (Surface w h c).

(** [EngineObject.__init__] once the colour has been resolved. *)
Definition EngineObject_init (n : string) (px py w h : Z) (c : Color)
  : Exc EngineObject :=
  img ← pygame_Surface w h c;
  Ok (mkObject n px py w h c img (get_rect img px py) ActivePayload).

(** [TextObject.__init__]: the base object with dummy size, then
    [update_text_surface]. *)
Definition TextObject_init (n : string) (px py : Z) (text : string)
    (font_size : Z) (c : Color) : EngineObject :=
  let img := Rendered text font_size c in
  mkObject n px py 10 10 c img (get_rect img px py)
           (TextPayload text font_size).

(** [CounterObject.update_text_surface] for a value [v]. *)
Definition counter_surface (o : EngineObject) (v : Q) (font_size : Z)
  : EngineObject :=
  let img := Rendered (py_str v) font_size (color o) in
  mkObject (name o) (x o) (y o) (width o) (height o) (color o) img
           (get_rect img (x o) (y o)) (CounterPayload v font_size).

Definition CounterObject_init (n : string) (px py : Z) (initial_value : Q)
    (font_size : Z) (c : Color) : EngineObject :=
  counter_surface
    (mkObject n px py 10 10 c (Surface 10 10 c)
              (get_rect (Surface 10 10 c) px py)
              (CounterPayload initial_value font_size))
    initial_value font_size.

(** [CounterObject.set_value]; on another class the caller has already
    returned. *)
Definition set_value (o : EngineObject) (val : Q) : EngineObject :=
  match payload o with
  | CounterPayload _ fs => counter_surface o val fs
  | _ => o
  end.

(** [obj.image.fill(c)] *)
Definition fill_object (o : EngineObject) (c : Color) : EngineObject :=
  mkObject (name o) (x o) (y o) (width o) (height o) (color o)
           (image_fill (image o) c) (rect o) (payload o).

(** [update(dt)]: [anim_frames] is the empty list in every object the
    engine builds and is assigned nowhere else, so the animation branch
    is never taken; the subclasses' [update] is [pass]. *)
Definition object_update (o : EngineObject) : EngineObject := o.

End Objects.

(** ** Conditions, actions, events *)

Inductive Condition :=
| KeyPressed (key : PyVal)
| ObjectCollision (obj_a obj_b : PyVal)
| CompareCounter (counter_name operator : PyVal) (value : Q).

Inductive Action :=
| ChangeObjectColor (obj_name color_str : PyVal)
| DestroyObject (obj_name : PyVal)
| GoToFrame (frame_name : PyVal)
| SetCounterValue (counter_name : PyVal) (value : Q).

Record Event := mkEvent {
  conditions : list Condition;
  actions : list Action
}.

(** A [Frame]; [objects] is the sprite group in insertion order. *)
Record Frame := mkFrame {
  frame_name_of : string;
  bg_color : list Z;
  objects : list EngineObject;
  events : list Event
}.

(** What a condition or an action can reach: the frame it is handed and
    the module-level state. *)
Record Machine := mkMachine {
  self_frame : Frame;
  globals : Globals
}.

Definition with_objects (m : Machine) (objs : list EngineObject) : Machine :=
  mkMachine
    (mkFrame (frame_name_of (self_frame m)) (bg_color (self_frame m)) objs
             (events (self_frame m)))
    (globals m).

Definition with_pending (m : Machine) (p : option PyVal) : Machine :=
  mkMachine (self_frame m) (mkGlobals p (key_state (globals m))).

(** [Frame.get_object_by_name]: the position, in the group, of the first
    object whose name equals [n]. *)
Fixpoint get_object_by_name (objs : list EngineObject) (n : PyVal)
  : option nat :=
  match objs with
  | [] => None
  | o :: rest =>
      if py_eq_str n (name o) then Some 0%nat
      else S <$> get_object_by_name rest n
  end.

(** [Frame.remove_object] of the object at a position. *)
Definition remove_object (objs : list EngineObject) (i : nat)
  : list EngineObject := delete i objs.

(** [Frame.add_object] *)
Definition add_object (objs : list EngineObject) (o : EngineObject)
  : list EngineObject := objs ++ [o].

Section Rules.
Context `{Host}.

Definition KeyPressed_check (key : PyVal) (m : Machine) : Exc bool :=
  let keys := key_state (globals m) in
  try_except (k ← pygame_getattr key; keys k) (Ok false).

Definition ObjectCollision_check (obj_a obj_b : PyVal) (m : Machine)
  : Exc bool :=
  let objs := objects (self_frame m) in
  match get_object_by_name objs obj_a ≫= (objs !!.),
        get_object_by_name objs obj_b ≫= (objs !!.) with
  | Some oa, Some ob => Ok (colliderect (rect oa) (rect ob))
  | _, _ => Ok false
  end.

Definition Qlt_bool (a b : Q) : bool := negb (Qle_bool b a).

Definition CompareCounter_check (counter_name operator : PyVal) (value : Q)
    (m : Machine) : Exc bool :=
  let objs := objects (self_frame m) in
  match get_object_by_name objs counter_name ≫= (objs !!.) with
  | None => Ok false
  | Some c =>
      match payload c with
      | CounterPayload cv _ =>
          if py_eq_str operator "==" then Ok (Qeq_bool cv value)
          else if py_eq_str operator "!=" then Ok (negb (Qeq_bool cv value))
          else if py_eq_str operator "<" then Ok (Qlt_bool cv value)
          else if py_eq_str operator "<=" then Ok (Qle_bool cv value)
          else if py_eq_str operator ">" then Ok (Qlt_bool value cv)
          else if py_eq_str operator ">=" then Ok (Qle_bool value cv)
          else Ok false
      | _ => Ok false
      end
  end.

Definition check (c : Condition) (m : Machine) : Exc bool :=
  match c with
  | KeyPressed key => KeyPressed_check key m
  | ObjectCollision a b => ObjectCollision_check a b m
  | CompareCounter n op v => CompareCounter_check n op v m
  end.

Definition ChangeObjectColor_execute (obj_name color_str : PyVal)
    (m : Machine) : Exc Machine :=
  let objs := objects (self_frame m) in
  match get_object_by_name objs obj_name with
  | Some i =>
      match objs !! i with
      | Some obj =>
          try_except
            (c ← py_eval_color color_str;
             Ok (with_objects m (<[i := fill_object obj c]> objs)))
            (Ok m)
      | None => Ok m
      end
  | None => Ok m
  end.

Definition DestroyObject_execute (obj_name : PyVal) (m : Machine)
  : Exc Machine :=
  let objs := objects (self_frame m) in
  match get_object_by_name objs obj_name with
  | Some i => Ok (with_objects m (remove_object objs i))
  | None => Ok m
  end.

Definition GoToFrame_execute (frame_name : PyVal) (m : Machine)
  : Exc Machine :=
  Ok (with_pending m (Some frame_name)).

Definition SetCounterValue_execute (counter_name : PyVal) (value : Q)
    (m : Machine) : Exc Machine :=
  let objs := objects (self_frame m) in
  match get_object_by_name objs counter_name with
  | Some i =>
      match objs !! i with
      | Some c =>
          if is_CounterObject c
          then Ok (with_objects m (<[i := set_value c value]> objs))
          else Ok m
      | None => Ok m
      end
  | None => Ok m
  end.

Definition execute (a : Action) (m : Machine) : Exc Machine :=
  match a with
  | ChangeObjectColor n c => ChangeObjectColor_execute n c m
  | DestroyObject n => DestroyObject_execute n m
  | GoToFrame n => GoToFrame_execute n m
  | SetCounterValue n v => SetCounterValue_execute n v m
  end.

(** [all(c.check(frame) for c in self.conditions)]: stops at the first
    condition that is false. *)
Fixpoint all_check (cs : list Condition) (m : Machine) : Exc bool :=
  match cs with
  | [] => Ok true
  | c :: rest => b ← check c m; if b : bool then all_check rest m else Ok false
  end.

(** [for a in self.actions: a.execute(frame)] *)
Fixpoint run_actions (acts : list Action) (m : Machine) : Exc Machine :=
  match acts with
  | [] => Ok m
  | a :: rest => m' ← execute a m; run_actions rest m'
  end.

Definition Event_run (e : Event) (m : Machine) : Exc Machine :=
  fire ← all_check (conditions e) m;
  if fire : bool then run_actions (actions e) m else Ok m.

(** [for e in self.events: e.run(self)] *)
Fixpoint run_events (evs : list Event) (m : Machine) : Exc Machine :=
  match evs with
  | [] => Ok m
  | e :: rest => m' ← Event_run e m; run_events rest m'
  end.

(** [Frame.update]: the objects first, then the events in order. The
    event list iterated is the frame's own, read when the loop starts;
    no action changes it. *)
Definition Frame_update (m : Machine) : Exc Machine :=
  let m1 := with_objects m (object_update <$> objects (self_frame m)) in
  run_events (events (self_frame m1)) m1.

End Rules.

(** ** The engine *)

Inductive ConditionClass := KeyPressed_cls | ObjectCollision_cls | CompareCounter_cls.
Inductive ActionClass :=
  ChangeObjectColor_cls | DestroyObject_cls | GoToFrame_cls | SetCounterValue_cls.
Inductive ObjectClass := EngineObject_cls | TextObject_cls | CounterObject_cls.

(** A [FusionCloneEngine] with the store of the [Frame] instances it
    refers to, the module-level state and the display. [frames] and
    [current_frame] hold references into [heap]. *)
Record World := mkWorld {
  heap : list Frame;
  frames : gmap string nat;
  current_frame : option nat;
  running : bool;
  registered_conditions : gmap string ConditionClass;
  registered_actions : gmap string ActionClass;
  registered_object_types : gmap string ObjectClass;
  module_globals : Globals;
  screen : option Picture;
  display : option Picture
}.

Definition set_heap_frames (w : World) (h : list Frame) (fs : gmap string nat)
  : World :=
  mkWorld h fs (current_frame w) (running w) (registered_conditions w)
          (registered_actions w) (registered_object_types w)
          (module_globals w) (screen w) (display w).

Definition set_current_frame (w : World) (c : option nat) : World :=
  mkWorld (heap w) (frames w) c (running w) (registered_conditions w)
          (registered_actions w) (registered_object_types w)
          (module_globals w) (screen w) (display w).

Definition set_running (w : World) (r : bool) : World :=
  mkWorld (heap w) (frames w) (current_frame w) r (registered_conditions w)
          (registered_actions w) (registered_object_types w)
          (module_globals w) (screen w) (display w).

Definition set_globals (w : World) (g : Globals) : World :=
  mkWorld (heap w) (frames w) (current_frame w) (running w)
          (registered_conditions w) (registered_actions w)
          (registered_object_types w) g (screen w) (display w).

Definition set_screen (w : World) (s d : option Picture) : World :=
  mkWorld (heap w) (frames w) (current_frame w) (running w)
          (registered_conditions w) (registered_actions w)
          (registered_object_types w) (module_globals w) s d.

(** [ExamplePlugin] *)
Definition plugin_conditions : gmap string ConditionClass :=
  {[ "CompareCounter" := CompareCounter_cls ]}.
Definition plugin_actions : gmap string ActionClass :=
  {[ "SetCounterValue" := SetCounterValue_cls ]}.
Definition plugin_object_types : gmap string ObjectClass :=
  <[ "CounterObject" := CounterObject_cls ]>
    {[ "TextObject" := TextObject_cls ]}.

(** [FusionCloneEngine.__init__]: the built-in tables, then
    [dict.update] with the plugin's, whose entries win. *)
Definition FusionCloneEngine_init (g : Globals) (scr : option Picture) : World :=
  mkWorld [] ∅ None true
    (plugin_conditions ∪
       <[ "KeyPressed" := KeyPressed_cls ]>
         {[ "ObjectCollision" := ObjectCollision_cls ]})
    (plugin_actions ∪
       <[ "ChangeObjectColor" := ChangeObjectColor_cls ]>
         (<[ "DestroyObject" := DestroyObject_cls ]>
            {[ "GoToFrame" := GoToFrame_cls ]}))
    (plugin_object_types ∪
       <[ "ActiveObject" := EngineObject_cls ]>
         (<[ "TextObject" := TextObject_cls ]>
            {[ "CounterObject" := CounterObject_cls ]}))
    g scr scr.

Section Engine.
Context `{Host}.

(** Binding the keyword arguments of [param_dict] to a constructor
    without defaults: the keys
    must be exactly the parameter names. *)
Definition kwargs_arity (params : gmap string PyVal) (n : nat) : Exc unit :=
  if decide (size params = n) then Ok tt else Raise TypeError.

Definition kwarg (params : gmap string PyVal) (k : string) : Exc PyVal :=
  match params !! k with
  | Some v => Ok v
  | None => Raise TypeError
  end.

(** [float(value) if value else 0] *)
Definition float_or_zero (v : PyVal) : Exc Q :=
  if py_truthy v then py_float v else Ok 0%Q.

(** [build_class_instance] on a condition class. *)
Definition build_condition (cls : ConditionClass)
    (params : gmap string PyVal) : Exc Condition :=
  match cls with
  | KeyPressed_cls =>
      _ ← kwargs_arity params 1;
      key ← kwarg params "key";
      Ok (KeyPressed key)
  | ObjectCollision_cls =>
      _ ← kwargs_arity params 2;
      a ← kwarg params "obj_a";
      b ← kwarg params "obj_b";
      Ok (ObjectCollision a b)
  | CompareCounter_cls =>
      _ ← kwargs_arity params 3;
      n ← kwarg params "counter_name";
      op ← kwarg params "operator";
      v ← kwarg params "value";
      val ← float_or_zero v;
      Ok (CompareCounter n op val)
  end.

(** [build_class_instance] on an action class. *)
Definition build_action (cls : ActionClass)
    (params : gmap string PyVal) : Exc Action :=
  match cls with
  | ChangeObjectColor_cls =>
      _ ← kwargs_arity params 2;
      n ← kwarg params "obj_name";
      c ← kwarg params "color_str";
      Ok (ChangeObjectColor n c)
  | DestroyObject_cls =>
      _ ← kwargs_arity params 1;
      n ← kwarg params "obj_name";
      Ok (DestroyObject n)
  | GoToFrame_cls =>
      _ ← kwargs_arity params 1;
      n ← kwarg params "frame_name";
      Ok (GoToFrame n)
  | SetCounterValue_cls =>
      _ ← kwargs_arity params 2;
      n ← kwarg params "counter_name";
      v ← kwarg params "value";
      val ← float_or_zero v;
      Ok (SetCounterValue n val)
  end.

(** The loop over [evt_data.get("conditions", [])]: an entry whose type
    the registry does not know is passed over. *)
Fixpoint build_conditions (reg : gmap string ConditionClass)
    (l : list EntryData) : Exc (list Condition) :=
  match l with
  | [] => Ok []
  | c_data :: rest =>
      match reg !! entry_type c_data with
      | Some cond_class =>
          cond ← build_condition cond_class (entry_params c_data);
          cond_list ← build_conditions reg rest;
          Ok (cond :: cond_list)
      | None => build_conditions reg rest
      end
  end.

Fixpoint build_actions (reg : gmap string ActionClass)
    (l : list EntryData) : Exc (list Action) :=
  match l with
  | [] => Ok []
  | a_data :: rest =>
      match reg !! entry_type a_data with
      | Some act_class =>
          act ← build_action act_class (entry_params a_data);
          act_list ← build_actions reg rest;
          Ok (act :: act_list)
      | None => build_actions reg rest
      end
  end.

Definition build_event (w : World) (evt_data : EventData) : Exc Event :=
  cond_list ← build_conditions (registered_conditions w)
                 (default [] (conditions_data evt_data));
  act_list ← build_actions (registered_actions w)
                 (default [] (actions_data evt_data));
  Ok (mkEvent cond_list act_list).

(** One object of a frame: the class from the registry, [EngineObject]
    when the type is unknown; the colour string goes through [eval]. *)
Definition build_object (w : World) (o_data : ObjectData) : Exc EngineObject :=
  let obj_type := default "ActiveObject" (o_type o_data) in
  let cls := default EngineObject_cls (registered_object_types w !! obj_type) in
  let n := default "Obj" (o_name o_data) in
  let px := default 100 (o_x o_data) in
  let py := default 100 (o_y o_data) in
  let w_ := default 50 (o_w o_data) in
  let h_ := default 50 (o_h o_data) in
  let col := default "(255,0,0)" (o_color o_data) in
  let text := default "Hello" (o_text o_data) in
  let font_size := default 24 (o_font_size o_data) in
  let initial_value := default 0%Q (o_initial_value o_data) in
  c ← py_eval_color (PStr col);
  match cls with
  | TextObject_cls => Ok (TextObject_init n px py text font_size c)
  | CounterObject_cls => Ok (CounterObject_init n px py initial_value font_size c)
  | EngineObject_cls => EngineObject_init n px py w_ h_ c
  end.

Definition build_frame (w : World) (frame_data : FrameData) : Exc Frame :=
  let fname := default "Unnamed" (f_name frame_data) in
  let bgc := default [0; 0; 0] (f_bg_color frame_data) in
  objs ← for_each (build_object w) (default [] (f_objects frame_data));
  evts ← for_each (build_event w) (default [] (f_events frame_data));
  Ok (mkFrame fname bgc objs evts).

(** [self.frames[fname] = f] for a freshly made [f]. *)
Definition store_frame (w : World) (f : Frame) : World :=
  set_heap_frames w (heap w ++ [f])
                  (<[ frame_name_of f := length (heap w) ]> (frames w)).

Fixpoint load_frames (l : list FrameData) (w : World) : Exc World :=
  match l with
  | [] => Ok w
  | frame_data :: rest =>
      f ← build_frame w frame_data;
      load_frames rest (store_frame w f)
  end.

Definition load_project (w : World) (data : ProjectData) : Exc World :=
  load_frames (default [] (frames_data data)) w.

(** [change_frame]: a name that is not a key of [self.frames] changes
    nothing. *)
Definition change_frame (w : World) (frame_name : PyVal) : World :=
  match frame_name with
  | PStr s =>
      match frames w !! s with
      | Some a => set_current_frame w (Some a)
      | None => w
      end
  | _ => w
  end.

(** [for event in pygame.event.get(): ...]: pumping the queue refreshes
    the table [pygame.key.get_pressed()] returns. *)
Definition pump_events (i : TickInput) (w : World) : World :=
  let w1 := set_globals w (mkGlobals (ENGINE_CURRENT_FRAME (module_globals w))
                                     (keys_sampled i)) in
  if quit_event i then set_running w1 false else w1.

(** "Check if we need to jump frames". *)
Definition jump_frames (w : World) : World :=
  match ENGINE_CURRENT_FRAME (module_globals w), current_frame w with
  | Some p, Some a =>
      match heap w !! a with
      | Some cur =>
          if py_truthy p && negb (py_eq_str p (frame_name_of cur))
          then set_globals (change_frame w p)
                           (mkGlobals None (key_state (module_globals w)))
          else w
      | None => w
      end
  | _, _ => w
  end.

(** What the screen shows when [Frame.draw] has returned: the
    background and the sprites blitted over it. *)
Definition Frame_picture (f : Frame) : Picture :=
  mkPicture (bg_color f) ((fun o => (image o, rect o)) <$> objects f).

(** [Frame.draw]: [screen.fill(self.bg_color)] raises on a colour pygame
    rejects, before anything is drawn. *)
Definition Frame_draw (f : Frame) : Exc Picture :=
  _ ← surface_fill (bg_color f);
  Ok (Frame_picture f).

(** [self.current_frame.update(dt)] on the instance [current_frame]
    refers to: the instance is mutated in place. *)
Definition update_current (w : World) : Exc World :=
  match current_frame w with
  | Some a =>
      match heap w !! a with
      | Some fr =>
          m ← Frame_update (mkMachine fr (module_globals w));
          Ok (set_globals (set_heap_frames w (<[a := self_frame m]> (heap w))
                                           (frames w))
                          (globals m))
      | None => Ok w
      end
  | None => Ok w
  end.

(** [self.current_frame.draw(screen)] *)
Definition draw_current (w : World) : Exc World :=
  match current_frame w ≫= (heap w !!.) with
  | Some fr => pic ← Frame_draw fr; Ok (set_screen w (Some pic) (display w))
  | None => Ok w
  end.

(** [pygame.display.flip()] *)
Definition flip (w : World) : World := set_screen w (screen w) (screen w).

(** One pass of the [while self.running] loop. *)
Definition loop_body (i : TickInput) (w : World) : Exc World :=
  let w1 := pump_events i w in
  let w2 := jump_frames w1 in
  w3 ← update_current w2;
  w4 ← draw_current w3;
  Ok (flip w4).

(** [main_loop] over the inputs the platform delivers, one per pass. *)
Fixpoint main_loop (inputs : list TickInput) (w : World) : Exc World :=
  match inputs with
  | [] => Ok w
  | i :: rest =>
      if running w then w' ← loop_body i w; main_loop rest w' else Ok w
  end.

End Engine.

End Multimedia.

Module EngineV0.

(** ** The first engine ([enginev0.py]) *)

Record EngineObject := mkObject {
  name : string;
  image : Image;
  rect : Rect
}.

Inductive Condition :=
| KeyPressed (key : PyVal)
| ObjectCollision (obj_name_a obj_name_b : PyVal).

Inductive Action :=
| ChangeObjectColor (obj_name color_str : PyVal)
| DestroyObject (obj_name : PyVal)
| GoToFrame (frame_name : PyVal).

Record Event := mkEvent {
  conditions : list Condition;
  actions : list Action
}.

Record Frame := mkFrame {
  frame_name_of : string;
  bg_color : list Z;
  objects : list EngineObject;
  events : list Event
}.

Record Machine := mkMachine {
  self_frame : Frame;
  globals : Globals
}.

Definition with_objects (m : Machine) (objs : list EngineObject) : Machine :=
  mkMachine
    (mkFrame (frame_name_of (self_frame m)) (bg_color (self_frame m)) objs
             (events (self_frame m)))
    (globals m).

Fixpoint get_object_by_name (objs : list EngineObject) (n : PyVal)
  : option nat :=
  match objs with
  | [] => None
  | o :: rest =>
      if py_eq_str n (name o) then Some 0%nat
      else S <$> get_object_by_name rest n
  end.

(** [self.frames]: a dict, in insertion order. Assigning to a key that is
    present keeps its place. *)
Fixpoint dict_set (d : list (string * nat)) (k : string) (v : nat)
  : list (string * nat) :=
  match d with
  | [] => [(k, v)]
  | (k', v') :: rest =>
      if String.eqb k' k then (k', v) :: rest else (k', v') :: dict_set rest k v
  end.

Fixpoint dict_get (d : list (string * nat)) (k : string) : option nat :=
  match d with
  | [] => None
  | (k', v') :: rest => if String.eqb k' k then Some v' else dict_get rest k
  end.

Record World := mkWorld {
  heap : list Frame;
  frames : list (string * nat);
  current_frame : option nat;
  running : bool;
  module_globals : Globals;
  screen : option Picture;
  display : option Picture
}.

Definition FusionCloneEngine_init (g : Globals) (scr : option Picture) : World :=
  mkWorld [] [] None true g scr scr.

Section Engine.
Context `{Host}.

Definition EngineObject_init (n : string) (px py w h : Z) (c : Color)
  : Exc EngineObject :=
  if (w <? 0) || (h <? 0) then Raise PygameError
  else Ok (mkObject n (Surface w h c) (mkRect px py w h)).

Definition check (c : Condition) (m : Machine) : Exc bool :=
  match c with
  | KeyPressed key =>
      let keys := key_state (globals m) in
      try_except (k ← pygame_getattr key; keys k) (Ok false)
  | ObjectCollision na nb =>
      let objs := objects (self_frame m) in
      match get_object_by_name objs na ≫= (objs !!.),
            get_object_by_name objs nb ≫= (objs !!.) with
      | Some a, Some b => Ok (colliderect (rect a) (rect b))
      | _, _ => Ok false
      end
  end.

Definition execute (a : Action) (m : Machine) : Exc Machine :=
  let objs := objects (self_frame m) in
  match a with
  | ChangeObjectColor n color_str =>
      match get_object_by_name objs n with
      | Some i =>
          match objs !! i with
          | Some obj =>
              try_except
                (color_tuple ← py_eval_color color_str;
                 Ok (with_objects m
                       (<[i := mkObject (name obj)
                                 (Surface (rw (rect obj)) (rh (rect obj))
                                          color_tuple)
                                 (rect obj)]> objs)))
                (Ok m)
          | None => Ok m
          end
      | None => Ok m
      end
  | DestroyObject n =>
      match get_object_by_name objs n with
      | Some i => Ok (with_objects m (delete i objs))
      | None => Ok m
      end
  | GoToFrame n =>
      Ok (mkMachine (self_frame m)
                    (mkGlobals (Some n) (key_state (globals m))))
  end.

Fixpoint all_check (cs : list Condition) (m : Machine) : Exc bool :=
  match cs with
  | [] => Ok true
  | c :: rest => b ← check c m; if b : bool then all_check rest m else Ok false
  end.

Fixpoint run_actions (acts : list Action) (m : Machine) : Exc Machine :=
  match acts with
  | [] => Ok m
  | a :: rest => m' ← execute a m; run_actions rest m'
  end.

Definition Event_run (e : Event) (m : Machine) : Exc Machine :=
  fire ← all_check (conditions e) m;
  if fire : bool then run_actions (actions e) m else Ok m.

Fixpoint run_events (evs : list Event) (m : Machine) : Exc Machine :=
  match evs with
  | [] => Ok m
  | e :: rest => m' ← Event_run e m; run_events rest m'
  end.

(** [Frame.update]; [EngineObject.update] is [pass]. *)
Definition Frame_update (m : Machine) : Exc Machine :=
  run_events (events (self_frame m)) m.

(** The [if]/[elif] chains of [load_project]: a type that none of them
    names adds nothing. *)
Definition build_condition (c_data : EntryData) : option Condition :=
  let params := entry_params c_data in
  if String.eqb (entry_type c_data) "KeyPressed"
  then Some (KeyPressed (default (PStr "K_SPACE") (params !! "key")))
  else if String.eqb (entry_type c_data) "ObjectCollision"
  then Some (ObjectCollision (default (PStr "") (params !! "obj_name_a"))
                             (default (PStr "") (params !! "obj_name_b")))
  else None.

Definition build_action (a_data : EntryData) : option Action :=
  let params := entry_params a_data in
  if String.eqb (entry_type a_data) "ChangeObjectColor"
  then Some (ChangeObjectColor (default (PStr "") (params !! "obj_name"))
                               (default (PStr "(255,0,0)") (params !! "color")))
  else if String.eqb (entry_type a_data) "DestroyObject"
  then Some (DestroyObject (default (PStr "") (params !! "obj_name")))
  else if String.eqb (entry_type a_data) "GoToFrame"
  then Some (GoToFrame (default (PStr "") (params !! "frame_name")))
  else None.

Definition build_event (evt_data : EventData) : Event :=
  mkEvent (omap build_condition (default [] (conditions_data evt_data)))
          (omap build_action (default [] (actions_data evt_data))).

Definition build_object (obj_data : ObjectData) : Exc EngineObject :=
  c ← py_eval_color (PStr (default "(255,0,0)" (o_color obj_data)));
  EngineObject_init (default "Unnamed" (o_name obj_data))
                    (default 0 (o_x obj_data)) (default 0 (o_y obj_data))
                    (default 50 (o_w obj_data)) (default 50 (o_h obj_data)) c.

Definition build_frame (fdata : FrameData) : Exc Frame :=
  objs ← for_each build_object (default [] (f_objects fdata));
  Ok (mkFrame (default "Untitled" (f_name fdata))
              (default [0; 0; 0] (f_bg_color fdata))
              objs
              (build_event <$> default [] (f_events fdata))).

Fixpoint load_frames (l : list FrameData) (w : World) : Exc World :=
  match l with
  | [] => Ok w
  | fdata :: rest =>
      frame ← build_frame fdata;
      load_frames rest
        (mkWorld (heap w ++ [frame])
                 (dict_set (frames w) (frame_name_of frame) (length (heap w)))
                 (current_frame w) (running w) (module_globals w)
                 (screen w) (display w))
  end.

Definition load_project (w : World) (project_data : ProjectData) : Exc World :=
  load_frames (default [] (frames_data project_data)) w.

Definition set_current_frame (w : World) (c : option nat) : World :=
  mkWorld (heap w) (frames w) c (running w) (module_globals w)
          (screen w) (display w).

Definition set_globals (w : World) (g : Globals) : World :=
  mkWorld (heap w) (frames w) (current_frame w) (running w) g
          (screen w) (display w).

Definition change_frame (w : World) (frame_name : PyVal) : World :=
  match frame_name with
  | PStr s =>
      match dict_get (frames w) s with
      | Some a => set_current_frame w (Some a)
      | None => w
      end
  | _ => w
  end.

(** The name in [ENGINE_CURRENT_FRAME] when the global [is not None];
    [GoToFrame(None)] leaves [None] in it, as no request does. *)
Definition pending_name (g : Globals) : option PyVal :=
  match ENGINE_CURRENT_FRAME g with
  | Some PNone => None
  | Some p => Some p
  | None => None
  end.

(** One pass of the loop of [main_loop]. [Frame.draw] begins with
    [surface.fill(self.bg_color)], which raises on a colour pygame
    rejects. *)
Definition loop_body (i : TickInput) (w : World) : Exc World :=
  let g := module_globals w in
  let w1 := mkWorld (heap w) (frames w) (current_frame w)
                    (if quit_event i then false else running w)
                    (mkGlobals (ENGINE_CURRENT_FRAME g) (keys_sampled i))
                    (screen w) (display w) in
  let w2 :=
    match pending_name (module_globals w1) with
    | Some p =>
        let switch :=
          match current_frame w1 ≫= (heap w1 !!.) with
          | None => true
          | Some cur => negb (py_eq_str p (frame_name_of cur))
          end in
        set_globals (if switch then change_frame w1 p else w1)
                    (mkGlobals None (key_state (module_globals w1)))
    | None => w1
    end in
  match current_frame w2 with
  | Some a =>
      match heap w2 !! a with
      | Some fr =>
          m ← Frame_update (mkMachine fr (module_globals w2));
          _ ← surface_fill (bg_color (self_frame m));
          let pic := Some (mkPicture (bg_color (self_frame m))
                             ((fun o => (image o, rect o))
                                <$> objects (self_frame m))) in
          Ok (mkWorld (<[a := self_frame m]> (heap w2)) (frames w2)
                      (current_frame w2) (running w2) (globals m) pic pic)
      | None => Ok w2
      end
  | None => Ok (mkWorld (heap w2) (frames w2) (current_frame w2) (running w2)
                        (module_globals w2) (screen w2) (screen w2))
  end.

Fixpoint loop (inputs : list TickInput) (w : World) : Exc World :=
  match inputs with
  | [] => Ok w
  | i :: rest => if running w then w' ← loop_body i w; loop rest w' else Ok w
  end.

(** [main_loop]: with no frame active, the first key of [self.frames]
    is activated before the loop starts. *)
Definition main_loop (inputs : list TickInput) (w : World) : Exc World :=
  let w0 :=
    match current_frame w, frames w with
    | None, (first_frame_name, _) :: _ => change_frame w (PStr first_frame_name)
    | _, _ => w
    end in
  loop inputs w0.

End Engine.

(** ** The editor's project file operations

    A file is the document [json.load] makes of it and [json.dump]
    writes to it. [engine_globals] is the module global
    [ENGINE_CURRENT_FRAME] with the keyboard, which outlive an engine. *)
Record Editor := mkEditor {
  project_data : ProjectData;
  current_filename : option string;
  selection : option nat;
  files : gmap string ProjectData;
  engine_globals : Globals;
  window : option Picture
}.

(** [open_project] with the path the file dialog returned. Reading a
    file that does not exist raises before anything is assigned. *)
Definition open_project (filepath : option string) (ed : Editor) : Editor :=
  match filepath with
  | Some path =>
      match files ed !! path with
      | Some data =>
          mkEditor data (Some path) None (files ed) (engine_globals ed)
                   (window ed)
      | None => ed
      end
  | None => ed
  end.

(** [save_project]; [save_as] is the path the "save as" dialog returns
    when no file name is known yet. *)
Definition save_project (save_as : option string) (ed : Editor) : Editor :=
  match current_filename ed with
  | Some path =>
      mkEditor (project_data ed) (Some path) (selection ed)
               (<[path := project_data ed]> (files ed)) (engine_globals ed)
               (window ed)
  | None =>
      match save_as with
      | Some path =>
          mkEditor (project_data ed) (Some path) (selection ed)
                   (<[path := project_data ed]> (files ed))
                   (engine_globals ed) (window ed)
      | None => ed
      end
  end.

Section Editor.
Context `{Host}.

(** The engine part of [run_game]: a fresh engine loads the project, the
    selected frame is activated, the loop runs. *)
Definition play (inputs : list TickInput) (ed : Editor) : Exc World :=
  engine ← load_project (FusionCloneEngine_init (engine_globals ed) (window ed))
                        (project_data ed);
  engine ←
    match selection ed with
    | Some index =>
        match frames_data (project_data ed) with
        | Some fs =>
            match fs !! index with
            | Some f =>
                match f_name f with
                | Some start_name => Ok (change_frame engine (PStr start_name))
                | None => Raise KeyError
                end
            | None => Raise IndexError
            end
        | None => Raise KeyError
        end
    | None => Ok engine
    end;
  main_loop inputs engine.

(** [run_game]: the engine is a local of the call; what it leaves behind
    is the module global and the window. An exception leaves the
    callback before the editor's window is shown again. *)
Definition run_game (inputs : list TickInput) (ed : Editor) : Exc Editor :=
  engine ← play inputs ed;
  Ok (mkEditor (project_data ed) (current_filename ed) (selection ed)
               (files ed) (module_globals engine) (display engine)).

End Editor.

End EngineV0.

(** ** Vocabulary of the statements *)

Module Vocabulary.
Import Multimedia.

(** The six operators [CompareCounter] knows. *)
Inductive Operator := OpEq | OpNe | OpLt | OpLe | OpGt | OpGe.

Definition operator_symbol (op : Operator) : string :=
  match op with
  | OpEq => "=="
  | OpNe => "!="
  | OpLt => "<"
  | OpLe => "<="
  | OpGt => ">"
  | OpGe => ">="
  end.

(** [a op b] on numbers. *)
Definition stands_in (op : Operator) (a b : Q) : Prop :=
  match op with
  | OpEq => (a == b)%Q
  | OpNe => ¬ (a == b)%Q
  | OpLt => (a < b)%Q
  | OpLe => (a <= b)%Q
  | OpGt => (b < a)%Q
  | OpGe => (b <= a)%Q
  end.

(** Names are unique within a frame. *)
Definition unique_names (f : Frame) : Prop := NoDup (name <$> objects f).

(** [o] is the first object of the group that is called [N]. *)
Definition first_named (N : string) (objs : list EngineObject)
    (o : EngineObject) : Prop :=
  exists i, objs !! i = Some o /\ name o = N /\
            forall j o', (j < i)%nat -> objs !! j = Some o' -> name o' <> N.

(** No object of the frame is called [n]. *)
Definition absent (n : PyVal) (f : Frame) : Prop :=
  Forall (fun o => py_eq_str n (name o) = false) (objects f).

(** A host to run the examples on: one key is known, three colour
    specifications evaluate, rectangles collide as pygame has it, the
    screen is filled with three or four components between 0 and 255. *)
Definition demo_host : Host := {|
  pygame_getattr v :=
    match v with
    | PStr "K_SPACE" => Ok 32
    | PStr "K_a" => Ok 97
    | PStr _ => Raise AttributeError
    | _ => Raise TypeError
    end;
  py_eval_color v :=
    match v with
    | PStr "(255,0,0)" => Ok (255, 0, 0)
    | PStr "(0,255,0)" => Ok (0, 255, 0)
    | PStr "(0,0,255)" => Ok (0, 0, 255)
    | PStr _ => Raise SyntaxError
    | _ => Raise TypeError
    end;
  py_float v :=
    match v with
    | PNum q => Ok q
    | PBool b => Ok (if b then 1 else 0)%Q
    | PStr "10" => Ok 10%Q
    | PStr "5" => Ok 5%Q
    | PStr _ => Raise ValueError
    | PNone => Raise TypeError
    end;
  py_str _ := "0";
  font_extent fs t := (fs * Z.of_nat (String.length t), fs);
  colliderect a b :=
    negb ((rw a =? 0) || (rh a =? 0) || (rw b =? 0) || (rh b =? 0))
    && (Z.min (rx a) (rx a + rw a) <? Z.max (rx b) (rx b + rw b))
    && (Z.min (ry a) (ry a + rh a) <? Z.max (ry b) (ry b + rh b))
    && (Z.min (rx b) (rx b + rw b) <? Z.max (rx a) (rx a + rw a))
    && (Z.min (ry b) (ry b + rh b) <? Z.max (ry a) (ry a + rh a));
  surface_fill c :=
    if (Nat.eqb (length c) 3 || Nat.eqb (length c) 4)
       && forallb (fun v => (0 <=? v) && (v <=? 255)) c
    then Ok tt else Raise ValueError
|}.

(** A keyboard with only the space bar held, and one with nothing held. *)
Definition space_held : KeyTable :=
  fun k => if (k <? 0) || (512 <=? k) then Raise IndexError else Ok (k =? 32).
Definition nothing_held : KeyTable :=
  fun k => if (k <? 0) || (512 <=? k) then Raise IndexError else Ok false.

Definition demo_player : EngineObject :=
  mkObject "Player" 10 10 50 50 RED (Surface 50 50 RED) (mkRect 10 10 50 50)
           ActivePayload.
Definition demo_wall : EngineObject :=
  mkObject "Wall" 40 40 50 50 WHITE (Surface 50 50 WHITE) (mkRect 40 40 50 50)
           ActivePayload.
Definition demo_score : EngineObject :=
  mkObject "Score" 0 0 10 10 WHITE (Rendered "0" 24 WHITE) (mkRect 0 0 24 24)
           (CounterPayload 10 24).

Definition demo_frame : Frame :=
  mkFrame "Level1" [80; 80; 220] [demo_player; demo_wall; demo_score]
    [ mkEvent [KeyPressed (PStr "K_SPACE")]
              [DestroyObject (PStr "Wall"); GoToFrame (PStr "Menu")];
      mkEvent [ObjectCollision (PStr "Player") (PStr "Wall")]
              [SetCounterValue (PStr "Score") 0] ].

Definition demo_machine : Machine :=
  mkMachine demo_frame (mkGlobals None space_held).


(** The entries of a list whose type name a registry knows. *)
Definition known {C} (reg : gmap string C) (l : list EntryData)
  : list EntryData :=
  filter (fun e => is_Some (reg !! entry_type e)) l.

(** A project document without the entries the engine's registries do
    not know. *)
Definition strip_event (w : World) (evt : EventData) : EventData :=
  mkEventData (option_map (known (registered_conditions w)) (conditions_data evt))
              (option_map (known (registered_actions w)) (actions_data evt)).

Definition strip_frame (w : World) (fd : FrameData) : FrameData :=
  mkFrameData (f_name fd) (f_bg_color fd) (f_objects fd)
              (option_map (map (strip_event w)) (f_events fd)).

Definition registered_only (w : World) (d : ProjectData) : ProjectData :=
  mkProjectData (option_map (map (strip_frame w)) (frames_data d)).

Section Loading.
Context `{Host}.

(** [c] is the instance the engine's class for the entry [e] makes of
    the entry's parameters. *)
Definition built_condition (w : World) (e : EntryData) (c : Condition) : Prop :=
  exists cls, registered_conditions w !! entry_type e = Some cls /\
              build_condition cls (entry_params e) = Ok c.

Definition built_action (w : World) (e : EntryData) (a : Action) : Prop :=
  exists cls, registered_actions w !! entry_type e = Some cls /\
              build_action cls (entry_params e) = Ok a.

(** The event consists of the instances of the known entries, one for
    one and in their order. *)
Definition built_event (w : World) (evt : EventData) (ev : Event) : Prop :=
  Forall2 (built_condition w)
          (known (registered_conditions w) (default [] (conditions_data evt)))
          (conditions ev)
  /\ Forall2 (built_action w)
             (known (registered_actions w) (default [] (actions_data evt)))
             (actions ev).

Definition built_frame (w : World) (fd : FrameData) (f : Frame) : Prop :=
  frame_name_of f = default "Unnamed" (f_name fd)
  /\ Forall2 (fun o_data o => build_object w o_data = Ok o)
             (default [] (f_objects fd)) (objects f)
  /\ Forall2 (built_event w) (default [] (f_events fd)) (events f).

(** Everything in the document that the engine does construct can be
    constructed: the objects, and the entries of a known type. *)
Definition valid_entries (w : World) (evt : EventData) : Prop :=
  Forall (fun e => forall cls,
            registered_conditions w !! entry_type e = Some cls ->
            exists c, build_condition cls (entry_params e) = Ok c)
         (default [] (conditions_data evt))
  /\ Forall (fun e => forall cls,
               registered_actions w !! entry_type e = Some cls ->
               exists a, build_action cls (entry_params e) = Ok a)
            (default [] (actions_data evt)).

Definition rest_is_valid (w : World) (d : ProjectData) : Prop :=
  Forall (fun fd =>
            Forall (fun o => exists obj, build_object w o = Ok obj)
                   (default [] (f_objects fd))
            /\ Forall (valid_entries w) (default [] (f_events fd)))
         (default [] (frames_data d)).

End Loading.

Section Snapshot.
Context `{Host}.

(** The tick as the specification words it: every input condition is
    evaluated against one table [keys], sampled once before any event,
    whatever the module state holds when the condition runs. *)
Definition snapshot_check (keys : KeyTable) (c : Condition) (m : Machine)
  : Exc bool :=
  match c with
  | KeyPressed key => try_except (k ← pygame_getattr key; keys k) (Ok false)
  | _ => check c m
  end.

Fixpoint snapshot_all_check (keys : KeyTable) (cs : list Condition)
    (m : Machine) : Exc bool :=
  match cs with
  | [] => Ok true
  | c :: rest =>
      b ← snapshot_check keys c m;
      if b : bool then snapshot_all_check keys rest m else Ok false
  end.

Definition snapshot_Event_run (keys : KeyTable) (e : Event) (m : Machine)
  : Exc Machine :=
  fire ← snapshot_all_check keys (conditions e) m;
  if fire : bool then run_actions (actions e) m else Ok m.

Fixpoint snapshot_run_events (keys : KeyTable) (evs : list Event)
    (m : Machine) : Exc Machine :=
  match evs with
  | [] => Ok m
  | e :: rest => m' ← snapshot_Event_run keys e m; snapshot_run_events keys rest m'
  end.

(** A pass of the loop in which the events of the active frame are run
    against the table the pump sampled at the start of the pass. *)
Definition snapshot_pass (i : TickInput) (w : World) : Exc World :=
  let w2 := jump_frames (pump_events i w) in
  w3 ←
    match current_frame w2 with
    | Some a =>
        match heap w2 !! a with
        | Some fr =>
            m ← snapshot_run_events (keys_sampled i) (events fr)
                  (with_objects (mkMachine fr (module_globals w2))
                                (object_update <$> objects fr));
            Ok (set_globals
                  (set_heap_frames w2 (<[a := self_frame m]> (heap w2))
                                   (frames w2))
                  (globals m))
        | None => Ok w2
        end
    | None => Ok w2
    end;
  w4 ← draw_current w3;
  Ok (flip w4).

(** Every frame of the engine has a background the screen accepts. *)
Definition backgrounds_accepted (w : World) : Prop :=
  Forall (fun f => accepted (bg_color f)) (heap w).

End Snapshot.

(** A project with a frame whose event names a condition type and an
    action type that no registry has. *)
Definition demo_project : ProjectData :=
  mkProjectData (Some
    [ mkFrameData (Some "Menu") (Some [40; 40; 40]) (Some [])
        (Some [ mkEventData
                  (Some [ mkEntry "MouseClicked" ∅;
                          mkEntry "KeyPressed" {[ "key" := PStr "K_SPACE" ]} ])
                  (Some [ mkEntry "PlaySound" {[ "file" := PStr "a.wav" ]};
                          mkEntry "GoToFrame"
                                  {[ "frame_name" := PStr "Level1" ]} ]) ]);
      mkFrameData (Some "Level1") None
        (Some [ mkObjectData (Some "CounterObject") (Some "Score") (Some 0)
                  (Some 0) None None (Some "(255,0,0)") None None (Some 5%Q) ])
        None ]).

Definition demo_menu : Frame :=
  mkFrame "Menu" [40; 40; 40] []
    [ mkEvent [KeyPressed (PStr "K_SPACE")] [GoToFrame (PStr "Level1")] ].

(** An engine with the two frames, [Menu] active. *)
Definition demo_world : World :=
  let w := FusionCloneEngine_init (mkGlobals None nothing_held) None in
  set_current_frame
    (set_heap_frames w [demo_menu; demo_frame]
                     (<[ "Menu" := 0%nat ]> {[ "Level1" := 1%nat ]}))
    (Some 0%nat).

Definition space_tick : TickInput := mkTickInput false space_held.
Definition idle_tick : TickInput := mkTickInput false nothing_held.


(** The same engine when [GoToFrame] has left a name in the global. *)
Definition demo_world_pending (n : PyVal) : World :=
  set_globals demo_world (mkGlobals (Some n) nothing_held).

(** The demo frame with nothing held on the keyboard, and with a
    keyboard table that cannot be indexed. *)
Definition idle_machine : Machine :=
  mkMachine demo_frame (mkGlobals None nothing_held).
Definition broken_keys_machine : Machine :=
  mkMachine demo_frame (mkGlobals None (fun _ => Raise IndexError)).

(** An editor with one project file on disk. *)
Definition demo_editor : EngineV0.Editor :=
  EngineV0.mkEditor (mkProjectData None) None None
    {[ "game.json" := demo_project ]} (mkGlobals None nothing_held) None.

End Vocabulary.

(** ** The editor of [multimediafuzion4k.py] and the start of a game *)

Module MultimediaEditor.
Import Multimedia.

(** The parameters of the constructors, as [__init__] names them. *)
Definition condition_parameters (cls : ConditionClass) : list string :=
  match cls with
  | KeyPressed_cls => ["key"]
  | ObjectCollision_cls => ["obj_a"; "obj_b"]
  | CompareCounter_cls => ["counter_name"; "operator"; "value"]
  end.

Definition action_parameters (cls : ActionClass) : list string :=
  match cls with
  | ChangeObjectColor_cls => ["obj_name"; "color_str"]
  | DestroyObject_cls => ["obj_name"]
  | GoToFrame_cls => ["frame_name"]
  | SetCounterValue_cls => ["counter_name"; "value"]
  end.

Definition CONDITION_TYPES : list string :=
  ["KeyPressed"; "ObjectCollision"; "CompareCounter"].
Definition ACTION_TYPES : list string :=
  ["ChangeObjectColor"; "DestroyObject"; "GoToFrame"; "SetCounterValue"].

(** [ConditionActionEditor.build_param_ui]: the entry fields shown for a
    type, by mode. *)
Definition condition_fields (t : string) : list string :=
  if String.eqb t "KeyPressed" then ["key"]
  else if String.eqb t "ObjectCollision" then ["obj_a"; "obj_b"]
  else if String.eqb t "CompareCounter"
       then ["counter_name"; "operator"; "value"]
  else [].

Definition action_fields (t : string) : list string :=
  if String.eqb t "ChangeObjectColor" then ["obj_name"; "color_str"]
  else if String.eqb t "DestroyObject" then ["obj_name"]
  else if String.eqb t "GoToFrame" then ["frame_name"]
  else if String.eqb t "SetCounterValue" then ["counter_name"; "value"]
  else [].

(** [ConditionActionEditor.on_ok]: the type chosen and, for every field
    shown, the text of its entry. *)
Definition on_ok (t : string) (fields : list string) (entries : string -> string)
  : EntryData :=
  mkEntry t (list_to_map ((fun k => (k, PStr (entries k))) <$> fields)).

(** [find_frame_data]: the first frame of the project with that name;
    the frames are read with a subscript. *)
Fixpoint find_frame (l : list FrameData) (fname : string) : Exc (option FrameData) :=
  match l with
  | [] => Ok None
  | f :: rest =>
      match f_name f with
      | None => Raise KeyError
      | Some n => if String.eqb n fname then Ok (Some f) else find_frame rest fname
      end
  end.

Definition find_frame_data (project_data : ProjectData) (fname : string)
  : Exc (option FrameData) :=
  match frames_data project_data with
  | None => Raise KeyError
  | Some l => find_frame l fname
  end.

Section Run.
Context `{Host}.

(** [FusionCloneEditorApp.run_game] up to the call of [main_loop]:
    [selected] is the name selected in the frame list, if one is. *)
Definition start_engine (selected : option string) (project_data : ProjectData)
    (g : Globals) (scr : option Picture) : Exc World :=
  start_frame ←
    match selected with
    | Some s => Ok (Some s)
    | None =>
        match frames_data project_data with
        | None => Raise KeyError
        | Some [] => Ok None
        | Some (f :: _) =>
            match f_name f with
            | Some s => Ok (Some s)
            | None => Raise KeyError
            end
        end
    end;
  eng ← load_project (FusionCloneEngine_init g scr) project_data;
  Ok (match start_frame with
      | Some s => if negb (String.eqb s "") then change_frame eng (PStr s) else eng
      | None => eng
      end).

Definition run_game (selected : option string) (project_data : ProjectData)
    (g : Globals) (scr : option Picture) (inputs : list TickInput) : Exc World :=
  eng ← start_engine selected project_data g scr;
  main_loop inputs eng.

End Run.

(** Every entry of the frame table refers to a frame of that name, and
    the active frame is the one the table has under its name. *)
Definition table_consistent (w : World) : Prop :=
  (forall s a, frames w !! s = Some a ->
     exists f, heap w !! a = Some f /\ frame_name_of f = s)
  /\ (forall a, current_frame w = Some a ->
        exists f, heap w !! a = Some f /\ frames w !! frame_name_of f = Some a).

(** The name a frame of the document is loaded under. *)
Definition name_of (fd : FrameData) : string := default "Unnamed" (f_name fd).

End MultimediaEditor.

(** ** The frame list of the editor of [enginev0.py] *)

Module EditorV0.
Import EngineV0.

Definition set_project (ed : Editor) (frames : list FrameData)
    (sel : option nat) : Editor :=
  mkEditor (mkProjectData (Some frames)) (current_filename ed) sel (files ed)
           (engine_globals ed) (window ed).

(** [add_frame]: the new frame is named after the number of frames, is
    appended and selected. Without a ["frames"] key the subscript raises
    and the callback ends. *)
Definition add_frame (ed : Editor) : Editor :=
  match frames_data (project_data ed) with
  | Some l =>
      let new_name := "Frame" +:+ pretty (length l + 1)%nat in
      let frame_data :=
        mkFrameData (Some new_name) (Some [0; 0; 0]) (Some []) (Some []) in
      set_project ed (l ++ [frame_data]) (Some (length l))
  | None => ed
  end.

(** The user selects a frame in the list. *)
Definition select_frame (index : nat) (ed : Editor) : Editor :=
  mkEditor (project_data ed) (current_filename ed) (Some index) (files ed)
           (engine_globals ed) (window ed).

(** The frame [add_frame] makes for a number. *)
Definition new_frame_data (k : nat) : FrameData :=
  mkFrameData (Some ("Frame" +:+ pretty k)) (Some [0; 0; 0]) (Some []) (Some []).

(** [remove_frame]: deletes the selected frame; nothing is selected
    afterwards. *)
Definition remove_frame (ed : Editor) : Editor :=
  match selection ed with
  | None => ed
  | Some index =>
      match frames_data (project_data ed) with
      | Some l =>
          if decide (index < length l)%nat
          then set_project ed (delete index l) None
          else ed
      | None => ed
      end
  end.


(** [new_project] *)
Definition new_project (ed : Editor) : Editor :=
  mkEditor (mkProjectData (Some [])) None None (files ed) (engine_globals ed)
           (window ed).

Definition CONDITION_TYPES : list string := ["KeyPressed"; "ObjectCollision"].
Definition ACTION_TYPES : list string :=
  ["ChangeObjectColor"; "DestroyObject"; "GoToFrame"].

(** [ConditionActionDialog.on_ok]: the templates of the two modes give
    the fields; an unknown type has none. *)
Definition condition_template (t : string) : list string :=
  if String.eqb t "KeyPressed" then ["key"]
  else if String.eqb t "ObjectCollision" then ["obj_name_a"; "obj_name_b"]
  else [].

Definition action_template (t : string) : list string :=
  if String.eqb t "ChangeObjectColor" then ["obj_name"; "color"]
  else if String.eqb t "DestroyObject" then ["obj_name"]
  else if String.eqb t "GoToFrame" then ["frame_name"]
  else [].

Definition on_ok (sel_type : string) (template : list string)
    (entries : string -> string) : EntryData :=
  mkEntry sel_type (list_to_map ((fun k => (k, PStr (entries k))) <$> template)).

Section Documents.
Context `{Host}.



(** The screen accepts the background of every frame of the engine. *)
Definition screen_accepts (w : World) : Prop :=
  Forall (fun f => accepted (bg_color f)) (heap w).

End Documents.

End EditorV0.

(** ** The loop of [CatFusion1.0.py]

    The classes and [load_project] are those of [enginev0.py], line for
    line; the loop differs. *)

Module CatFusion.
Import EngineV0.

Section Loop.
Context `{Host}.

(** One pass: the frame switch reads [self.current_frame.name] whenever
    the global [is not None]. *)
Definition loop_body (i : TickInput) (w : World) : Exc World :=
  let g := module_globals w in
  let w1 := mkWorld (heap w) (frames w) (current_frame w)
                    (if quit_event i then false else running w)
                    (mkGlobals (ENGINE_CURRENT_FRAME g) (keys_sampled i))
                    (screen w) (display w) in
  w2 ←
    match pending_name (module_globals w1) with
    | Some p =>
        match current_frame w1 ≫= (heap w1 !!.) with
        | None => Raise AttributeError
        | Some cur =>
            if negb (py_eq_str p (frame_name_of cur))
            then Ok (set_globals (change_frame w1 p)
                                 (mkGlobals None (key_state (module_globals w1))))
            else Ok w1
        end
    | None => Ok w1
    end;
  match current_frame w2 with
  | Some a =>
      match heap w2 !! a with
      | Some fr =>
          m ← Frame_update (mkMachine fr (module_globals w2));
          _ ← surface_fill (bg_color (self_frame m));
          let pic := Some (mkPicture (bg_color (self_frame m))
                             ((fun o => (image o, rect o))
                                <$> objects (self_frame m))) in
          Ok (mkWorld (<[a := self_frame m]> (heap w2)) (frames w2)
                      (current_frame w2) (running w2) (globals m) pic pic)
      | None => Ok w2
      end
  | None => Ok (mkWorld (heap w2) (frames w2) (current_frame w2) (running w2)
                        (module_globals w2) (screen w2) (screen w2))
  end.

Fixpoint main_loop (inputs : list TickInput) (w : World) : Exc World :=
  match inputs with
  | [] => Ok w
  | i :: rest =>
      if running w then w' ← loop_body i w; main_loop rest w' else Ok w
  end.

End Loop.

End CatFusion.

(** ** Frame requests *)

Module Pending.
Import Multimedia.

(** The frame name a list of actions leaves in [ENGINE_CURRENT_FRAME]:
    that of its last [GoToFrame], if it has one. *)
Definition last_request (acts : list Action) (before : option PyVal)
  : option PyVal :=
  foldl (fun r a => match a with GoToFrame n => Some n | _ => r end) before acts.

End Pending.

(** ** More data to run the statements on *)

Module Examples.
Import Multimedia Vocabulary.

(** A frame with two objects called [Wall]. *)
Definition twin_machine : Machine :=
  mkMachine
    (mkFrame "Level1" [0; 0; 0] [demo_wall; demo_player; demo_wall] [])
    (mkGlobals None nothing_held).

(** A condition entry with a threshold that is not a number. *)
Definition bad_threshold : EntryData :=
  mkEntry "CompareCounter"
    (<[ "counter_name" := PStr "Score" ]>
       (<[ "operator" := PStr ">=" ]> {[ "value" := PStr "abc" ]})).

Definition bad_project : ProjectData :=
  mkProjectData (Some
    [ mkFrameData (Some "Menu") None None
        (Some [ mkEventData (Some [bad_threshold]) None ]) ]).

(** An object of a type no registry has. *)
Definition odd_object : ObjectData :=
  mkObjectData (Some "Backdrop") (Some "Sky") (Some 0) (Some 0) (Some 800)
               (Some 600) (Some "(0,0,255)") None None None.

Definition odd_frame : FrameData :=
  mkFrameData (Some "Level1") None (Some [odd_object]) None.

(** A project with two frames called [Level1]. *)
Definition twin_project : ProjectData :=
  mkProjectData (Some
    [ mkFrameData (Some "Level1") (Some [1; 1; 1]) None None;
      mkFrameData (Some "Menu") None None None;
      mkFrameData (Some "Level1") (Some [2; 2; 2]) None None ]).

(** The demo engine with no frame active. *)
Definition idle_world : World := set_current_frame demo_world None.

(** An engine of [enginev0.py] with one frame, none active, and a frame
    name pending. *)
Definition v0_menu : EngineV0.Frame :=
  EngineV0.mkFrame "Menu" [0; 0; 0] [] [].

Definition v0_pending_world : EngineV0.World :=
  EngineV0.mkWorld [v0_menu] [("Menu", 0%nat)] None true
    (mkGlobals (Some (PStr "Menu")) nothing_held) None None.

(** An editor with two frames in its project. *)
Definition two_frame_editor : EngineV0.Editor :=
  EditorV0.add_frame (EditorV0.add_frame
    (EngineV0.mkEditor (mkProjectData (Some [])) None None ∅
                       (mkGlobals None nothing_held) None)).

(** A new engine of [multimediafuzion4k.py], and one of [enginev0.py]. *)
Definition new_engine : World :=
  FusionCloneEngine_init (mkGlobals None nothing_held) None.

Definition new_v0_engine : EngineV0.World :=
  EngineV0.FusionCloneEngine_init (mkGlobals None nothing_held) None.

(** A pass in which the window is closed. *)
Definition quit_tick : TickInput := mkTickInput true nothing_held.


End Examples.

(** * Properties of the engine of [multimediafuzion4k.py] *)

Module MultimediaFacts.
Import Multimedia Vocabulary.

Section Facts.
Context `{Host}.

(** *** The error monad *)

Lemma bind_Ok {A B} (m : Exc A) (k : A -> Exc B) (b : B) :
  m ≫= k = Ok b -> exists a, m = Ok a /\ k a = Ok b.
Proof. destruct m as [a|e]; cbn; [eauto | discriminate]. Qed.

Lemma bind_Ok_l {A B} (a : A) (k : A -> Exc B) : Ok a ≫= k = k a.
Proof. reflexivity. Qed.

(** *** Looking objects up by name *)

Lemma get_object_by_name_None objs n :
  get_object_by_name objs n = None <->
  Forall (fun o => py_eq_str n (name o) = false) objs.
Proof.
  induction objs as [|o rest IH]; cbn.
  - split; [constructor | reflexivity].
  - destruct (py_eq_str n (name o)) eqn:E.
    + split; [discriminate | intros HF; inversion HF; congruence].
    + destruct (get_object_by_name rest n) eqn:G; cbn.
      * split; [discriminate |].
        intros HF; inversion HF; subst. apply IH in H3. discriminate.
      * split; [| reflexivity]. intros _. constructor; [exact E | by apply IH].
Qed.

Lemma get_object_by_name_Some objs n i :
  get_object_by_name objs n = Some i ->
  exists o, objs !! i = Some o /\ py_eq_str n (name o) = true.
Proof.
  revert i. induction objs as [|o rest IH]; cbn; intros i; [discriminate |].
  destruct (py_eq_str n (name o)) eqn:E.
  - intros [= <-]. eauto.
  - destruct (get_object_by_name rest n) as [j|] eqn:G; cbn; [| discriminate].
    intros [= <-]. cbn. apply IH. reflexivity.
Qed.

Lemma py_eq_str_true n s : py_eq_str n s = true <-> n = PStr s.
Proof.
  destruct n; cbn; try (split; [discriminate | intros [=]]).
  rewrite String.eqb_eq. split; [congruence | intros [=]; done].
Qed.

(** With unique names, the object found is the only one of that name. *)
Lemma get_object_by_name_unique objs (o : EngineObject) :
  NoDup (name <$> objs) -> o ∈ objs ->
  get_object_by_name objs (PStr (name o)) ≫= (objs !!.) = Some o.
Proof.
  induction objs as [|o' rest IH]; cbn; intros ND Hin.
  - by apply elem_of_nil in Hin.
  - apply NoDup_cons in ND as [Hnot ND].
    destruct (String.eqb (name o) (name o')) eqn:E.
    + cbn. apply String.eqb_eq in E.
      apply elem_of_cons in Hin as [-> | Hin]; [done |].
      exfalso. apply Hnot. rewrite <- E. apply list_elem_of_fmap. eauto.
    + apply elem_of_cons in Hin as [-> | Hin].
      * rewrite String.eqb_refl in E. discriminate.
      * specialize (IH ND Hin).
        destruct (get_object_by_name rest (PStr (name o))) as [j|]; cbn in *;
          [exact IH | discriminate].
Qed.

Lemma lookup_by_name_elem objs n (o : EngineObject) :
  get_object_by_name objs n ≫= (objs !!.) = Some o ->
  o ∈ objs /\ n = PStr (name o).
Proof.
  destruct (get_object_by_name objs n) as [i|] eqn:G; cbn; [| discriminate].
  intros Hi. apply get_object_by_name_Some in G as (o' & Ho' & E).
  rewrite Hi in Ho'. injection Ho' as <-.
  split; [by eapply list_elem_of_lookup_2 | by apply py_eq_str_true].
Qed.

(** *** Conditions and actions always return *)

Ltac split_matches :=
  repeat (match goal with
          | |- context [match ?x with _ => _ end] => destruct x eqn:?
          end; cbn).

Lemma check_total c m : exists b, check c m = Ok b.
Proof.
  destruct c as [key|a b|n op v]; cbn;
    unfold KeyPressed_check, ObjectCollision_check, CompareCounter_check,
      try_except;
    split_matches; eauto.
Qed.

Lemma execute_total a m : exists m', execute a m = Ok m'.
Proof.
  destruct a as [n c|n|n|n v]; cbn;
    unfold ChangeObjectColor_execute, DestroyObject_execute,
      GoToFrame_execute, SetCounterValue_execute, try_except;
    split_matches; eauto.
Qed.

Lemma run_actions_total acts m : exists m', run_actions acts m = Ok m'.
Proof.
  revert m. induction acts as [|a rest IH]; intros m; cbn; [eauto |].
  destruct (execute_total a m) as [m1 ->]. cbn. apply IH.
Qed.

Lemma all_check_total cs m : exists b, all_check cs m = Ok b.
Proof.
  induction cs as [|c rest IH]; cbn; [eauto |].
  destruct (check_total c m) as [[] ->]; cbn; eauto.
Qed.

Lemma Event_run_total e m : exists m', Event_run e m = Ok m'.
Proof.
  unfold Event_run. destruct (all_check_total (conditions e) m) as [[] ->]; cbn.
  - apply run_actions_total.
  - eauto.
Qed.

Lemma run_events_total evs m : exists m', run_events evs m = Ok m'.
Proof.
  revert m. induction evs as [|e rest IH]; intros m; cbn; [eauto |].
  destruct (Event_run_total e m) as [m1 ->]. cbn. apply IH.
Qed.

Lemma Frame_update_total m : exists m', Frame_update m = Ok m'.
Proof. unfold Frame_update. apply run_events_total. Qed.

(** *** The conjunction of the conditions *)

Lemma all_check_true cs m :
  Forall (fun c => check c m = Ok true) cs -> all_check cs m = Ok true.
Proof.
  induction 1 as [|c rest Hc _ IH]; cbn; [reflexivity |].
  rewrite Hc. cbn. exact IH.
Qed.

Lemma all_check_false cs m :
  Exists (fun c => check c m = Ok false) cs -> all_check cs m = Ok false.
Proof.
  induction 1 as [c rest Hc | c rest _ IH]; cbn.
  - rewrite Hc. reflexivity.
  - destruct (check_total c m) as [[] ->]; cbn; [exact IH | reflexivity].
Qed.

(** Actions run one after the other, each on the state the previous
    ones left. *)
Lemma run_actions_app done todo m :
  run_actions (done ++ todo) m = run_actions done m ≫= run_actions todo.
Proof.
  revert m. induction done as [|a rest IH]; intros m; cbn; [reflexivity |].
  destruct (execute a m) as [m1|e]; cbn; [apply IH | reflexivity].
Qed.

Lemma run_events_app before after m :
  run_events (before ++ after) m = run_events before m ≫= run_events after.
Proof.
  revert m. induction before as [|e rest IH]; intros m; cbn; [reflexivity |].
  destruct (Event_run e m) as [m1|x]; cbn; [apply IH | reflexivity].
Qed.

(** C1. An event whose conditions all hold in the state it is run on
    executes every one of its actions, in the order of the list, each on
    the state its predecessors left; an event one of whose conditions is
    false executes nothing and leaves the state as it was. *)
Theorem Event_run_fires_iff_all_conditions_hold (e : Event) (m : Machine) :
  (Forall (fun c => check c m = Ok true) (conditions e) ->
   exists m', Event_run e m = Ok m' /\
     forall done a todo, actions e = done ++ a :: todo ->
       exists m1 m2, run_actions done m = Ok m1 /\ execute a m1 = Ok m2 /\
                     run_actions todo m2 = Ok m')
  /\ (Exists (fun c => check c m = Ok false) (conditions e) ->
      Event_run e m = Ok m).
Proof.
  split.
  - intros Hall. unfold Event_run. rewrite (all_check_true _ _ Hall). cbn.
    destruct (run_actions_total (actions e) m) as [m' Hm'].
    exists m'. split; [exact Hm' |].
    intros done a todo Hsplit. rewrite Hsplit, run_actions_app in Hm'.
    apply bind_Ok in Hm' as (m1 & H1 & Hrest). cbn in Hrest.
    apply bind_Ok in Hrest as (m2 & H2 & H3). eauto.
  - intros Hex. unfold Event_run. rewrite (all_check_false _ _ Hex).
    reflexivity.
Qed.

(** *** Comparing a counter *)

Lemma Qlt_bool_iff a b : Qlt_bool a b = true <-> (a < b)%Q.
Proof.
  unfold Qlt_bool. rewrite negb_true_iff, <- not_true_iff_false, Qle_bool_iff.
  split; [apply Qnot_le_lt | apply Qlt_not_le].
Qed.

Lemma CompareCounter_on_counter m n op v c cv fs :
  get_object_by_name (objects (self_frame m)) n
    ≫= (objects (self_frame m) !!.) = Some c ->
  payload c = CounterPayload cv fs ->
  exists b, check (CompareCounter n (PStr (operator_symbol op)) v) m = Ok b /\
            (b = true <-> stands_in op cv v).
Proof.
  intros Hc Hp. cbn. unfold CompareCounter_check. rewrite Hc, Hp.
  destruct op; cbn; eexists; (split; [reflexivity |]).
  - apply Qeq_bool_iff.
  - rewrite negb_true_iff, <- not_true_iff_false, Qeq_bool_iff. reflexivity.
  - apply Qlt_bool_iff.
  - apply Qle_bool_iff.
  - apply Qlt_bool_iff.
  - apply Qle_bool_iff.
Qed.

Lemma lookup_by_name_None objs n :
  get_object_by_name objs n ≫= (objs !!.) = None ->
  Forall (fun o => py_eq_str n (name o) = false) objs.
Proof.
  destruct (get_object_by_name objs n) as [i|] eqn:G; cbn.
  - apply get_object_by_name_Some in G as (o & -> & _). discriminate.
  - intros _. by apply get_object_by_name_None.
Qed.

Lemma get_object_by_name_first objs N i :
  get_object_by_name objs (PStr N) = Some i <->
  exists o, objs !! i = Some o /\ name o = N /\
            forall j o', (j < i)%nat -> objs !! j = Some o' -> name o' <> N.
Proof.
  revert i. induction objs as [|o rest IH]; intros i; cbn.
  - split; [discriminate | intros (o & Ho & _); discriminate].
  - destruct (String.eqb N (name o)) eqn:E.
    + apply String.eqb_eq in E. split.
      * intros [= <-]. exists o. repeat split; [done | lia].
      * intros (o' & Ho' & Hn & Hfirst). destruct i as [|i]; [reflexivity |].
        exfalso. apply (Hfirst 0%nat o); [lia | reflexivity | done].
    + apply String.eqb_neq in E. split.
      * destruct (get_object_by_name rest (PStr N)) as [i'|] eqn:G; cbn;
          [| discriminate].
        intros [= <-]. destruct (proj1 (IH i') eq_refl) as (o' & Ho' & Hn & Hfirst).
        exists o'. repeat split; try done.
        intros [|j] o'' Hj Hlook; cbn in Hlook.
        -- injection Hlook as <-. congruence.
        -- apply (Hfirst j); [lia | done].
      * intros (o' & Ho' & Hn & Hfirst). destruct i as [|i]; cbn in Ho'.
        -- injection Ho' as <-. congruence.
        -- assert (G : get_object_by_name rest (PStr N) = Some i).
           { apply IH. exists o'. repeat split; try done.
             intros j o'' Hj Hlook. apply (Hfirst (S j)); [lia | done]. }
           by rewrite G.
Qed.

Lemma lookup_by_name_first objs N o :
  get_object_by_name objs (PStr N) ≫= (objs !!.) = Some o <->
  first_named N objs o.
Proof.
  unfold first_named. split.
  - destruct (get_object_by_name objs (PStr N)) as [i|] eqn:G; cbn;
      [| discriminate].
    intros Ho. apply get_object_by_name_first in G as (o' & Ho' & Hn & Hf).
    exists i. rewrite Ho in Ho'. injection Ho' as <-. done.
  - intros (i & Ho & Hn & Hf).
    assert (G : get_object_by_name objs (PStr N) = Some i)
      by (apply get_object_by_name_first; eauto).
    by rewrite G.
Qed.

(** C3. [CompareCounter(N, op, v)] is true exactly when the first object
    called [N] is a counter whose value stands in relation [op] to [v].
    In a frame whose object names are unique this is: exactly when a
    counter named [N] exists whose value stands in relation [op] to [v];
    it is false otherwise, in particular when no object is named [N],
    and when the object named [N] is not a counter. *)
Theorem CompareCounter_check_spec (m : Machine) (N : string) (op : Operator)
    (v : Q) :
  let c := CompareCounter (PStr N) (PStr (operator_symbol op)) v in
  let holds := exists o cv fs, o ∈ objects (self_frame m) /\ name o = N /\
                 payload o = CounterPayload cv fs /\ stands_in op cv v in
  (check c m = Ok true <->
   exists o cv fs, first_named N (objects (self_frame m)) o /\
                   payload o = CounterPayload cv fs /\ stands_in op cv v)
  /\ (unique_names (self_frame m) ->
      (check c m = Ok true <-> holds)
      /\ (check c m = Ok false <-> ¬ holds)
      /\ ((forall o, o ∈ objects (self_frame m) -> name o <> N) ->
          check c m = Ok false)
      /\ (forall o, o ∈ objects (self_frame m) -> name o = N ->
          is_CounterObject o = false -> check c m = Ok false)).
Proof.
  intros c holds.
  assert (Hfirst : check c m = Ok true <->
            exists o cv fs, first_named N (objects (self_frame m)) o /\
              payload o = CounterPayload cv fs /\ stands_in op cv v).
  { subst c. split.
    - intros Hchk.
      destruct (get_object_by_name (objects (self_frame m)) (PStr N)
                  ≫= (objects (self_frame m) !!.)) as [o|] eqn:L.
      + destruct (payload o) as [| |cv fs] eqn:P;
          try (cbn in Hchk; unfold CompareCounter_check in Hchk;
               rewrite L, P in Hchk; discriminate).
        destruct (CompareCounter_on_counter m _ op v o cv fs L P)
          as (b & Hb & Hiff).
        rewrite Hchk in Hb. injection Hb as <-.
        exists o, cv, fs. split; [by apply lookup_by_name_first |].
        split; [done | by apply Hiff].
      + cbn in Hchk. unfold CompareCounter_check in Hchk. rewrite L in Hchk.
        discriminate.
    - intros (o & cv & fs & Hf & P & Hrel).
      apply lookup_by_name_first in Hf.
      destruct (CompareCounter_on_counter m _ op v o cv fs Hf P)
        as (b & Hb & Hiff).
      rewrite Hb. f_equal. by apply Hiff. }
  split; [exact Hfirst |]. intros ND.
  assert (Htrue : check c m = Ok true <-> holds).
  { rewrite Hfirst. subst holds. split.
    - intros (o & cv & fs & Hf & P & Hrel).
      apply lookup_by_name_first in Hf.
      destruct (lookup_by_name_elem _ _ _ Hf) as [Hin [= ->]].
      exists o, cv, fs. done.
    - intros (o & cv & fs & Hin & <- & P & Hrel).
      exists o, cv, fs. split; [| done].
      apply lookup_by_name_first. by apply get_object_by_name_unique. }
  assert (Hfalse : check c m = Ok false <-> ¬ holds).
  { rewrite <- Htrue. destruct (check_total c m) as [[] ->].
    - split; [discriminate | intros Hn; by destruct Hn].
    - split; [intros _ [=] | reflexivity]. }
  split; [exact Htrue |]. split; [exact Hfalse |]. split.
  - intros Hnone. apply Hfalse. intros (o & cv & fs & Hin & Hn & _).
    by apply (Hnone o).
  - intros o Hin Hn Hk. apply Hfalse. intros (o' & cv & fs & Hin' & Hn' & P & _).
    assert (o' = o) as ->.
    { pose proof (get_object_by_name_unique _ o ND Hin) as L.
      pose proof (get_object_by_name_unique _ o' ND Hin') as L'.
      rewrite Hn in L. rewrite Hn' in L'. congruence. }
    unfold is_CounterObject in Hk. rewrite P in Hk. discriminate.
Qed.

(** *** Objects that are gone stay gone *)

Lemma name_fill_object o c : name (fill_object o c) = name o.
Proof. reflexivity. Qed.

Lemma name_set_value o v : name (set_value o v) = name o.
Proof. unfold set_value. destruct (payload o); reflexivity. Qed.

(** No action adds an object: a name that is absent stays absent. *)
Lemma execute_absent a n m m' :
  execute a m = Ok m' -> absent n (self_frame m) -> absent n (self_frame m').
Proof.
  unfold absent. intros Hex Habs. pose proof Habs as Hall.
  rewrite Forall_lookup in Hall.
  destruct a as [k c|k|k|k v]; cbn in Hex;
    unfold ChangeObjectColor_execute, DestroyObject_execute,
      GoToFrame_execute, SetCounterValue_execute, try_except in Hex;
    try destruct (py_eval_color c) eqn:?; cbn in Hex;
    repeat (match type of Hex with
            | context [match ?x with _ => _ end] => destruct x eqn:?
            end; cbn in Hex);
    injection Hex as <-; cbn; try assumption.
  - apply Forall_insert; [assumption |]. rewrite name_fill_object. eauto.
  - by apply Forall_delete.
  - apply Forall_insert; [assumption |]. rewrite name_set_value. eauto.
Qed.

Lemma run_actions_absent acts n m m' :
  run_actions acts m = Ok m' -> absent n (self_frame m) ->
  absent n (self_frame m').
Proof.
  revert m. induction acts as [|a rest IH]; intros m; cbn.
  - by intros [= <-].
  - intros Hrun Habs. apply bind_Ok in Hrun as (m1 & H1 & Hrest).
    eapply IH; [exact Hrest |]. by eapply execute_absent.
Qed.

Lemma Event_run_absent e n m m' :
  Event_run e m = Ok m' -> absent n (self_frame m) -> absent n (self_frame m').
Proof.
  unfold Event_run. intros Hrun Habs.
  apply bind_Ok in Hrun as ([] & _ & Hrest).
  - by eapply run_actions_absent.
  - by injection Hrest as <-.
Qed.

Lemma run_events_absent evs n m m' :
  run_events evs m = Ok m' -> absent n (self_frame m) ->
  absent n (self_frame m').
Proof.
  revert m. induction evs as [|e rest IH]; intros m; cbn.
  - by intros [= <-].
  - intros Hrun Habs. apply bind_Ok in Hrun as (m1 & H1 & Hrest).
    eapply IH; [exact Hrest |]. by eapply Event_run_absent.
Qed.

(** Removing the object found under a name leaves nothing of that name,
    when names are unique. *)
Lemma delete_found_absent objs n i :
  NoDup (name <$> objs) -> get_object_by_name objs n = Some i ->
  Forall (fun o => py_eq_str n (name o) = false) (delete i objs).
Proof.
  revert i. induction objs as [|o rest IH]; cbn; intros i ND; [discriminate |].
  apply NoDup_cons in ND as [Hnot ND].
  destruct (py_eq_str n (name o)) eqn:E.
  - intros [= <-]. cbn. apply py_eq_str_true in E as ->.
    apply Forall_forall. intros o' Hin. cbn.
    apply String.eqb_neq. intros Heq. apply Hnot. rewrite Heq.
    apply list_elem_of_fmap. eauto.
  - destruct (get_object_by_name rest n) as [j|] eqn:G; cbn; [| discriminate].
    intros [= <-]. cbn. constructor; [exact E | by apply IH].
Qed.

Lemma ObjectCollision_absent a b m :
  absent a (self_frame m) \/ absent b (self_frame m) ->
  check (ObjectCollision a b) m = Ok false.
Proof.
  unfold absent. cbn. unfold ObjectCollision_check.
  intros [Ha | Hb].
  - apply get_object_by_name_None in Ha. rewrite Ha. reflexivity.
  - apply get_object_by_name_None in Hb. rewrite Hb. cbn.
    by destruct (_ ≫= _).
Qed.

(** C6. With unique names, once [DestroyObject(n)] has run no object
    named [n] is left in the frame, whatever actions and events run
    afterwards in the tick, and a collision condition naming [n] is then
    false. A collision condition is false whenever one of its two names
    is absent, and [DestroyObject] of an absent name changes nothing. *)
Theorem DestroyObject_is_immediate (m : Machine) (n other : PyVal)
    (rest : list Action) (later : list Event) :
  (unique_names (self_frame m) ->
   exists m1 m2 m3,
     execute (DestroyObject n) m = Ok m1 /\ absent n (self_frame m1) /\
     run_actions rest m1 = Ok m2 /\ run_events later m2 = Ok m3 /\
     absent n (self_frame m3) /\
     check (ObjectCollision n other) m3 = Ok false /\
     check (ObjectCollision other n) m3 = Ok false)
  /\ (forall a b, absent a (self_frame m) \/ absent b (self_frame m) ->
      check (ObjectCollision a b) m = Ok false)
  /\ (absent n (self_frame m) -> execute (DestroyObject n) m = Ok m).
Proof.
  split; [| split].
  - intros ND.
    assert (exists m1, execute (DestroyObject n) m = Ok m1 /\
                       absent n (self_frame m1)) as (m1 & H1 & A1).
    { cbn. unfold DestroyObject_execute.
      destruct (get_object_by_name (objects (self_frame m)) n) as [i|] eqn:G.
      - eexists. split; [reflexivity |]. unfold absent. cbn.
        by apply delete_found_absent.
      - eexists. split; [reflexivity |]. by apply get_object_by_name_None. }
    destruct (run_actions_total rest m1) as [m2 H2].
    destruct (run_events_total later m2) as [m3 H3].
    assert (A3 : absent n (self_frame m3)).
    { eapply run_events_absent; [exact H3 |].
      eapply run_actions_absent; [exact H2 | exact A1]. }
    exists m1, m2, m3. repeat split; try assumption.
    + apply ObjectCollision_absent. by left.
    + apply ObjectCollision_absent. by right.
  - intros a b. apply ObjectCollision_absent.
  - intros Habs. cbn. unfold DestroyObject_execute.
    apply get_object_by_name_None in Habs. by rewrite Habs.
Qed.

(** *** Malformed parameters *)

(** C7. A tick never raises. [KeyPressed] with a key name pygame does not
    have, or one that does not index the key table, is false;
    [ChangeObjectColor] with a colour specification that does not
    evaluate leaves the state as it was; [CompareCounter] with an
    operator outside the six is false. *)
Theorem malformed_parameters_are_harmless (m : Machine) :
  (exists m', Frame_update m = Ok m')
  /\ (forall c, exists b, check c m = Ok b)
  /\ (forall a, exists m', execute a m = Ok m')
  /\ (forall key e, pygame_getattr key = Raise e ->
      check (KeyPressed key) m = Ok false)
  /\ (forall key k e, pygame_getattr key = Ok k ->
      key_state (globals m) k = Raise e ->
      check (KeyPressed key) m = Ok false)
  /\ (forall n spec e, py_eval_color spec = Raise e ->
      execute (ChangeObjectColor n spec) m = Ok m)
  /\ (forall n o v, (forall op, o <> PStr (operator_symbol op)) ->
      check (CompareCounter n o v) m = Ok false).
Proof.
  split; [apply Frame_update_total |].
  split; [intros c; apply check_total |].
  split; [intros a; apply execute_total |].
  split; [| split; [| split]].
  - intros key e Hk. cbn. unfold KeyPressed_check. by rewrite Hk.
  - intros key k e Hk Hi. cbn. unfold KeyPressed_check. rewrite Hk. cbn.
    by rewrite Hi.
  - intros n spec e He. cbn. unfold ChangeObjectColor_execute. rewrite He.
    split_matches; reflexivity.
  - intros n o v Hop. cbn. unfold CompareCounter_check.
    destruct (_ ≫= _) as [c|]; [| reflexivity].
    destruct (payload c); try reflexivity.
    assert (Hne : forall op, py_eq_str o (operator_symbol op) = false).
    { intros op. apply not_true_iff_false. rewrite py_eq_str_true. apply Hop. }
    pose proof (Hne OpEq) as E1. pose proof (Hne OpNe) as E2.
    pose proof (Hne OpLt) as E3. pose proof (Hne OpLe) as E4.
    pose proof (Hne OpGt) as E5. pose proof (Hne OpGe) as E6.
    cbn [operator_symbol] in *. rewrite E1, E2, E3, E4, E5, E6. reflexivity.
Qed.

(** *** What a tick leaves alone *)

(** Actions touch the objects of the frame and the pending frame name:
    the keyboard table, the frame's name, background and events stay. *)
Lemma execute_shell a m m' :
  execute a m = Ok m' ->
  key_state (globals m') = key_state (globals m) /\
  frame_name_of (self_frame m') = frame_name_of (self_frame m) /\
  bg_color (self_frame m') = bg_color (self_frame m) /\
  events (self_frame m') = events (self_frame m).
Proof.
  intros Hex.
  destruct a as [k c|k|k|k v]; cbn in Hex;
    unfold ChangeObjectColor_execute, DestroyObject_execute,
      GoToFrame_execute, SetCounterValue_execute, try_except in Hex;
    try destruct (py_eval_color c) eqn:?; cbn in Hex;
    repeat (match type of Hex with
            | context [match ?x with _ => _ end] => destruct x eqn:?
            end; cbn in Hex);
    injection Hex as <-; cbn; done.
Qed.

Lemma run_actions_shell acts m m' :
  run_actions acts m = Ok m' ->
  key_state (globals m') = key_state (globals m) /\
  frame_name_of (self_frame m') = frame_name_of (self_frame m) /\
  bg_color (self_frame m') = bg_color (self_frame m) /\
  events (self_frame m') = events (self_frame m).
Proof.
  revert m. induction acts as [|a rest IH]; intros m; cbn.
  - by intros [= <-].
  - intros Hrun. apply bind_Ok in Hrun as (m1 & H1 & Hrest).
    apply execute_shell in H1 as (E1 & E2 & E3 & E4).
    apply IH in Hrest as (F1 & F2 & F3 & F4). repeat split; congruence.
Qed.

Lemma Event_run_shell e m m' :
  Event_run e m = Ok m' ->
  key_state (globals m') = key_state (globals m) /\
  frame_name_of (self_frame m') = frame_name_of (self_frame m) /\
  bg_color (self_frame m') = bg_color (self_frame m) /\
  events (self_frame m') = events (self_frame m).
Proof.
  unfold Event_run. intros Hrun. apply bind_Ok in Hrun as ([] & _ & Hrest).
  - by eapply run_actions_shell.
  - by injection Hrest as <-.
Qed.

Lemma run_events_shell evs m m' :
  run_events evs m = Ok m' ->
  key_state (globals m') = key_state (globals m) /\
  frame_name_of (self_frame m') = frame_name_of (self_frame m) /\
  bg_color (self_frame m') = bg_color (self_frame m) /\
  events (self_frame m') = events (self_frame m).
Proof.
  revert m. induction evs as [|e rest IH]; intros m; cbn.
  - by intros [= <-].
  - intros Hrun. apply bind_Ok in Hrun as (m1 & H1 & Hrest).
    apply Event_run_shell in H1 as (E1 & E2 & E3 & E4).
    apply IH in Hrest as (F1 & F2 & F3 & F4). repeat split; congruence.
Qed.

Lemma Frame_update_shell m m' :
  Frame_update m = Ok m' ->
  key_state (globals m') = key_state (globals m) /\
  frame_name_of (self_frame m') = frame_name_of (self_frame m) /\
  bg_color (self_frame m') = bg_color (self_frame m) /\
  events (self_frame m') = events (self_frame m).
Proof. unfold Frame_update. intros Hrun. by apply run_events_shell in Hrun. Qed.

Lemma KeyPressed_reads_the_table key m :
  check (KeyPressed key) m
  = try_except (k ← pygame_getattr key; key_state (globals m) k) (Ok false).
Proof. reflexivity. Qed.

Lemma pump_events_keys i w :
  key_state (module_globals (pump_events i w)) = keys_sampled i.
Proof. unfold pump_events. by destruct (quit_event i). Qed.

Lemma pump_events_frames i w :
  heap (pump_events i w) = heap w /\ frames (pump_events i w) = frames w /\
  current_frame (pump_events i w) = current_frame w /\
  ENGINE_CURRENT_FRAME (module_globals (pump_events i w))
  = ENGINE_CURRENT_FRAME (module_globals w).
Proof. unfold pump_events. by destruct (quit_event i). Qed.

Lemma change_frame_store w n :
  heap (change_frame w n) = heap w /\ frames (change_frame w n) = frames w /\
  module_globals (change_frame w n) = module_globals w /\
  running (change_frame w n) = running w.
Proof.
  unfold change_frame. destruct n; try done. by destruct (frames w !! s).
Qed.

Lemma jump_frames_store w :
  heap (jump_frames w) = heap w /\ frames (jump_frames w) = frames w /\
  key_state (module_globals (jump_frames w)) = key_state (module_globals w) /\
  running (jump_frames w) = running w.
Proof.
  unfold jump_frames.
  destruct (ENGINE_CURRENT_FRAME (module_globals w)) as [p|]; [| done].
  destruct (current_frame w) as [a|]; [| done].
  destruct (heap w !! a) as [cur|]; [| done].
  destruct (_ && _); [| done]. cbn.
  by destruct (change_frame_store w p) as (-> & -> & _ & ->).
Qed.

Lemma update_current_total w : exists w', update_current w = Ok w'.
Proof.
  unfold update_current. destruct (current_frame w) as [a|]; [| eauto].
  destruct (heap w !! a) as [fr|]; [| eauto].
  destruct (Frame_update_total (mkMachine fr (module_globals w))) as [m ->].
  cbn. eauto.
Qed.

(** Updating the active frame mutates that one instance, and the
    pending frame name. *)
Lemma update_current_store w w' :
  update_current w = Ok w' ->
  current_frame w' = current_frame w /\ frames w' = frames w /\
  running w' = running w /\ length (heap w') = length (heap w) /\
  key_state (module_globals w') = key_state (module_globals w) /\
  screen w' = screen w /\ display w' = display w /\
  forall b, current_frame w <> Some b -> heap w' !! b = heap w !! b.
Proof.
  unfold update_current. destruct (current_frame w) as [a|] eqn:C;
    [| by intros [= <-]].
  destruct (heap w !! a) as [fr|] eqn:Hfr; [| by intros [= <-]].
  intros Hrun. apply bind_Ok in Hrun as (m & Hm & [= <-]). cbn.
  apply Frame_update_shell in Hm as (Hk & _).
  repeat split; try done.
  - by rewrite length_insert.
  - intros b Hb. apply list_lookup_insert_ne. congruence.
Qed.

(** Drawing shows the active frame and touches nothing else. *)
Lemma draw_current_store w w' :
  draw_current w = Ok w' ->
  heap w' = heap w /\ frames w' = frames w /\
  current_frame w' = current_frame w /\ running w' = running w /\
  module_globals w' = module_globals w /\ display w' = display w /\
  screen w' = match current_frame w ≫= (heap w !!.) with
              | Some fr => Some (Frame_picture fr)
              | None => screen w
              end.
Proof.
  unfold draw_current, Frame_draw.
  destruct (current_frame w ≫= (heap w !!.)) as [fr|]; [| by intros [= <-]].
  intros Hrun. apply bind_Ok in Hrun as (pic & Hpic & [= <-]).
  apply bind_Ok in Hpic as (u & _ & [= <-]). done.
Qed.

Lemma draw_current_Ok w :
  (forall fr, current_frame w ≫= (heap w !!.) = Some fr -> accepted (bg_color fr)) ->
  exists w', draw_current w = Ok w'.
Proof.
  unfold draw_current, Frame_draw, accepted.
  destruct (current_frame w ≫= (heap w !!.)) as [fr|]; [| eauto].
  intros Hacc. rewrite (Hacc fr eq_refl). cbn. eauto.
Qed.

Lemma draw_current_Raise w fr e :
  current_frame w ≫= (heap w !!.) = Some fr ->
  surface_fill (bg_color fr) = Raise e -> draw_current w = Raise e.
Proof. unfold draw_current, Frame_draw. by intros -> ->. Qed.

(** No pass changes the background of a frame. *)
Lemma update_current_backgrounds w w' :
  update_current w = Ok w' -> bg_color <$> heap w' = bg_color <$> heap w.
Proof.
  unfold update_current. destruct (current_frame w) as [a|];
    [| by intros [= <-]].
  destruct (heap w !! a) as [fr|] eqn:Hfr; [| by intros [= <-]].
  intros Hrun. apply bind_Ok in Hrun as (m & Hm & [= <-]). cbn.
  apply Frame_update_shell in Hm as (_ & _ & Hbg & _). cbn in Hbg.
  rewrite list_fmap_insert, Hbg. apply list_insert_id.
  by rewrite list_lookup_fmap, Hfr.
Qed.

Lemma backgrounds_accepted_fmap w :
  backgrounds_accepted w <-> Forall accepted (bg_color <$> heap w).
Proof. unfold backgrounds_accepted. by rewrite Forall_fmap. Qed.

Lemma loop_body_backgrounds i w w' :
  loop_body i w = Ok w' -> bg_color <$> heap w' = bg_color <$> heap w.
Proof.
  unfold loop_body. intros Hrun.
  apply bind_Ok in Hrun as (w3 & H3 & Hrun).
  apply bind_Ok in Hrun as (w4 & H4 & [= <-]).
  apply draw_current_store in H4 as (Hh & _).
  apply update_current_backgrounds in H3.
  destruct (jump_frames_store (pump_events i w)) as (Jh & _).
  destruct (pump_events_frames i w) as (Ph & _).
  cbn. by rewrite Hh, H3, Jh, Ph.
Qed.

Lemma loop_body_accepted i w w' :
  backgrounds_accepted w -> loop_body i w = Ok w' -> backgrounds_accepted w'.
Proof.
  rewrite !backgrounds_accepted_fmap. intros Hacc Hrun.
  by rewrite (loop_body_backgrounds _ _ _ Hrun).
Qed.

(** A pass returns when the screen accepts the backgrounds. *)
Lemma loop_body_total i w :
  backgrounds_accepted w -> exists w', loop_body i w = Ok w'.
Proof.
  intros Hacc. unfold loop_body.
  destruct (update_current_total (jump_frames (pump_events i w))) as [w3 H3].
  rewrite H3. cbn.
  destruct (draw_current_Ok w3) as [w4 ->]; [| cbn; eauto].
  intros fr Hfr.
  assert (Hin : bg_color fr ∈ bg_color <$> heap w3).
  { destruct (current_frame w3) as [a|]; [| discriminate]. cbn in Hfr.
    apply list_elem_of_fmap. exists fr. split; [done |].
    by eapply list_elem_of_lookup_2. }
  rewrite (update_current_backgrounds _ _ H3) in Hin.
  destruct (jump_frames_store (pump_events i w)) as (Jh & _).
  destruct (pump_events_frames i w) as (Ph & _).
  rewrite Jh, Ph in Hin.
  apply backgrounds_accepted_fmap in Hacc.
  by eapply Forall_forall in Hacc.
Qed.

Lemma main_loop_total inputs w :
  backgrounds_accepted w -> exists w', main_loop inputs w = Ok w'.
Proof.
  revert w. induction inputs as [|i rest IH]; intros w Hacc; cbn; [eauto |].
  destruct (running w); [| eauto].
  destruct (loop_body_total i w Hacc) as [w1 H1]. rewrite H1. cbn.
  apply IH. by eapply loop_body_accepted.
Qed.

(** What one pass of the loop does to the store. *)
Lemma loop_body_store i w w' :
  loop_body i w = Ok w' ->
  current_frame w' = current_frame (jump_frames (pump_events i w)) /\
  frames w' = frames w /\ length (heap w') = length (heap w) /\
  key_state (module_globals w') = keys_sampled i /\
  (forall b, current_frame w' <> Some b -> heap w' !! b = heap w !! b) /\
  display w' = match current_frame w' ≫= (heap w' !!.) with
               | Some fr => Some (Frame_picture fr)
               | None => screen w
               end.
Proof.
  unfold loop_body. intros Hrun.
  apply bind_Ok in Hrun as (w3 & H3 & Hrun).
  apply bind_Ok in Hrun as (w4 & H4 & [= <-]).
  apply update_current_store in H3
    as (Hc & Hf & _ & Hl & Hk & Hs & _ & Hheap).
  apply draw_current_store in H4 as (Dh & Df & Dc & _ & Dg & _ & Ds).
  destruct (jump_frames_store (pump_events i w)) as (Jh & Jf & Jk & _).
  destruct (pump_events_frames i w) as (Ph & Pf & _ & _).
  assert (Hscr : screen (jump_frames (pump_events i w)) = screen w).
  { unfold jump_frames, change_frame, pump_events.
    destruct (quit_event i); cbn; split_matches; reflexivity. }
  unfold flip. cbn. rewrite Dh, Dc, Df, Dg, Ds.
  repeat split; try congruence.
  - rewrite Hk, Jk. apply pump_events_keys.
  - intros b Hb. rewrite Hheap by congruence. congruence.
  - destruct (current_frame w3 ≫= (heap w3 !!.)); congruence.
Qed.

(** *** The input snapshot *)

Lemma snapshot_check_agrees c m :
  check c m = snapshot_check (key_state (globals m)) c m.
Proof. by destruct c. Qed.

Lemma snapshot_all_check_agrees cs m :
  all_check cs m = snapshot_all_check (key_state (globals m)) cs m.
Proof.
  induction cs as [|c rest IH]; cbn; [reflexivity |].
  rewrite <- snapshot_check_agrees.
  destruct (check c m) as [[]|]; cbn; [exact IH | reflexivity | reflexivity].
Qed.

Lemma snapshot_run_events_agrees evs m :
  run_events evs m = snapshot_run_events (key_state (globals m)) evs m.
Proof.
  revert m. induction evs as [|e rest IH]; intros m; cbn; [reflexivity |].
  assert (He : Event_run e m = snapshot_Event_run (key_state (globals m)) e m).
  { unfold Event_run, snapshot_Event_run.
    by rewrite <- snapshot_all_check_agrees. }
  rewrite <- He. destruct (Event_run e m) as [m1|x] eqn:H1; cbn;
    [| reflexivity].
  apply Event_run_shell in H1 as (<- & _). apply IH.
Qed.

(** C8. A pass of the loop is a pass in which every input condition is
    evaluated against the table the event pump sampled at the start of
    the pass: the keyboard is sampled once, before the frame is updated,
    and every condition of the pass, also those of events that run
    after actions of earlier events, reads that same table; the table
    is still the one sampled when the pass ends. *)
Theorem input_snapshot_is_fixed_within_a_tick (i : TickInput) (w : World) :
  loop_body i w = snapshot_pass i w
  /\ (forall w', loop_body i w = Ok w' ->
        key_state (module_globals w') = keys_sampled i)
  /\ (forall a fr,
        let w2 := jump_frames (pump_events i w) in
        current_frame w2 = Some a -> heap w2 !! a = Some fr ->
        let m0 := with_objects (mkMachine fr (module_globals w2))
                               (object_update <$> objects fr) in
        update_current w2
        = (m ← run_events (events fr) m0;
           Ok (set_globals
                 (set_heap_frames w2 (<[a := self_frame m]> (heap w2))
                                  (frames w2))
                 (globals m)))
        /\ key_state (globals m0) = keys_sampled i
        /\ forall before e after, events fr = before ++ e :: after ->
             exists m1, run_events before m0 = Ok m1 /\
               key_state (globals m1) = keys_sampled i /\
               (forall key, check (KeyPressed key) m1
                  = try_except (k ← pygame_getattr key; keys_sampled i k)
                               (Ok false)) /\
               forall done todo, actions e = done ++ todo ->
                 exists m2, run_actions done m1 = Ok m2 /\
                            key_state (globals m2) = keys_sampled i).
Proof.
  assert (K : key_state (module_globals (jump_frames (pump_events i w)))
              = keys_sampled i).
  { destruct (jump_frames_store (pump_events i w)) as (_ & _ & -> & _).
    apply pump_events_keys. }
  split; [| split].
  - unfold loop_body, snapshot_pass, update_current.
    destruct (current_frame (jump_frames (pump_events i w))) as [a|];
      [| reflexivity].
    destruct (heap (jump_frames (pump_events i w)) !! a) as [fr|];
      [| reflexivity].
    unfold Frame_update. cbn [self_frame with_objects events].
    rewrite snapshot_run_events_agrees. cbn [globals with_objects].
    by rewrite K.
  - intros w' Hrun. by apply loop_body_store in Hrun as (_ & _ & _ & ? & _).
  - intros a fr w2 Hc Hfr m0.
    assert (K0 : key_state (globals m0) = keys_sampled i)
      by (subst m0 w2; exact K).
    split; [| split; [exact K0 |]].
    + unfold update_current. fold w2. by rewrite Hc, Hfr.
    + intros before e after Hsplit.
      destruct (run_events_total before m0) as [m1 H1].
      pose proof (run_events_shell _ _ _ H1) as (K1 & _).
      exists m1. split; [exact H1 |]. split; [congruence |]. split.
      * intros key. rewrite KeyPressed_reads_the_table. by rewrite K1, K0.
      * intros done todo _. destruct (run_actions_total done m1) as [m2 H2].
        pose proof (run_actions_shell _ _ _ H2) as (K2 & _).
        exists m2. split; [exact H2 | congruence].
Qed.

(** *** Switching frames *)

(** C2. [GoToFrame] records the name in the module global and touches
    nothing else; the pass of the loop in which it runs goes on updating
    and then draws the frame that was active when the pass began its
    update, and changes no other frame; the next pass makes the named
    frame the active one before it updates anything. The passes return
    when the screen accepts the backgrounds of the frames. *)
Theorem GoToFrame_switches_at_the_next_tick (i : TickInput) (w : World) :
  backgrounds_accepted w ->
  (forall n m, execute (GoToFrame n) m
     = Ok (mkMachine (self_frame m) (mkGlobals (Some n) (key_state (globals m)))))
  /\ (exists w', loop_body i w = Ok w' /\
        current_frame w' = current_frame (jump_frames (pump_events i w)) /\
        frames w' = frames w /\
        (forall b, current_frame w' <> Some b -> heap w' !! b = heap w !! b) /\
        display w' = match current_frame w' ≫= (heap w' !!.) with
                     | Some fr => Some (Frame_picture fr)
                     | None => screen w
                     end)
  /\ (forall X a b cur,
        ENGINE_CURRENT_FRAME (module_globals w) = Some (PStr X) -> X <> "" ->
        frames w !! X = Some b -> current_frame w = Some a ->
        heap w !! a = Some cur -> frame_name_of cur <> X ->
        current_frame (jump_frames (pump_events i w)) = Some b /\
        ENGINE_CURRENT_FRAME (module_globals (jump_frames (pump_events i w)))
        = None /\
        exists w', loop_body i w = Ok w' /\ current_frame w' = Some b).
Proof.
  intros Hacc. split; [reflexivity |]. split.
  - destruct (loop_body_total i w Hacc) as [w' Hw']. exists w'.
    split; [exact Hw' |].
    apply loop_body_store in Hw' as (? & ? & ? & ? & ? & ?). done.
  - intros X a b cur Hp HX Hb Hc Hcur Hne.
    destruct (pump_events_frames i w) as (Ph & Pf & Pc & Pp).
    assert (J : current_frame (jump_frames (pump_events i w)) = Some b /\
                ENGINE_CURRENT_FRAME
                  (module_globals (jump_frames (pump_events i w))) = None).
    { unfold jump_frames. rewrite Pp, Hp, Pc, Hc, Ph, Hcur. cbn.
      assert (String.eqb X "" = false) as -> by by apply String.eqb_neq.
      assert (String.eqb X (frame_name_of cur) = false) as ->
        by (apply String.eqb_neq; congruence).
      cbn. rewrite Pf, Hb. done. }
    destruct J as [J1 J2]. split; [exact J1 |]. split; [exact J2 |].
    destruct (loop_body_total i w Hacc) as [w' Hw']. exists w'.
    split; [exact Hw' |].
    apply loop_body_store in Hw' as (-> & _). exact J1.
Qed.

(** C5. A name that is not a key of the frame table: [change_frame]
    leaves the engine as it is, and a pending request for it leaves the
    active frame active at the next pass of the loop, after which no
    request is left to act on; the global is reset when the name is not
    empty, an empty name is never looked at. *)
Theorem unknown_frame_requests_are_dropped (w : World) (n : PyVal) :
  (forall s, n = PStr s -> frames w !! s = None) ->
  change_frame w n = w
  /\ forall a cur,
       ENGINE_CURRENT_FRAME (module_globals w) = Some n ->
       current_frame w = Some a -> heap w !! a = Some cur ->
       frames w !! frame_name_of cur = Some a ->
       current_frame (jump_frames w) = Some a /\
       heap (jump_frames w) = heap w /\ frames (jump_frames w) = frames w /\
       (py_truthy n = true ->
        ENGINE_CURRENT_FRAME (module_globals (jump_frames w)) = None) /\
       (py_truthy n = false -> jump_frames w = w) /\
       jump_frames (jump_frames w) = jump_frames w.
Proof.
  intros Hunknown.
  assert (Hcf : change_frame w n = w).
  { unfold change_frame. destruct n; try reflexivity.
    by rewrite (Hunknown s eq_refl). }
  split; [exact Hcf |].
  intros a cur Hp Hc Hcur Hreg.
  assert (Hne : py_eq_str n (frame_name_of cur) = false).
  { apply not_true_iff_false. rewrite py_eq_str_true. intros Hn.
    rewrite (Hunknown _ Hn) in Hreg. discriminate. }
  assert (J : jump_frames w
              = if py_truthy n
                then set_globals w (mkGlobals None (key_state (module_globals w)))
                else w).
  { unfold jump_frames. rewrite Hp, Hc, Hcur, Hne, Hcf.
    by destruct (py_truthy n). }
  rewrite J. destruct (py_truthy n) eqn:T.
  - repeat split; try done.
  - repeat split; try done.
Qed.

(** *** Frames outlive their activations *)

Lemma main_loop_step i rest w w1 :
  running w = true -> loop_body i w = Ok w1 ->
  main_loop (i :: rest) w = main_loop rest w1.
Proof. intros R L. cbn. by rewrite R, L. Qed.

(** C10. The loop never rebuilds a frame: the table from names to
    [Frame] instances is the same after any number of passes, and an
    instance that is not the active one during a run is found afterwards
    exactly as it was left, so that switching back to it resumes it with
    every earlier mutation; [change_frame] itself only redirects
    [current_frame]. The loop returns when the screen accepts the
    backgrounds of the frames. *)
Theorem frames_persist_across_switches (inputs : list TickInput) (w : World) :
  backgrounds_accepted w ->
  exists w', main_loop inputs w = Ok w' /\
    frames w' = frames w /\ length (heap w') = length (heap w) /\
    (forall b,
       (forall k wk, (0 < k)%nat -> main_loop (take k inputs) w = Ok wk ->
                     current_frame wk <> Some b) ->
       heap w' !! b = heap w !! b) /\
    (forall n, heap (change_frame w' n) = heap w' /\
               frames (change_frame w' n) = frames w') /\
    (forall s b, frames w !! s = Some b ->
       current_frame (change_frame w' (PStr s)) = Some b /\
       heap (change_frame w' (PStr s)) !! b = heap w' !! b).
Proof.
  intros Hacc.
  assert (Main : exists w', main_loop inputs w = Ok w' /\
    frames w' = frames w /\ length (heap w') = length (heap w) /\
    (forall b,
       (forall k wk, (0 < k)%nat -> main_loop (take k inputs) w = Ok wk ->
                     current_frame wk <> Some b) ->
       heap w' !! b = heap w !! b)).
  { revert w Hacc. induction inputs as [|i rest IH]; intros w Hacc.
    - exists w. cbn. done.
    - destruct (running w) eqn:R.
      + destruct (loop_body_total i w Hacc) as [w1 H1].
        destruct (IH w1 (loop_body_accepted _ _ _ Hacc H1))
          as (w' & Hrun & Hf & Hl & Hheap).
        pose proof (loop_body_store _ _ _ H1) as (_ & Sf & Sl & _ & Sh & _).
        exists w'. rewrite (main_loop_step _ _ _ _ R H1).
        split; [exact Hrun |]. split; [congruence |]. split; [congruence |].
        intros b Hidle. rewrite Hheap.
        * apply Sh. apply (Hidle 1%nat); [lia |].
          cbn. rewrite R, H1. reflexivity.
        * intros k wk Hk Hwk. apply (Hidle (S k)); [lia |].
          cbn [take]. by rewrite (main_loop_step _ _ _ _ R H1).
      + exists w. cbn. rewrite R. done. }
  destruct Main as (w' & Hrun & Hf & Hl & Hheap).
  exists w'. split; [exact Hrun |]. split; [exact Hf |]. split; [exact Hl |].
  split; [exact Hheap |]. split.
  - intros n. split; apply change_frame_store.
  - intros s b Hs. cbn. rewrite Hf, Hs. split; reflexivity.
Qed.

(** *** Loading a project *)

Lemma for_each_ext {A B} (f g : A -> Exc B) l :
  (forall a, f a = g a) -> for_each f l = for_each g l.
Proof.
  intros E. induction l as [|a rest IH]; cbn; [reflexivity |].
  by rewrite E, IH.
Qed.

Lemma for_each_map {A A' B} (f : A' -> Exc B) (g : A -> A') l :
  for_each f (map g l) = for_each (fun a => f (g a)) l.
Proof.
  induction l as [|a rest IH]; cbn; [reflexivity |]. by rewrite IH.
Qed.

Lemma for_each_Ok {A B} (f : A -> Exc B) l bs :
  for_each f l = Ok bs -> Forall2 (fun a b => f a = Ok b) l bs.
Proof.
  revert bs. induction l as [|a rest IH]; cbn; intros bs.
  - intros [= <-]. constructor.
  - intros Hrun. apply bind_Ok in Hrun as (b & Hb & Hrest).
    apply bind_Ok in Hrest as (bs' & Hbs & [= <-]).
    constructor; [exact Hb | by apply IH].
Qed.

Lemma for_each_total {A B} (f : A -> Exc B) l :
  Forall (fun a => exists b, f a = Ok b) l -> exists bs, for_each f l = Ok bs.
Proof.
  induction 1 as [|a rest [b Hb] _ [bs IH]]; cbn; [eauto |].
  rewrite Hb, IH. cbn. eauto.
Qed.

(** An entry of an unknown type contributes nothing, not even an error. *)
Lemma build_conditions_known reg l :
  build_conditions reg (known reg l) = build_conditions reg l.
Proof.
  unfold known. induction l as [|e rest IH]; [reflexivity |].
  rewrite filter_cons. destruct (decide _) as [[cls Hc] | Hn]; cbn.
  - rewrite Hc, IH. reflexivity.
  - destruct (reg !! entry_type e) eqn:E; [| exact IH].
    exfalso. apply Hn. eauto.
Qed.

Lemma build_actions_known reg l :
  build_actions reg (known reg l) = build_actions reg l.
Proof.
  unfold known. induction l as [|e rest IH]; [reflexivity |].
  rewrite filter_cons. destruct (decide _) as [[cls Hc] | Hn]; cbn.
  - rewrite Hc, IH. reflexivity.
  - destruct (reg !! entry_type e) eqn:E; [| exact IH].
    exfalso. apply Hn. eauto.
Qed.

Lemma build_conditions_built w l cs :
  build_conditions (registered_conditions w) l = Ok cs ->
  Forall2 (built_condition w) (known (registered_conditions w) l) cs.
Proof.
  unfold known. revert cs. induction l as [|e rest IH]; intros cs.
  - intros [= <-]. constructor.
  - rewrite filter_cons. cbn [build_conditions build_actions].
    destruct (registered_conditions w !! entry_type e) as [cls|] eqn:E.
    + intros Hrun. apply bind_Ok in Hrun as (c & Hc & Hrest).
      apply bind_Ok in Hrest as (cs' & Hcs & [= <-]).
      rewrite decide_True by (rewrite ?E; eauto).
      constructor; [exists cls; eauto | by apply IH].
    + intros Hrun. rewrite decide_False by (rewrite ?E; by intros [? ?]).
      by apply IH.
Qed.

Lemma build_actions_built w l acts :
  build_actions (registered_actions w) l = Ok acts ->
  Forall2 (built_action w) (known (registered_actions w) l) acts.
Proof.
  unfold known. revert acts. induction l as [|e rest IH]; intros acts.
  - intros [= <-]. constructor.
  - rewrite filter_cons. cbn [build_conditions build_actions].
    destruct (registered_actions w !! entry_type e) as [cls|] eqn:E.
    + intros Hrun. apply bind_Ok in Hrun as (c & Hc & Hrest).
      apply bind_Ok in Hrest as (cs' & Hcs & [= <-]).
      rewrite decide_True by (rewrite ?E; eauto).
      constructor; [exists cls; eauto | by apply IH].
    + intros Hrun. rewrite decide_False by (rewrite ?E; by intros [? ?]).
      by apply IH.
Qed.

Lemma build_conditions_total reg l :
  Forall (fun e => forall cls, reg !! entry_type e = Some cls ->
            exists c, build_condition cls (entry_params e) = Ok c) l ->
  exists cs, build_conditions reg l = Ok cs.
Proof.
  induction 1 as [|e rest He _ [cs IH]]; cbn; [eauto |].
  destruct (reg !! entry_type e) as [cls|]; [| eauto].
  destruct (He cls eq_refl) as [c ->]. rewrite IH. cbn. eauto.
Qed.

Lemma build_actions_total reg l :
  Forall (fun e => forall cls, reg !! entry_type e = Some cls ->
            exists a, build_action cls (entry_params e) = Ok a) l ->
  exists acts, build_actions reg l = Ok acts.
Proof.
  induction 1 as [|e rest He _ [cs IH]]; cbn; [eauto |].
  destruct (reg !! entry_type e) as [cls|]; [| eauto].
  destruct (He cls eq_refl) as [c ->]. rewrite IH. cbn. eauto.
Qed.

Lemma build_event_strip w evt :
  build_event w (strip_event w evt) = build_event w evt.
Proof.
  unfold build_event, strip_event. cbn.
  destruct (conditions_data evt) as [cl|], (actions_data evt) as [al|]; cbn;
    by rewrite ?build_conditions_known, ?build_actions_known.
Qed.

Lemma build_event_built w evt ev :
  build_event w evt = Ok ev -> built_event w evt ev.
Proof.
  unfold build_event. intros Hrun.
  apply bind_Ok in Hrun as (cs & Hcs & Hrest).
  apply bind_Ok in Hrest as (acts & Hacts & [= <-]).
  split; cbn; [by apply build_conditions_built | by apply build_actions_built].
Qed.

Lemma build_event_total w evt :
  valid_entries w evt -> exists ev, build_event w evt = Ok ev.
Proof.
  intros [Hc Ha]. unfold build_event.
  destruct (build_conditions_total _ _ Hc) as [cs ->].
  destruct (build_actions_total _ _ Ha) as [acts ->]. cbn. eauto.
Qed.

Lemma build_frame_strip w fd :
  build_frame w (strip_frame w fd) = build_frame w fd.
Proof.
  unfold build_frame, strip_frame. cbn.
  destruct (f_events fd) as [el|]; cbn; [| reflexivity].
  rewrite for_each_map.
  by rewrite (for_each_ext _ (build_event w) el (build_event_strip w)).
Qed.

Lemma build_frame_built w fd f :
  build_frame w fd = Ok f -> built_frame w fd f.
Proof.
  unfold build_frame. intros Hrun.
  apply bind_Ok in Hrun as (objs & Hobjs & Hrest).
  apply bind_Ok in Hrest as (evts & Hevts & [= <-]).
  split; [reflexivity |]. split; cbn.
  - by apply for_each_Ok.
  - apply for_each_Ok in Hevts.
    eapply Forall2_impl; [exact Hevts |]. apply build_event_built.
Qed.

Lemma build_frame_total w fd :
  Forall (fun o => exists obj, build_object w o = Ok obj)
         (default [] (f_objects fd)) ->
  Forall (valid_entries w) (default [] (f_events fd)) ->
  exists f, build_frame w fd = Ok f.
Proof.
  intros Ho He. unfold build_frame.
  destruct (for_each_total _ _ Ho) as [objs ->].
  destruct (for_each_total (build_event w) (default [] (f_events fd)))
    as [evts ->]; [| cbn; eauto].
  eapply Forall_impl; [exact He |]. apply build_event_total.
Qed.

(** Storing a frame changes the store and the table, not the
    registries the loader reads. *)
Lemma build_frame_store_frame w f fd :
  build_frame (store_frame w f) fd = build_frame w fd.
Proof. reflexivity. Qed.

Lemma load_frames_strip w0 l w :
  (forall fd, build_frame w fd = build_frame w0 fd) ->
  load_frames (map (strip_frame w0) l) w = load_frames l w.
Proof.
  revert w. induction l as [|fd rest IH]; intros w Hsame;
    cbn [load_frames map]; [reflexivity |].
  rewrite (Hsame (strip_frame w0 fd)), build_frame_strip, <- (Hsame fd).
  destruct (build_frame w fd) as [f|e]; cbn; [| reflexivity].
  apply IH. intros fd'. rewrite build_frame_store_frame. apply Hsame.
Qed.

Lemma load_frames_built w0 l w w' :
  (forall fd, build_frame w fd = build_frame w0 fd) ->
  load_frames l w = Ok w' ->
  exists fs, heap w' = heap w ++ fs /\
             Forall2 (built_frame w0) l fs /\
             (forall s a, frames w !! s = Some a -> is_Some (frames w' !! s)) /\
             Forall (fun fd => is_Some (frames w' !! default "Unnamed" (f_name fd))) l.
Proof.
  revert w. induction l as [|fd rest IH]; intros w Hsame; cbn [load_frames].
  - intros [= <-]. exists []. rewrite app_nil_r. repeat split; eauto.
  - intros Hrun. apply bind_Ok in Hrun as (f & Hf & Hrest).
    apply IH in Hrest as (fs & Hheap & Hall & Hkeep & Hnew);
      [| intros fd'; rewrite build_frame_store_frame; apply Hsame].
    rewrite Hsame in Hf. pose proof (build_frame_built _ _ _ Hf) as Hb.
    exists (f :: fs). cbn in Hheap. rewrite <- app_assoc in Hheap.
    split; [exact Hheap |]. split; [by constructor |]. split.
    + intros s a Hs. destruct (decide (frame_name_of f = s)) as [<- | Hne].
      * eapply Hkeep. cbn. apply lookup_insert_eq.
      * eapply Hkeep. cbn. rewrite lookup_insert_ne by done. exact Hs.
    + constructor; [| exact Hnew].
      destruct Hb as [<- _]. eapply Hkeep. cbn. apply lookup_insert_eq.
Qed.

Lemma load_frames_total w0 l w :
  (forall fd, build_frame w fd = build_frame w0 fd) ->
  Forall (fun fd => exists f, build_frame w0 fd = Ok f) l ->
  exists w', load_frames l w = Ok w'.
Proof.
  intros Hsame Hall. revert w Hsame.
  induction Hall as [|fd rest [f Hf] _ IH]; intros w Hsame;
    cbn [load_frames]; [eauto |].
  rewrite Hsame, Hf. cbn. apply IH.
  intros fd'. rewrite build_frame_store_frame. apply Hsame.
Qed.

(** C4. Entries whose type name no registry has do not make the load
    fail and leave no trace: the load behaves as on the document without
    them. When whatever else the document holds can be constructed, the
    load returns, every frame of the document is built and stored, and
    each event consists of the instances made of the entries of a
    registered type, one for one and in their order. *)
Theorem load_project_skips_unregistered (w : World) (data : ProjectData) :
  load_project w data = load_project w (registered_only w data)
  /\ (rest_is_valid w data ->
      exists w' fs,
        load_project w data = Ok w' /\
        heap w' = heap w ++ fs /\
        Forall2 (built_frame w) (default [] (frames_data data)) fs /\
        Forall (fun fd =>
                  is_Some (frames w' !! default "Unnamed" (f_name fd)))
               (default [] (frames_data data))).
Proof.
  split.
  - unfold load_project, registered_only. cbn.
    destruct (frames_data data) as [l|]; cbn; [| reflexivity].
    symmetry. by apply load_frames_strip.
  - intros Hvalid. unfold load_project.
    destruct (load_frames_total w (default [] (frames_data data)) w)
      as [w' Hw']; [done | |].
    { eapply Forall_impl; [exact Hvalid |]. cbn.
      intros fd [Ho He]. by apply build_frame_total. }
    destruct (load_frames_built w _ w w' (fun _ => eq_refl) Hw')
      as (fs & Hheap & Hall & _ & Hnew).
    exists w', fs. done.
Qed.

End Facts.
End MultimediaFacts.

(** * Properties of the editor of [enginev0.py] *)

Module EngineV0Facts.
Import EngineV0 EditorV0 Vocabulary.
Import MultimediaFacts.

Section Facts.
Context `{Host}.

(** *** A tick returns *)

Lemma v0_check_total c m : exists b, check c m = Ok b.
Proof.
  destruct c as [key|a b]; cbn; unfold try_except;
    repeat (match goal with
            | |- context [match ?x with _ => _ end] => destruct x eqn:?
            end; cbn); eauto.
Qed.

Lemma v0_execute_total a m : exists m', execute a m = Ok m'.
Proof.
  destruct a as [n c|n|n]; cbn; unfold try_except;
    repeat (match goal with
            | |- context [match ?x with _ => _ end] => destruct x eqn:?
            end; cbn); eauto.
Qed.

Lemma v0_run_actions_total acts m : exists m', run_actions acts m = Ok m'.
Proof.
  revert m. induction acts as [|a rest IH]; intros m; cbn; [eauto |].
  destruct (v0_execute_total a m) as [m1 ->]. cbn. apply IH.
Qed.

Lemma v0_Event_run_total e m : exists m', Event_run e m = Ok m'.
Proof.
  unfold Event_run.
  assert (Hall : exists b, all_check (conditions e) m = Ok b).
  { induction (conditions e) as [|c rest IH]; cbn; [eauto |].
    destruct (v0_check_total c m) as [[] ->]; cbn; eauto. }
  destruct Hall as [[] ->]; cbn; [apply v0_run_actions_total | eauto].
Qed.

Lemma v0_Frame_update_total m : exists m', Frame_update m = Ok m'.
Proof.
  unfold Frame_update. generalize (events (self_frame m)). intros evs.
  revert m. induction evs as [|e rest IH]; intros m; cbn; [eauto |].
  destruct (v0_Event_run_total e m) as [m1 ->]. cbn. apply IH.
Qed.

(** No action changes the background of the frame. *)
Lemma v0_execute_bg a m m' :
  execute a m = Ok m' -> bg_color (self_frame m') = bg_color (self_frame m).
Proof.
  destruct a as [n c|n|n]; cbn; unfold try_except.
  - destruct (get_object_by_name _ n) as [k|]; [| by intros [= <-]].
    destruct (objects (self_frame m) !! k) as [obj|]; [| by intros [= <-]].
    destruct (py_eval_color c); cbn; by intros [= <-].
  - destruct (get_object_by_name _ n); by intros [= <-].
  - by intros [= <-].
Qed.

Lemma v0_run_actions_bg acts m m' :
  run_actions acts m = Ok m' ->
  bg_color (self_frame m') = bg_color (self_frame m).
Proof.
  revert m. induction acts as [|a rest IH]; intros m; cbn.
  - by intros [= <-].
  - intros Hrun. apply bind_Ok in Hrun as (m1 & H1 & Hrest).
    rewrite (IH _ Hrest). by eapply v0_execute_bg.
Qed.

Lemma v0_run_events_bg evs m m' :
  run_events evs m = Ok m' ->
  bg_color (self_frame m') = bg_color (self_frame m).
Proof.
  revert m. induction evs as [|e rest IH]; intros m; cbn.
  - by intros [= <-].
  - intros Hrun. apply bind_Ok in Hrun as (m1 & H1 & Hrest).
    rewrite (IH _ Hrest). unfold Event_run in H1.
    apply bind_Ok in H1 as ([] & _ & H1).
    + by eapply v0_run_actions_bg.
    + by injection H1 as <-.
Qed.

(** What the frame switch of a pass leaves alone. *)
Lemma v0_change_frame_heap w n : heap (change_frame w n) = heap w.
Proof.
  unfold change_frame. destruct n; try reflexivity.
  by destruct (dict_get (frames w) s).
Qed.


(** A pass returns when the screen accepts the backgrounds. *)
Lemma v0_loop_body_total i w :
  screen_accepts w -> exists w', loop_body i w = Ok w'.
Proof.
  unfold screen_accepts, loop_body. intros Hacc.
  set (w1 := mkWorld (heap w) (frames w) (current_frame w) _ _ _ _).
  set (w2 := match pending_name (module_globals w1) with
             | Some p => _
             | None => w1
             end).
  assert (Hh : heap w2 = heap w).
  { subst w2. destruct (pending_name (module_globals w1)) as [p|]; [| done].
    cbn. destruct (match _ ≫= _ with Some _ => _ | None => _ end);
      [by rewrite v0_change_frame_heap | done]. }
  destruct (current_frame w2) as [a|]; [| eauto].
  destruct (heap w2 !! a) as [fr|] eqn:Hfr; [| eauto].
  destruct (v0_Frame_update_total (mkMachine fr (module_globals w2)))
    as [m Hm].
  rewrite Hm. cbn.
  apply v0_run_events_bg in Hm as Hbg. cbn in Hbg.
  assert (Ha : accepted (bg_color fr)).
  { rewrite Hh in Hfr. eapply Forall_forall in Hacc; [exact Hacc |].
    by eapply list_elem_of_lookup_2. }
  unfold accepted in Ha. rewrite Hbg, Ha. cbn. eauto.
Qed.




(** *** Loading a well-formed document *)



(** *** The editor's document *)

(** Running the game reads the project and leaves it, the file name and
    the files as they are. *)
Lemma run_game_keeps_the_project inputs ed played :
  run_game inputs ed = Ok played ->
  project_data played = project_data ed /\
  current_filename played = current_filename ed /\
  files played = files ed /\ selection played = selection ed.
Proof.
  unfold run_game. intros Hrun.
  by apply bind_Ok in Hrun as (engine & _ & [= <-]).
Qed.


End Facts.
End EngineV0Facts.

(** * The statements at work on the demo project *)

Module Witnesses.
Import Multimedia Vocabulary MultimediaFacts EngineV0Facts.

Lemma demo_names_unique : unique_names demo_frame.
Proof. unfold unique_names. apply (bool_decide_unpack _). vm_compute. exact I. Defined.

Lemma demo_backgrounds : backgrounds_accepted (H:=demo_host) demo_world.
Proof.
  unfold backgrounds_accepted. cbn.
  repeat (apply Forall_cons_2; [vm_compute; reflexivity |]). apply Forall_nil_2.
Defined.

(** With the space bar held the first event of the demo frame fires and
    runs both its actions; with nothing held it leaves the state alone. *)
Lemma Event_run_fires_witness :
  (exists m', Event_run (H:=demo_host)
                (mkEvent [KeyPressed (PStr "K_SPACE")]
                         [DestroyObject (PStr "Wall"); GoToFrame (PStr "Menu")])
                demo_machine = Ok m' /\
     ENGINE_CURRENT_FRAME (globals m') = Some (PStr "Menu") /\
     name <$> objects (self_frame m') = ["Player"; "Score"])
  /\ Event_run (H:=demo_host)
       (mkEvent [KeyPressed (PStr "K_SPACE")]
                [DestroyObject (PStr "Wall"); GoToFrame (PStr "Menu")])
       idle_machine = Ok idle_machine.
Proof.
  split.
  - destruct (proj1 (Event_run_fires_iff_all_conditions_hold (H:=demo_host)
                (mkEvent [KeyPressed (PStr "K_SPACE")]
                         [DestroyObject (PStr "Wall"); GoToFrame (PStr "Menu")])
                demo_machine))
      as (m' & Hrun & Hsteps).
    { constructor; [vm_compute; reflexivity | constructor]. }
    exists m'. split; [exact Hrun |].
    vm_compute in Hrun. injection Hrun as <-. split; reflexivity.
  - apply (proj2 (Event_run_fires_iff_all_conditions_hold (H:=demo_host)
                (mkEvent [KeyPressed (PStr "K_SPACE")]
                         [DestroyObject (PStr "Wall"); GoToFrame (PStr "Menu")])
                idle_machine)).
    apply Exists_cons_hd. vm_compute. reflexivity.
Defined.

(** The counter [Score] holds 10: [Score >= 10] is true, [Score < 10]
    is false, and comparing the sprite [Player] is false. *)
Lemma CompareCounter_check_witness :
  check (H:=demo_host) (CompareCounter (PStr "Score") (PStr ">=") 10)
        demo_machine = Ok true
  /\ check (H:=demo_host) (CompareCounter (PStr "Player") (PStr "<") 10)
           demo_machine = Ok false.
Proof.
  split.
  - apply (proj1 (proj2 (CompareCounter_check_spec (H:=demo_host) demo_machine
                            "Score" OpGe 10) demo_names_unique)).
    exists demo_score, 10%Q, 24. repeat split.
    + cbn. set_solver.
    + cbn. apply Qle_refl.
  - apply (proj2 (proj2 (proj2
             (proj2 (CompareCounter_check_spec (H:=demo_host) demo_machine
                       "Player" OpLt 10) demo_names_unique))) demo_player).
    + cbn. set_solver.
    + reflexivity.
    + reflexivity.
Defined.

(** After [DestroyObject("Wall")] the collision of the player with the
    wall is false for the rest of the tick. *)
Lemma DestroyObject_is_immediate_witness :
  exists m1 m2 m3,
    execute (H:=demo_host) (DestroyObject (PStr "Wall")) demo_machine = Ok m1 /\
    absent (PStr "Wall") (self_frame m1) /\
    run_actions (H:=demo_host) [GoToFrame (PStr "Menu")] m1 = Ok m2 /\
    run_events (H:=demo_host)
      [mkEvent [ObjectCollision (PStr "Player") (PStr "Wall")]
               [SetCounterValue (PStr "Score") 0]] m2 = Ok m3 /\
    absent (PStr "Wall") (self_frame m3) /\
    check (H:=demo_host) (ObjectCollision (PStr "Wall") (PStr "Player")) m3
    = Ok false /\
    check (H:=demo_host) (ObjectCollision (PStr "Player") (PStr "Wall")) m3
    = Ok false.
Proof.
  exact (proj1 (DestroyObject_is_immediate (H:=demo_host) demo_machine
                  (PStr "Wall") (PStr "Player") [GoToFrame (PStr "Menu")]
                  [mkEvent [ObjectCollision (PStr "Player") (PStr "Wall")]
                           [SetCounterValue (PStr "Score") 0]])
               demo_names_unique).
Defined.

(** A key pygame does not have, a key table that cannot be indexed, a
    colour that does not evaluate, an operator that is none of the six. *)
Lemma malformed_parameters_witness :
  check (H:=demo_host) (KeyPressed (PStr "K_BOGUS")) demo_machine = Ok false
  /\ check (H:=demo_host) (KeyPressed (PStr "K_SPACE")) broken_keys_machine
     = Ok false
  /\ execute (H:=demo_host) (ChangeObjectColor (PStr "Player") (PStr "red"))
             demo_machine = Ok demo_machine
  /\ check (H:=demo_host) (CompareCounter (PStr "Score") (PStr "=>") 10)
           demo_machine = Ok false.
Proof.
  pose proof (malformed_parameters_are_harmless (H:=demo_host) demo_machine)
    as (_ & _ & _ & Hkey & _ & Hcol & Hop).
  pose proof (malformed_parameters_are_harmless (H:=demo_host)
                broken_keys_machine) as (_ & _ & _ & _ & Hidx & _).
  split; [| split; [| split]].
  - apply (Hkey (PStr "K_BOGUS") AttributeError). reflexivity.
  - apply (Hidx (PStr "K_SPACE") 32 IndexError); reflexivity.
  - apply (Hcol (PStr "Player") (PStr "red") SyntaxError). reflexivity.
  - apply Hop. intros op. destruct op; discriminate.
Defined.

(** The pass on the demo engine with the space bar held is the pass
    that reads the sampled table throughout, and ends with that table. *)
Lemma input_snapshot_witness :
  exists w',
    loop_body (H:=demo_host) space_tick demo_world = Ok w' /\
    snapshot_pass (H:=demo_host) space_tick demo_world = Ok w' /\
    key_state (module_globals w') = keys_sampled space_tick.
Proof.
  destruct (input_snapshot_is_fixed_within_a_tick (H:=demo_host) space_tick
              demo_world) as (Heq & Hkeys & _).
  destruct (loop_body_total (H:=demo_host) space_tick demo_world
              demo_backgrounds) as [w' Hw'].
  exists w'. split; [exact Hw' |]. split; [by rewrite <- Heq |].
  by apply Hkeys.
Defined.

(** [Menu] is active and the space bar is held: the pass in which
    [GoToFrame("Level1")] runs ends with [Menu] still active and the
    name recorded; the next pass activates [Level1]. *)
Lemma GoToFrame_switch_witness :
  exists w1 w2,
    loop_body (H:=demo_host) space_tick demo_world = Ok w1 /\
    current_frame w1 = Some 0%nat /\
    ENGINE_CURRENT_FRAME (module_globals w1) = Some (PStr "Level1") /\
    loop_body (H:=demo_host) idle_tick w1 = Ok w2 /\
    current_frame w2 = Some 1%nat.
Proof.
  destruct (proj1 (proj2 (GoToFrame_switches_at_the_next_tick (H:=demo_host)
                            space_tick demo_world demo_backgrounds)))
    as (w1 & H1 & _).
  pose proof (loop_body_accepted (H:=demo_host) _ _ _ demo_backgrounds H1)
    as Hacc1.
  pose proof H1 as E1. vm_compute in E1. injection E1 as E1. subst w1.
  match type of H1 with
  | _ = Ok ?w1 =>
      destruct (proj2 (proj2 (GoToFrame_switches_at_the_next_tick
                                (H:=demo_host) idle_tick w1 Hacc1))
                  "Level1" 0%nat 1%nat demo_menu)
        as (_ & _ & w2 & H2 & C2);
      [ reflexivity | discriminate | vm_compute; reflexivity | reflexivity
      | vm_compute; reflexivity | discriminate | ];
      exists w1, w2
  end.
  split; [exact H1 |]. split; [reflexivity |]. split; [reflexivity |].
  split; [exact H2 | exact C2].
Defined.

(** [Nowhere] is no frame of the demo engine. *)
Lemma unknown_frame_witness :
  change_frame (demo_world_pending (PStr "Nowhere")) (PStr "Nowhere")
  = demo_world_pending (PStr "Nowhere")
  /\ current_frame (jump_frames (demo_world_pending (PStr "Nowhere")))
     = Some 0%nat
  /\ ENGINE_CURRENT_FRAME
       (module_globals (jump_frames (demo_world_pending (PStr "Nowhere"))))
     = None.
Proof.
  assert (Hunknown : forall s, PStr "Nowhere" = PStr s ->
            frames (demo_world_pending (PStr "Nowhere")) !! s = None).
  { intros s [= <-]. vm_compute. reflexivity. }
  destruct (unknown_frame_requests_are_dropped
              (demo_world_pending (PStr "Nowhere")) (PStr "Nowhere") Hunknown)
    as (Hcf & Hjump).
  split; [exact Hcf |].
  destruct (Hjump 0%nat demo_menu) as (Hc & _ & _ & Hp & _).
  - reflexivity.
  - reflexivity.
  - reflexivity.
  - vm_compute. reflexivity.
  - split; [exact Hc | by apply Hp].
Defined.

(** The demo project names a condition type and an action type that are
    not registered; it loads, and the event of [Menu] has the one
    condition and the one action that are. *)
Lemma load_project_witness :
  exists w' fs,
    load_project (H:=demo_host)
      (FusionCloneEngine_init (mkGlobals None nothing_held) None) demo_project
    = Ok w' /\
    heap w' = fs /\
    (events <$> fs)
    = [ [mkEvent [KeyPressed (PStr "K_SPACE")] [GoToFrame (PStr "Level1")]];
        [] ].
Proof.
  destruct (proj2 (load_project_skips_unregistered (H:=demo_host)
              (FusionCloneEngine_init (mkGlobals None nothing_held) None)
              demo_project))
    as (w' & fs & Hload & Hheap & _).
  { unfold rest_is_valid. cbn.
    repeat match goal with
           | |- Forall _ [] => apply Forall_nil_2
           | |- Forall _ (_ :: _) => apply Forall_cons_2
           | |- _ /\ _ => split
           | |- valid_entries _ _ => unfold valid_entries; cbn
           | |- forall cls, _ -> _ =>
               intros cls Hc; vm_compute in Hc;
               first [ discriminate
                     | injection Hc as <-; eexists; vm_compute; reflexivity ]
           | |- exists _, _ => eexists; vm_compute; reflexivity
           | |- _ => progress cbn beta iota delta
                       [from_option id f_objects f_events conditions_data
                        actions_data]
           end. }
  exists w', fs. split; [exact Hload |]. split; [exact Hheap |].
  vm_compute in Hload. injection Hload as <-. cbn in Hheap. subst fs.
  reflexivity.
Defined.

(** While [Menu] stays active, [Level1] is found as it was. *)
Lemma frames_persist_witness :
  exists w', main_loop (H:=demo_host) [idle_tick; idle_tick] demo_world = Ok w' /\
    heap w' !! 1%nat = Some demo_frame /\
    current_frame (change_frame w' (PStr "Level1")) = Some 1%nat.
Proof.
  destruct (frames_persist_across_switches (H:=demo_host)
              [idle_tick; idle_tick] demo_world demo_backgrounds)
    as (w' & Hrun & Hf & Hl & Hheap & _ & Hback).
  exists w'. split; [exact Hrun |]. split.
  - rewrite (Hheap 1%nat); [reflexivity |].
    intros k wk Hk Hwk.
    destruct k as [|[|[|k]]]; [lia | | |];
      vm_compute in Hwk; injection Hwk as <-; discriminate.
  - apply (Hback "Level1" 1%nat). vm_compute. reflexivity.
Defined.


End Witnesses.

(** * Further properties of the engine of [multimediafuzion4k.py] *)

Module MultimediaMore.
Import Multimedia Vocabulary MultimediaEditor Pending MultimediaFacts.

Section Facts.
Context `{Host}.

(** *** Counters *)

(** The lookup by name reads the names only. *)
Lemma get_object_by_name_names objs objs' n :
  name <$> objs' = name <$> objs ->
  get_object_by_name objs' n = get_object_by_name objs n.
Proof.
  revert objs'. induction objs as [|o rest IH]; intros [|o' rest'] E;
    try discriminate; [reflexivity |].
  cbn in E. injection E as E1 E2. cbn. rewrite E1, (IH rest' E2). reflexivity.
Qed.

Lemma names_insert (objs : list EngineObject) (i : nat) (o o' : EngineObject) :
  objs !! i = Some o -> name o' = name o ->
  name <$> <[i := o']> objs = name <$> objs.
Proof.
  intros Hi Hn. rewrite list_fmap_insert, Hn.
  apply list_insert_id. by rewrite list_lookup_fmap, Hi.
Qed.

Lemma first_named_index N objs o :
  first_named N objs o ->
  exists i, get_object_by_name objs (PStr N) = Some i /\ objs !! i = Some o.
Proof.
  intros (i & Hi & Hn & Hf). exists i. split; [| exact Hi].
  apply get_object_by_name_first. eauto.
Qed.

(** X1. When the first object called [N] is a counter,
    [SetCounterValue(N, v)] gives it the value [v], so that afterwards
    [CompareCounter(N, op, v')] is true exactly when [v op v']. Nothing
    else of the state changes: the other objects, their number and the
    module state stay. *)
Theorem SetCounterValue_then_CompareCounter (m : Machine) (N : string)
    (c : EngineObject) (cv : Q) (fs : Z) (v : Q) :
  first_named N (objects (self_frame m)) c ->
  payload c = CounterPayload cv fs ->
  exists m' i,
    execute (SetCounterValue (PStr N) v) m = Ok m' /\
    objects (self_frame m') = <[i := set_value c v]> (objects (self_frame m)) /\
    objects (self_frame m) !! i = Some c /\
    payload (set_value c v) = CounterPayload v fs /\
    globals m' = globals m /\
    forall op v',
      check (CompareCounter (PStr N) (PStr (operator_symbol op)) v') m' = Ok true
      <-> stands_in op v v'.
Proof.
  intros Hfirst Hp.
  destruct (first_named_index _ _ _ Hfirst) as (i & Hget & Hi).
  assert (Hsv : payload (set_value c v) = CounterPayload v fs).
  { unfold set_value. rewrite Hp. reflexivity. }
  eexists _, i. split.
  { cbn. unfold SetCounterValue_execute, is_CounterObject.
    rewrite Hget, Hi, Hp. reflexivity. }
  split; [reflexivity |]. split; [exact Hi |]. split; [exact Hsv |].
  split; [reflexivity |].
  intros op v'.
  assert (L : get_object_by_name
                (<[i := set_value c v]> (objects (self_frame m))) (PStr N)
              ≫= (<[i := set_value c v]> (objects (self_frame m)) !!.)
              = Some (set_value c v)).
  { rewrite (get_object_by_name_names (objects (self_frame m))),  Hget.
    - cbn. apply list_lookup_insert_eq. by eapply lookup_lt_Some.
    - eapply names_insert; [exact Hi | apply name_set_value]. }
  destruct (CompareCounter_on_counter
              (with_objects m (<[i := set_value c v]> (objects (self_frame m))))
              (PStr N) op v' (set_value c v) v fs L Hsv) as (b & Hb & Hiff).
  rewrite Hb. rewrite <- Hiff. split; [by intros [= ->] | by intros ->].
Qed.

(** X2. [SetCounterValue(N, v)] changes nothing when no object is called
    [N] or when the first object of that name is not a counter. *)
Theorem SetCounterValue_needs_a_counter (m : Machine) (N : string) (v : Q) :
  (forall o, first_named N (objects (self_frame m)) o ->
             is_CounterObject o = false) ->
  execute (SetCounterValue (PStr N) v) m = Ok m.
Proof.
  intros Hnot. cbn. unfold SetCounterValue_execute.
  destruct (get_object_by_name (objects (self_frame m)) (PStr N)) as [i|] eqn:G;
    [| reflexivity].
  destruct (objects (self_frame m) !! i) as [o|] eqn:Hi; [| reflexivity].
  rewrite (Hnot o); [reflexivity |].
  apply lookup_by_name_first. by rewrite G.
Qed.

(** *** Colours *)

(** What a condition can see of an object. *)
Lemma check_reads_names_rects_payloads c m m' :
  (fun o => (name o, rect o, payload o)) <$> objects (self_frame m')
  = (fun o => (name o, rect o, payload o)) <$> objects (self_frame m) ->
  globals m' = globals m ->
  check c m' = check c m.
Proof.
  intros Hview Hg.
  assert (Hnames : name <$> objects (self_frame m')
                   = name <$> objects (self_frame m)).
  { apply (f_equal (fmap (fun v : string * Rect * Payload => v.1.1))) in Hview.
    by rewrite <- !list_fmap_compose in Hview. }
  assert (Hlook : forall n,
            (fun o => (name o, rect o, payload o))
              <$> (get_object_by_name (objects (self_frame m')) n
                     ≫= (objects (self_frame m') !!.))
            = (fun o => (name o, rect o, payload o))
                <$> (get_object_by_name (objects (self_frame m)) n
                       ≫= (objects (self_frame m) !!.))).
  { intros n. rewrite (get_object_by_name_names _ _ n Hnames).
    destruct (get_object_by_name (objects (self_frame m)) n) as [i|];
      [| reflexivity].
    cbn. by rewrite <- !list_lookup_fmap, Hview. }
  destruct c as [key|a b|n op v]; cbn.
  - unfold KeyPressed_check. by rewrite Hg.
  - unfold ObjectCollision_check.
    pose proof (Hlook a) as Ha. pose proof (Hlook b) as Hb.
    destruct (get_object_by_name (objects (self_frame m')) a ≫= _) as [oa'|],
             (get_object_by_name (objects (self_frame m)) a ≫= _) as [oa|];
      try discriminate; [| reflexivity].
    destruct (get_object_by_name (objects (self_frame m')) b ≫= _) as [ob'|],
             (get_object_by_name (objects (self_frame m)) b ≫= _) as [ob|];
      try discriminate; [| reflexivity].
    cbn in Ha, Hb. by injection Ha as _ -> _; injection Hb as _ -> _.
  - unfold CompareCounter_check. pose proof (Hlook n) as Hn.
    destruct (get_object_by_name (objects (self_frame m')) n ≫= _) as [c'|],
             (get_object_by_name (objects (self_frame m)) n ≫= _) as [c|];
      try discriminate; [| reflexivity].
    cbn in Hn. by injection Hn as _ _ ->.
Qed.

(** X3. [ChangeObjectColor] repaints the image of one object and
    nothing else: names, rectangles, classes and counter values, the
    number of objects and the module state stay, so no condition
    evaluates differently after it. *)
Theorem ChangeObjectColor_only_repaints (n spec : PyVal) (m m' : Machine) :
  execute (ChangeObjectColor n spec) m = Ok m' ->
  (fun o => (name o, x o, y o, color o, rect o, payload o))
    <$> objects (self_frame m')
  = (fun o => (name o, x o, y o, color o, rect o, payload o))
      <$> objects (self_frame m)
  /\ globals m' = globals m
  /\ forall c, check c m' = check c m.
Proof.
  intros Hex.
  assert (Hall : (fun o => (name o, x o, y o, color o, rect o, payload o))
                   <$> objects (self_frame m')
                 = (fun o => (name o, x o, y o, color o, rect o, payload o))
                     <$> objects (self_frame m) /\ globals m' = globals m).
  { cbn in Hex. unfold ChangeObjectColor_execute, try_except in Hex.
    destruct (get_object_by_name (objects (self_frame m)) n) as [i|];
      [| by injection Hex as <-].
    destruct (objects (self_frame m) !! i) as [obj|] eqn:Hi;
      [| by injection Hex as <-].
    destruct (py_eval_color spec) as [c|e]; cbn in Hex;
      injection Hex as <-; [| done].
    split; [| reflexivity]. cbn. rewrite list_fmap_insert.
    apply list_insert_id. by rewrite list_lookup_fmap, Hi. }
  destruct Hall as [Hview Hg]. split; [exact Hview |]. split; [exact Hg |].
  intros c. apply check_reads_names_rects_payloads; [| exact Hg].
  apply (f_equal (fmap (fun v : string * Z * Z * Color * Rect * Payload =>
                          (v.1.1.1.1.1, v.1.2, v.2)))) in Hview.
  by rewrite <- !list_fmap_compose in Hview.
Qed.

(** X4. Setting the value of a counter renders it anew in the counter's
    own colour: a repaint by [ChangeObjectColor] does not survive it. *)
Theorem SetCounterValue_undoes_the_repaint (m : Machine) (N : string)
    (spec : PyVal) (v : Q) (c : EngineObject) :
  first_named N (objects (self_frame m)) c ->
  is_CounterObject c = true ->
  run_actions [ChangeObjectColor (PStr N) spec; SetCounterValue (PStr N) v] m
  = run_actions [SetCounterValue (PStr N) v] m.
Proof.
  intros Hfirst Hc.
  destruct (first_named_index _ _ _ Hfirst) as (i & Hget & Hi).
  assert (Hset : execute (SetCounterValue (PStr N) v) m
                 = Ok (with_objects m (<[i := set_value c v]>
                                         (objects (self_frame m))))).
  { cbn. unfold SetCounterValue_execute. by rewrite Hget, Hi, Hc. }
  change (execute (ChangeObjectColor (PStr N) spec) m
            ≫= (fun m1 => execute (SetCounterValue (PStr N) v) m1 ≫= Ok)
          = execute (SetCounterValue (PStr N) v) m ≫= Ok).
  rewrite Hset.
  change (execute (ChangeObjectColor (PStr N) spec) m)
    with (ChangeObjectColor_execute (PStr N) spec m).
  unfold ChangeObjectColor_execute, try_except.
  rewrite Hget, Hi.
  destruct (py_eval_color spec) as [col|e];
    [| change (execute (SetCounterValue (PStr N) v) m ≫= Ok = 
               Ok (with_objects m (<[i:=set_value c v]> (objects (self_frame m)))) ≫= Ok);
       by rewrite Hset].
  cbn. unfold SetCounterValue_execute. cbn.
  assert (Hn : name <$> <[i := fill_object c col]> (objects (self_frame m))
               = name <$> objects (self_frame m))
    by (apply (names_insert _ _ c); [exact Hi | reflexivity]).
  rewrite (get_object_by_name_names _ _ (PStr N) Hn).
  assert (Hl : <[i := fill_object c col]> (objects (self_frame m)) !! i
               = Some (fill_object c col))
    by (apply list_lookup_insert_eq; eapply lookup_lt_Some; exact Hi).
  rewrite Hget, Hl.
  assert (is_CounterObject (fill_object c col) = true) as -> by exact Hc.
  rewrite list_insert_insert_eq.
  assert (set_value (fill_object c col) v = set_value c v) as ->.
  { unfold set_value, is_CounterObject in *. cbn.
    destruct (payload c); try discriminate. reflexivity. }
  reflexivity.
Qed.

(** *** Objects over a tick *)

Lemma execute_names a m m' :
  execute a m = Ok m' ->
  name <$> objects (self_frame m') `sublist_of` name <$> objects (self_frame m).
Proof.
  intros Hex.
  destruct a as [k c|k|k|k v]; cbn in Hex;
    unfold ChangeObjectColor_execute, DestroyObject_execute,
      GoToFrame_execute, SetCounterValue_execute, try_except in Hex;
    try destruct (py_eval_color c) eqn:?; cbn in Hex;
    repeat (match type of Hex with
            | context [match ?x with _ => _ end] => destruct x eqn:?
            end; cbn in Hex);
    injection Hex as <-; cbn; try reflexivity.
  - erewrite names_insert; [reflexivity | eassumption | reflexivity].
  - unfold remove_object. rewrite list_fmap_delete. apply sublist_delete.
  - erewrite names_insert; [reflexivity | eassumption | apply name_set_value].
Qed.

Lemma run_actions_names acts m m' :
  run_actions acts m = Ok m' ->
  name <$> objects (self_frame m') `sublist_of` name <$> objects (self_frame m).
Proof.
  revert m. induction acts as [|a rest IH]; intros m; cbn.
  - by intros [= <-].
  - intros Hrun. apply bind_Ok in Hrun as (m1 & H1 & Hrest).
    etrans; [by apply IH | by apply execute_names in H1].
Qed.

Lemma run_events_names evs m m' :
  run_events evs m = Ok m' ->
  name <$> objects (self_frame m') `sublist_of` name <$> objects (self_frame m).
Proof.
  revert m. induction evs as [|e rest IH]; intros m; cbn.
  - by intros [= <-].
  - intros Hrun. apply bind_Ok in Hrun as (m1 & H1 & Hrest).
    etrans; [by apply IH |].
    unfold Event_run in H1. apply bind_Ok in H1 as ([] & _ & H1).
    + by apply run_actions_names in H1.
    + by injection H1 as <-.
Qed.

(** X5. A tick never adds an object and never renames one: the names
    after [Frame.update] are a sublist of the names before, in the same
    order. So the number of objects does not grow, and names that were
    unique stay unique. *)
Theorem tick_never_adds_objects (m m' : Machine) :
  Frame_update m = Ok m' ->
  name <$> objects (self_frame m') `sublist_of` name <$> objects (self_frame m)
  /\ (length (objects (self_frame m')) <= length (objects (self_frame m)))%nat
  /\ (unique_names (self_frame m) -> unique_names (self_frame m')).
Proof.
  unfold Frame_update. intros Hrun. apply run_events_names in Hrun.
  cbn in Hrun. unfold object_update in Hrun.
  rewrite <- list_fmap_compose in Hrun.
  change (name ∘ (fun o : EngineObject => o)) with name in Hrun.
  split; [exact Hrun |]. split.
  - apply sublist_length in Hrun. by rewrite !length_fmap in Hrun.
  - unfold unique_names. intros ND. by eapply sublist_NoDup.
Qed.

(** X6. [DestroyObject(N)] removes one object, the first called [N]. If
    a second object has the same name it stays, and the name is still
    found afterwards. *)
Theorem DestroyObject_removes_only_the_first (m : Machine) (N : string)
    (o o2 : EngineObject) (j : nat) :
  first_named N (objects (self_frame m)) o ->
  exists i m',
    objects (self_frame m) !! i = Some o /\
    execute (DestroyObject (PStr N)) m = Ok m' /\
    objects (self_frame m') = delete i (objects (self_frame m)) /\
    (length (objects (self_frame m')) + 1 = length (objects (self_frame m)))%nat /\
    globals m' = globals m /\
    (objects (self_frame m) !! j = Some o2 -> name o2 = N -> j <> i ->
     ¬ absent (PStr N) (self_frame m') /\
     exists k, get_object_by_name (objects (self_frame m')) (PStr N) = Some k).
Proof.
  intros Hfirst. pose proof Hfirst as (i & Hi & Hn & Hearlier).
  assert (Hget : get_object_by_name (objects (self_frame m)) (PStr N) = Some i)
    by (apply get_object_by_name_first; eauto).
  exists i. eexists. split; [exact Hi |]. split.
  { cbn. unfold DestroyObject_execute. rewrite Hget. reflexivity. }
  cbn. unfold remove_object. split; [reflexivity |]. split.
  { rewrite length_delete by eauto. apply lookup_lt_Some in Hi. lia. }
  split; [reflexivity |].
  intros Hj Hn2 Hne.
  assert (Hlt : (i < j)%nat).
  { destruct (decide (j < i)%nat) as [Hlt|]; [| lia].
    exfalso. by apply (Hearlier j o2 Hlt Hj). }
  assert (Hstill : delete i (objects (self_frame m)) !! (j - 1)%nat = Some o2).
  { rewrite list_lookup_delete_ge by lia.
    replace (S (j - 1)) with j by lia. exact Hj. }
  assert (Hpresent : ¬ absent (PStr N)
            (mkFrame (frame_name_of (self_frame m)) (bg_color (self_frame m))
                     (delete i (objects (self_frame m)))
                     (events (self_frame m)))).
  { unfold absent. cbn. intros Hall. rewrite Forall_lookup in Hall.
    specialize (Hall _ _ Hstill). cbn in Hall. rewrite Hn2 in Hall.
    by rewrite String.eqb_refl in Hall. }
  split; [exact Hpresent |].
  destruct (get_object_by_name (delete i (objects (self_frame m))) (PStr N))
    as [k|] eqn:G; [eauto |].
  exfalso. apply Hpresent. unfold absent.
  apply get_object_by_name_None. exact G.
Qed.

(** *** An event that disables itself *)

Lemma SetCounterValue_on_counter m N c cv fs v :
  first_named N (objects (self_frame m)) c ->
  payload c = CounterPayload cv fs ->
  exists i,
    objects (self_frame m) !! i = Some c /\
    execute (SetCounterValue (PStr N) v) m
    = Ok (with_objects m (<[i := set_value c v]> (objects (self_frame m)))) /\
    get_object_by_name (<[i := set_value c v]> (objects (self_frame m))) (PStr N)
      ≫= (<[i := set_value c v]> (objects (self_frame m)) !!.)
    = Some (set_value c v) /\
    payload (set_value c v) = CounterPayload v fs.
Proof.
  intros Hfirst Hp.
  destruct (first_named_index _ _ _ Hfirst) as (i & Hget & Hi).
  exists i. split; [exact Hi |]. split.
  { cbn. unfold SetCounterValue_execute, is_CounterObject.
    by rewrite Hget, Hi, Hp. }
  split.
  - assert (Hn : name <$> <[i := set_value c v]> (objects (self_frame m))
                 = name <$> objects (self_frame m))
      by (apply (names_insert _ _ c); [exact Hi | apply name_set_value]).
    rewrite (get_object_by_name_names _ _ (PStr N) Hn), Hget. cbn.
    apply list_lookup_insert_eq. by eapply lookup_lt_Some.
  - unfold set_value. by rewrite Hp.
Qed.

(** X7. An event "if the counter [N] equals [v0], set it to [v1]", with
    [v1] different from [v0], run on a counter that equals [v0]: it
    fires, the counter then holds [v1], and run again on the result it
    does nothing. *)
Theorem counter_event_fires_once (m : Machine) (N : string) (c : EngineObject)
    (cv : Q) (fs : Z) (v0 v1 : Q) :
  first_named N (objects (self_frame m)) c ->
  payload c = CounterPayload cv fs ->
  (cv == v0)%Q -> ¬ (v1 == v0)%Q ->
  let e := mkEvent [CompareCounter (PStr N) (PStr "==") v0]
                   [SetCounterValue (PStr N) v1] in
  exists m' i,
    Event_run e m = Ok m' /\
    objects (self_frame m) !! i = Some c /\
    objects (self_frame m') = <[i := set_value c v1]> (objects (self_frame m)) /\
    payload (set_value c v1) = CounterPayload v1 fs /\
    Event_run e m' = Ok m'.
Proof.
  intros Hfirst Hp Heq Hne e.
  destruct (SetCounterValue_on_counter m N c cv fs v1 Hfirst Hp)
    as (i & Hi & Hset & Hlook & Hp1).
  pose proof (proj2 (lookup_by_name_first _ _ _) Hfirst) as L.
  destruct (CompareCounter_on_counter m (PStr N) OpEq v0 c cv fs L Hp)
    as (b & Hb & Hiff).
  assert (b = true) as -> by (by apply Hiff).
  set (m' := with_objects m (<[i := set_value c v1]> (objects (self_frame m)))).
  destruct (CompareCounter_on_counter m' (PStr N) OpEq v0 (set_value c v1)
              v1 fs Hlook Hp1) as (b' & Hb' & Hiff').
  assert (b' = false) as ->.
  { destruct b'; [| reflexivity]. exfalso. apply Hne. by apply Hiff'. }
  exists m', i. split; [| split; [exact Hi | split; [reflexivity | split;
    [exact Hp1 |]]]].
  - unfold Event_run, e. cbn [conditions actions all_check].
    cbn [operator_symbol] in Hb. rewrite Hb. cbn [mbind Exc_bind].
    cbn [run_actions]. rewrite Hset. reflexivity.
  - unfold Event_run, e. cbn [conditions actions all_check].
    cbn [operator_symbol] in Hb'. rewrite Hb'. reflexivity.
Qed.

(** *** Building conditions and actions from their parameters *)

Lemma exact_keys (params : gmap string PyVal) (ks : list string) :
  NoDup ks ->
  (size params = length ks /\ Forall (fun k => is_Some (params !! k)) ks)
  <-> dom params = list_to_set ks.
Proof.
  intros ND. split.
  - intros [Hsize Hall]. symmetry. apply set_subseteq_size_eq.
    + intros k Hk. apply elem_of_list_to_set in Hk. apply elem_of_dom.
      rewrite Forall_forall in Hall. by apply Hall.
    + rewrite size_dom, Hsize, size_list_to_set by done. lia.
  - intros Hdom. split.
    + by rewrite <- size_dom, Hdom, size_list_to_set.
    + apply Forall_forall. intros k Hk. apply elem_of_dom. rewrite Hdom.
      by apply elem_of_list_to_set.
Qed.

Lemma kwarg_Ok params k v : kwarg params k = Ok v <-> params !! k = Some v.
Proof.
  unfold kwarg. destruct (params !! k); split; intros [=]; by subst.
Qed.

Lemma kwargs_arity_Ok params n u :
  kwargs_arity params n = Ok u <-> size params = n.
Proof.
  unfold kwargs_arity. destruct (decide (size params = n)), u; split; try done.
Qed.

(** X8. A condition or action is built exactly when the keys of its
    parameter mapping are the parameter names of the class, no more and
    no fewer, and, for the two classes that take a [value], when
    [float(value) if value else 0] does not raise. *)
Theorem build_class_instance_needs_exact_keywords (params : gmap string PyVal) :
  (forall cls,
     (exists c, build_condition cls params = Ok c) <->
     dom params = list_to_set (condition_parameters cls) /\
     (cls = CompareCounter_cls ->
      forall v, params !! "value" = Some v -> exists q, float_or_zero v = Ok q))
  /\ (forall cls,
        (exists a, build_action cls params = Ok a) <->
        dom params = list_to_set (action_parameters cls) /\
        (cls = SetCounterValue_cls ->
         forall v, params !! "value" = Some v ->
                   exists q, float_or_zero v = Ok q)).
Proof.
  split; intros cls.
  - rewrite <- exact_keys
      by (destruct cls; cbn; apply (bool_decide_unpack _); vm_compute; exact I).
    destruct cls; cbn [condition_parameters build_condition length]; split.
    all: try (intros (c & Hb);
              repeat (apply bind_Ok in Hb as (? & ? & Hb));
              repeat match goal with
                     | Hx : kwargs_arity _ _ = Ok _ |- _ =>
                         apply kwargs_arity_Ok in Hx
                     | Hx : kwarg _ _ = Ok _ |- _ => apply kwarg_Ok in Hx
                     end;
              split; [split; [assumption | repeat constructor; eauto] |];
              try discriminate; intros _ v Hv; eexists;
              match goal with
              | Hx : _ !! "value" = Some _ |- _ =>
                  rewrite Hv in Hx; injection Hx as ->
              end; eassumption).
    all: intros [[Hsize Hall] Hfloat];
      repeat match goal with
             | Hx : Forall _ (_ :: _) |- _ =>
                 apply Forall_cons in Hx as [[? ?] Hx]
             end;
      try (edestruct Hfloat as [q Hq]; [reflexivity | eassumption |]);
      eexists; rewrite (proj2 (kwargs_arity_Ok _ _ tt) Hsize);
      cbn [mbind Exc_bind];
      repeat match goal with
             | Hx : _ !! _ = Some _ |- _ =>
                 rewrite (proj2 (kwarg_Ok _ _ _) Hx); clear Hx;
                 cbn [mbind Exc_bind]
             end;
      try (rewrite Hq; cbn [mbind Exc_bind]); reflexivity.
  - rewrite <- exact_keys
      by (destruct cls; cbn; apply (bool_decide_unpack _); vm_compute; exact I).
    destruct cls; cbn [action_parameters build_action length]; split.
    all: try (intros (c & Hb);
              repeat (apply bind_Ok in Hb as (? & ? & Hb));
              repeat match goal with
                     | Hx : kwargs_arity _ _ = Ok _ |- _ =>
                         apply kwargs_arity_Ok in Hx
                     | Hx : kwarg _ _ = Ok _ |- _ => apply kwarg_Ok in Hx
                     end;
              split; [split; [assumption | repeat constructor; eauto] |];
              try discriminate; intros _ v Hv; eexists;
              match goal with
              | Hx : _ !! "value" = Some _ |- _ =>
                  rewrite Hv in Hx; injection Hx as ->
              end; eassumption).
    all: intros [[Hsize Hall] Hfloat];
      repeat match goal with
             | Hx : Forall _ (_ :: _) |- _ =>
                 apply Forall_cons in Hx as [[? ?] Hx]
             end;
      try (edestruct Hfloat as [q Hq]; [reflexivity | eassumption |]);
      eexists; rewrite (proj2 (kwargs_arity_Ok _ _ tt) Hsize);
      cbn [mbind Exc_bind];
      repeat match goal with
             | Hx : _ !! _ = Some _ |- _ =>
                 rewrite (proj2 (kwarg_Ok _ _ _) Hx); clear Hx;
                 cbn [mbind Exc_bind]
             end;
      try (rewrite Hq; cbn [mbind Exc_bind]); reflexivity.
Qed.

(** *** When loading fails *)

Lemma for_each_Ok_Forall {A B} (f : A -> Exc B) l bs :
  for_each f l = Ok bs -> Forall (fun a => exists b, f a = Ok b) l.
Proof.
  revert bs. induction l as [|a rest IH]; cbn; intros bs Hrun; [constructor |].
  apply bind_Ok in Hrun as (b & Hb & Hrest).
  apply bind_Ok in Hrest as (bs' & Hbs & _).
  constructor; [eauto | by eapply IH].
Qed.

Lemma build_conditions_Ok_valid reg l cs :
  build_conditions reg l = Ok cs ->
  Forall (fun e => forall cls, reg !! entry_type e = Some cls ->
            exists c, build_condition cls (entry_params e) = Ok c) l.
Proof.
  revert cs. induction l as [|e rest IH]; cbn; intros cs Hrun; [constructor |].
  destruct (reg !! entry_type e) as [cls|] eqn:E.
  - apply bind_Ok in Hrun as (c & Hc & Hrest).
    apply bind_Ok in Hrest as (cs' & Hcs & _).
    constructor; [| by eapply IH]. intros cls' Hc'.
    rewrite E in Hc'. injection Hc' as <-. eauto.
  - constructor; [| by eapply IH]. intros cls' Hc'. rewrite E in Hc'.
    discriminate.
Qed.

Lemma build_actions_Ok_valid reg l acts :
  build_actions reg l = Ok acts ->
  Forall (fun e => forall cls, reg !! entry_type e = Some cls ->
            exists a, build_action cls (entry_params e) = Ok a) l.
Proof.
  revert acts. induction l as [|e rest IH]; cbn; intros cs Hrun; [constructor |].
  destruct (reg !! entry_type e) as [cls|] eqn:E.
  - apply bind_Ok in Hrun as (c & Hc & Hrest).
    apply bind_Ok in Hrest as (cs' & Hcs & _).
    constructor; [| by eapply IH]. intros cls' Hc'.
    rewrite E in Hc'. injection Hc' as <-. eauto.
  - constructor; [| by eapply IH]. intros cls' Hc'. rewrite E in Hc'.
    discriminate.
Qed.

Lemma build_frame_Ok_valid w fd f :
  build_frame w fd = Ok f ->
  Forall (fun o => exists obj, build_object w o = Ok obj)
         (default [] (f_objects fd))
  /\ Forall (valid_entries w) (default [] (f_events fd)).
Proof.
  unfold build_frame. intros Hrun.
  apply bind_Ok in Hrun as (objs & Hobjs & Hrest).
  apply bind_Ok in Hrest as (evts & Hevts & _).
  split; [by eapply for_each_Ok_Forall |].
  apply for_each_Ok_Forall in Hevts.
  eapply Forall_impl; [exact Hevts |]. cbn. intros evt [ev Hev].
  unfold build_event in Hev.
  apply bind_Ok in Hev as (cs & Hcs & Hrest).
  apply bind_Ok in Hrest as (acts & Hacts & _).
  split; [by eapply build_conditions_Ok_valid | by eapply build_actions_Ok_valid].
Qed.

Lemma load_frames_Ok_valid w0 l w w' :
  (forall fd, build_frame w fd = build_frame w0 fd) ->
  load_frames l w = Ok w' ->
  Forall (fun fd => exists f, build_frame w0 fd = Ok f) l.
Proof.
  revert w. induction l as [|fd rest IH]; intros w Hsame; cbn [load_frames];
    intros Hrun; [constructor |].
  apply bind_Ok in Hrun as (f & Hf & Hrest).
  constructor; [rewrite <- Hsame; eauto |].
  eapply IH; [| exact Hrest].
  intros fd'. rewrite build_frame_store_frame. apply Hsame.
Qed.

(** X9. [load_project] returns exactly when every object of the document
    can be constructed and every condition and action of a registered
    type can be built; otherwise it raises and the project is not
    loaded. *)
Theorem load_project_returns_iff_constructible (w : World) (data : ProjectData) :
  (exists w', load_project w data = Ok w') <-> rest_is_valid w data.
Proof.
  unfold load_project, rest_is_valid. split.
  - intros [w' Hload].
    apply (load_frames_Ok_valid w) in Hload; [| done].
    eapply Forall_impl; [exact Hload |]. cbn. intros fd [f Hf].
    by eapply build_frame_Ok_valid.
  - intros Hvalid. apply (load_frames_total w); [done |].
    eapply Forall_impl; [exact Hvalid |]. cbn.
    intros fd [Ho He]. by apply build_frame_total.
Qed.

(** *** Objects of unknown type *)

(** X10. [load_project] builds one object for every object of the
    document, in order; an object whose type the registry does not know
    is not skipped but built as a plain [EngineObject] with the
    document's name, position and size. *)
Theorem objects_are_never_skipped (w : World) (fd : FrameData) (f : Frame) :
  build_frame w fd = Ok f ->
  length (objects f) = length (default [] (f_objects fd))
  /\ forall i o_data t,
       default [] (f_objects fd) !! i = Some o_data ->
       o_type o_data = Some t -> registered_object_types w !! t = None ->
       exists o, objects f !! i = Some o /\ payload o = ActivePayload /\
                 name o = default "Obj" (o_name o_data) /\
                 rect o = mkRect (default 100 (o_x o_data))
                                 (default 100 (o_y o_data))
                                 (default 50 (o_w o_data))
                                 (default 50 (o_h o_data)).
Proof.
  unfold build_frame. intros Hrun.
  apply bind_Ok in Hrun as (objs & Hobjs & Hrest).
  apply bind_Ok in Hrest as (evts & Hevts & [= <-]). cbn.
  apply for_each_Ok in Hobjs. split.
  - symmetry. by eapply Forall2_length.
  - intros i o_data t Hi Ht Hreg.
    destruct (Forall2_lookup_l _ _ _ _ _ Hobjs Hi) as (o & Ho & Hb).
    exists o. split; [exact Ho |].
    unfold build_object in Hb. rewrite Ht in Hb. cbn in Hb.
    rewrite Hreg in Hb. cbn in Hb.
    apply bind_Ok in Hb as (c & _ & Hinit).
    unfold EngineObject_init, pygame_Surface in Hinit.
    destruct (_ || _); cbn in Hinit; [discriminate |].
    by injection Hinit as <-.
Qed.

(** *** The frame table *)

Lemma store_frame_consistent w f :
  (forall s a, frames w !! s = Some a ->
     exists f', heap w !! a = Some f' /\ frame_name_of f' = s) ->
  forall s a, frames (store_frame w f) !! s = Some a ->
    exists f', heap (store_frame w f) !! a = Some f' /\ frame_name_of f' = s.
Proof.
  intros Hc s a. cbn.
  destruct (decide (frame_name_of f = s)) as [<- | Hne].
  - rewrite lookup_insert_eq. intros [= <-]. exists f. split; [| done].
    by rewrite list_lookup_middle.
  - rewrite lookup_insert_ne by done. intros Hs.
    destruct (Hc s a Hs) as (f' & Hf' & Hn). exists f'. split; [| done].
    by apply lookup_app_l_Some.
Qed.

Lemma load_frames_consistent l w w' :
  (forall s a, frames w !! s = Some a ->
     exists f', heap w !! a = Some f' /\ frame_name_of f' = s) ->
  load_frames l w = Ok w' ->
  (forall s a, frames w' !! s = Some a ->
     exists f', heap w' !! a = Some f' /\ frame_name_of f' = s)
  /\ current_frame w' = current_frame w.
Proof.
  revert w. induction l as [|fd rest IH]; intros w Hc; cbn [load_frames].
  - by intros [= <-].
  - intros Hrun. apply bind_Ok in Hrun as (f & Hf & Hrest).
    apply IH in Hrest; [| by apply store_frame_consistent]. exact Hrest.
Qed.

Lemma change_frame_consistent w n :
  table_consistent w -> table_consistent (change_frame w n).
Proof.
  intros Hc. pose proof Hc as [Hc1 Hc2]. unfold change_frame.
  destruct n as [| | |s]; try done.
  destruct (frames w !! s) as [a|] eqn:E; [| done].
  split; [exact Hc1 |]. cbn. intros a' [= <-].
  destruct (Hc1 s a E) as (f & Hf & <-). eauto.
Qed.

Lemma update_current_consistent w w' :
  table_consistent w -> update_current w = Ok w' -> table_consistent w'.
Proof.
  intros Hc. pose proof Hc as [Hc1 Hc2]. unfold update_current.
  destruct (current_frame w) as [a|] eqn:C; [| by intros [= <-]].
  destruct (heap w !! a) as [fr|] eqn:Hfr; [| by intros [= <-]].
  intros Hrun. apply bind_Ok in Hrun as (m & Hm & [= <-]).
  apply Frame_update_shell in Hm as (_ & Hname & _). cbn in Hname.
  assert (Hheap : forall b f, heap w !! b = Some f ->
            exists f', <[a := self_frame m]> (heap w) !! b = Some f' /\
                       frame_name_of f' = frame_name_of f).
  { intros b f Hb. destruct (decide (a = b)) as [<- | Hne].
    - exists (self_frame m). split.
      + apply list_lookup_insert_eq. by eapply lookup_lt_Some.
      + rewrite Hfr in Hb. injection Hb as <-. exact Hname.
    - exists f. by rewrite list_lookup_insert_ne. }
  split; cbn.
  - intros s b Hs. destruct (Hc1 s b Hs) as (f & Hf & Hn).
    destruct (Hheap b f Hf) as (f' & Hf' & Hn'). exists f'. split; congruence.
  - intros b Hb. rewrite C in Hb. injection Hb as <-.
    destruct (Hc2 a eq_refl) as (f & Hf & Hreg).
    destruct (Hheap a f Hf) as (f' & Hf' & Hn'). exists f'.
    split; [exact Hf' | by rewrite Hn'].
Qed.

Lemma loop_body_consistent i w w' :
  table_consistent w -> loop_body i w = Ok w' -> table_consistent w'.
Proof.
  intros Hc. unfold loop_body. intros Hrun.
  apply bind_Ok in Hrun as (w3 & H3 & Hrun).
  apply bind_Ok in Hrun as (w4 & H4 & [= <-]).
  assert (Hj : table_consistent (jump_frames (pump_events i w))).
  { assert (Hp : table_consistent (pump_events i w))
      by (unfold pump_events; by destruct (quit_event i)).
    unfold jump_frames.
    destruct (ENGINE_CURRENT_FRAME _) as [p|]; [| done].
    destruct (current_frame (pump_events i w)) as [a|]; [| done].
    destruct (heap (pump_events i w) !! a) as [cur|]; [| done].
    destruct (_ && _); [| done].
    by apply (change_frame_consistent _ p) in Hp. }
  apply update_current_consistent in H3; [| exact Hj].
  apply draw_current_store in H4 as (Dh & Df & Dc & _).
  destruct H3 as [C1 C2]. split; cbn; rewrite ?Dh, ?Df, ?Dc; done.
Qed.

(** X11. In a new engine, and after any sequence of project loads into
    an engine with no active frame, frame changes and passes of the
    loop, every name of the frame table refers to a frame carrying that
    name, and the active frame is the frame the table has under its
    name. *)
Theorem frame_table_stays_consistent :
  (forall g scr, table_consistent (FusionCloneEngine_init g scr))
  /\ (forall w data w',
        table_consistent w -> current_frame w = None ->
        load_project w data = Ok w' ->
        table_consistent w' /\ current_frame w' = None)
  /\ (forall w n, table_consistent w -> table_consistent (change_frame w n))
  /\ (forall inputs w w',
        table_consistent w -> main_loop inputs w = Ok w' ->
        table_consistent w').
Proof.
  split; [| split; [| split]].
  - intros g scr. split; cbn; [| discriminate].
    intros s a Hs. by rewrite lookup_empty in Hs.
  - intros w data w' [Hc1 _] Hnone Hload. unfold load_project in Hload.
    destruct (load_frames_consistent _ _ _ Hc1 Hload) as [Hc1' Hcur].
    rewrite Hnone in Hcur. split; [| exact Hcur].
    split; [exact Hc1' |]. intros a Ha. congruence.
  - apply change_frame_consistent.
  - intros inputs. induction inputs as [|i rest IH]; intros w w' Hc; cbn.
    + by intros [= <-].
    + destruct (running w); [| by intros [= <-]].
      intros Hrun. apply bind_Ok in Hrun as (w1 & H1 & Hrest).
      eapply IH; [| exact Hrest]. by eapply loop_body_consistent.
Qed.

(** *** Frames of the same name *)

Lemma build_frame_name w fd f :
  build_frame w fd = Ok f -> frame_name_of f = name_of fd.
Proof.
  unfold build_frame. intros Hrun.
  apply bind_Ok in Hrun as (objs & _ & Hrest).
  apply bind_Ok in Hrest as (evts & _ & [= <-]). reflexivity.
Qed.

Lemma load_frames_heap_length l w w' :
  load_frames l w = Ok w' ->
  length (heap w') = (length (heap w) + length l)%nat.
Proof.
  revert w. induction l as [|fd rest IH]; intros w; cbn [load_frames].
  - intros [= <-]. cbn. lia.
  - intros Hrun. apply bind_Ok in Hrun as (f & _ & Hrest).
    apply IH in Hrest. cbn in Hrest. rewrite length_app in Hrest. cbn in *. lia.
Qed.

(** Loading more frames can only move a name to a later instance. *)
Lemma load_frames_moves_later l w w' s a :
  load_frames l w = Ok w' -> frames w !! s = Some a ->
  (a < length (heap w))%nat ->
  exists a', frames w' !! s = Some a' /\ (a <= a')%nat /\
             (a' < length (heap w'))%nat.
Proof.
  revert w a. induction l as [|fd rest IH]; intros w a; cbn [load_frames].
  - intros [= <-] Hs Hlt. eauto.
  - intros Hrun Hs Hlt. apply bind_Ok in Hrun as (f & _ & Hrest).
    destruct (decide (frame_name_of f = s)) as [<- | Hne].
    + destruct (IH (store_frame w f) (length (heap w)) Hrest)
        as (a' & Ha' & Hle & Hlt').
      * cbn. apply lookup_insert_eq.
      * cbn. rewrite length_app. cbn. lia.
      * exists a'. split; [exact Ha' |]. split; [lia | exact Hlt'].
    + destruct (IH (store_frame w f) a Hrest) as (a' & Ha' & Hle & Hlt').
      * cbn. by rewrite lookup_insert_ne.
      * cbn. rewrite length_app. cbn. lia.
      * eauto.
Qed.

Lemma load_frames_other_names l w w' s :
  load_frames l w = Ok w' ->
  Forall (fun fd => name_of fd <> s) l ->
  frames w' !! s = frames w !! s.
Proof.
  revert w. induction l as [|fd rest IH]; intros w; cbn [load_frames].
  - by intros [= <-].
  - intros Hrun Hall. apply Forall_cons in Hall as [Hne Hall].
    apply bind_Ok in Hrun as (f & Hf & Hrest).
    rewrite (IH _ Hrest Hall). cbn. apply lookup_insert_ne.
    apply build_frame_name in Hf. congruence.
Qed.

Lemma load_frames_entry_at_least l w w' j fd :
  load_frames l w = Ok w' -> l !! j = Some fd ->
  exists a, frames w' !! name_of fd = Some a /\
            (length (heap w) + j <= a)%nat.
Proof.
  revert w j. induction l as [|fd0 rest IH]; intros w j; cbn [load_frames];
    [discriminate |].
  intros Hrun Hj. apply bind_Ok in Hrun as (f & Hf & Hrest).
  apply build_frame_name in Hf.
  destruct j as [|j]; cbn in Hj.
  - injection Hj as ->.
    destruct (load_frames_moves_later _ _ _ (name_of fd) (length (heap w)) Hrest)
      as (a & Ha & Hle & _).
    + cbn. rewrite Hf. apply lookup_insert_eq.
    + cbn. rewrite length_app. cbn. lia.
    + exists a. split; [exact Ha | lia].
  - destruct (IH _ _ Hrest Hj) as (a & Ha & Hle). exists a.
    split; [exact Ha |]. cbn in Hle. rewrite length_app in Hle. cbn in Hle. lia.
Qed.

Lemma load_frames_last_entry l1 fd l2 w w' :
  load_frames (l1 ++ fd :: l2) w = Ok w' ->
  Forall (fun fd' => name_of fd' <> name_of fd) l2 ->
  frames w' !! name_of fd = Some (length (heap w) + length l1)%nat.
Proof.
  revert w. induction l1 as [|x l1 IH]; intros w; cbn [app load_frames].
  - intros Hrun Hall. apply bind_Ok in Hrun as (f & Hf & Hrest).
    rewrite (load_frames_other_names _ _ _ _ Hrest Hall). cbn.
    apply build_frame_name in Hf. rewrite Hf, lookup_insert_eq.
    f_equal. lia.
  - intros Hrun Hall. apply bind_Ok in Hrun as (f & Hf & Hrest).
    rewrite (IH _ Hrest Hall). cbn. rewrite length_app. cbn. f_equal. lia.
Qed.

(** X12. Every frame of the document is built and kept, in the order of
    the document, but the frame table has room for one frame per name:
    a frame is the one found under its name exactly when no later frame
    of the document has the same name. *)
Theorem last_frame_of_a_name_wins (w : World) (data : ProjectData) (w' : World) :
  load_project w data = Ok w' ->
  forall i fd, default [] (frames_data data) !! i = Some fd ->
    (exists f, heap w' !! (length (heap w) + i)%nat = Some f /\
               frame_name_of f = name_of fd)
    /\ (frames w' !! name_of fd = Some (length (heap w) + i)%nat <->
        forall j fd', (i < j)%nat ->
          default [] (frames_data data) !! j = Some fd' ->
          name_of fd' <> name_of fd).
Proof.
  unfold load_project. intros Hload i fd Hi. split.
  - destruct (load_frames_built w _ w w' (fun _ => eq_refl) Hload)
      as (fs & Hheap & Hall & _).
    destruct (Forall2_lookup_l _ _ _ _ _ Hall Hi) as (f & Hf & Hb).
    exists f. split; [| by destruct Hb as [-> _]].
    rewrite Hheap, lookup_app_r by lia.
    by replace (length (heap w) + i - length (heap w))%nat with i by lia.
  - split.
    + intros Htab j fd' Hlt Hj Heq.
      destruct (load_frames_entry_at_least _ _ _ _ _ Hload Hj)
        as (a & Ha & Hle).
      rewrite Heq, Htab in Ha. injection Ha as <-. lia.
    + intros Hlast.
      pose proof (take_drop_middle _ _ _ Hi) as Hsplit.
      rewrite <- Hsplit in Hload.
      rewrite (load_frames_last_entry _ _ _ _ _ Hload).
      * f_equal. rewrite length_take. apply lookup_lt_Some in Hi. lia.
      * apply Forall_lookup. intros k fd' Hk.
        rewrite lookup_drop in Hk. apply (Hlast (S i + k)%nat); [lia | exact Hk].
Qed.

(** *** The loop *)

Lemma loop_body_running i w w' :
  loop_body i w = Ok w' ->
  running w' = if quit_event i then false else running w.
Proof.
  unfold loop_body. intros Hrun.
  apply bind_Ok in Hrun as (w3 & H3 & Hrun).
  apply bind_Ok in Hrun as (w4 & H4 & [= <-]).
  apply update_current_store in H3 as (_ & _ & Hr & _).
  apply draw_current_store in H4 as (_ & _ & _ & Dr & _).
  destruct (jump_frames_store (pump_events i w)) as (_ & _ & _ & Jr).
  cbn. rewrite Dr, Hr, Jr. unfold pump_events. by destruct (quit_event i).
Qed.

(** A background the screen rejects makes the pass raise at the draw. *)
Lemma loop_body_Raise i w a fr e :
  current_frame (jump_frames (pump_events i w)) = Some a ->
  heap w !! a = Some fr -> surface_fill (bg_color fr) = Raise e ->
  loop_body i w = Raise e.
Proof.
  intros Hc Hfr He. unfold loop_body.
  destruct (update_current_total (jump_frames (pump_events i w))) as [w3 H3].
  rewrite H3. cbn.
  pose proof (update_current_backgrounds _ _ H3) as Hbg.
  apply update_current_store in H3 as (Hc3 & _).
  destruct (jump_frames_store (pump_events i w)) as (Jh & _).
  destruct (pump_events_frames i w) as (Ph & _).
  rewrite Jh, Ph in Hbg.
  assert (Hl : (bg_color <$> heap w3) !! a = Some (bg_color fr))
    by (by rewrite Hbg, list_lookup_fmap, Hfr).
  rewrite list_lookup_fmap in Hl.
  destruct (heap w3 !! a) as [fr3|] eqn:H3a; [| discriminate].
  injection Hl as Hl.
  rewrite (draw_current_Raise w3 fr3 e); [reflexivity | |].
  - by rewrite Hc3, Hc; cbn.
  - by rewrite Hl.
Qed.

(** X13. The pass of the loop that receives [QUIT] still runs to its
    end: the frame is updated and drawn. It is the last pass: whatever
    the platform delivers afterwards is not looked at. Without [QUIT]
    the engine stays running. This is so when the screen accepts the
    backgrounds of the frames; when it rejects the background of the
    frame to draw, the pass raises at the draw and the loop ends with
    the exception. *)
Theorem quit_ends_the_loop_after_the_pass (i : TickInput)
    (rest : list TickInput) (w : World) :
  running w = true ->
  (backgrounds_accepted w ->
   exists w1, loop_body i w = Ok w1 /\
     running w1 = negb (quit_event i) /\
     current_frame w1 = current_frame (jump_frames (pump_events i w)) /\
     display w1 = match current_frame w1 ≫= (heap w1 !!.) with
                  | Some fr => Some (Frame_picture fr)
                  | None => screen w
                  end /\
     (quit_event i = true -> main_loop (i :: rest) w = Ok w1) /\
     (quit_event i = false -> main_loop (i :: rest) w = main_loop rest w1))
  /\ (forall a fr e,
        current_frame (jump_frames (pump_events i w)) = Some a ->
        heap w !! a = Some fr -> surface_fill (bg_color fr) = Raise e ->
        loop_body i w = Raise e /\ main_loop (i :: rest) w = Raise e).
Proof.
  intros R. split.
  - intros Hacc. destruct (loop_body_total i w Hacc) as [w1 H1]. exists w1.
    pose proof (loop_body_running _ _ _ H1) as Hr. rewrite R in Hr.
    pose proof (loop_body_store _ _ _ H1) as (Hc & _ & _ & _ & _ & Hd).
    split; [exact H1 |]. split; [by destruct (quit_event i) |].
    split; [exact Hc |]. split; [exact Hd |].
    rewrite (main_loop_step _ _ _ _ R H1). split; intros Hq; [| reflexivity].
    rewrite Hq in Hr. destruct rest; cbn; by rewrite ?Hr.
  - intros a fr e Hc Hfr He.
    pose proof (loop_body_Raise _ _ _ _ _ Hc Hfr He) as Hb.
    split; [exact Hb |]. cbn. by rewrite R, Hb.
Qed.

(** X14. An engine without an active frame stays without one: the loop
    never looks at [ENGINE_CURRENT_FRAME], updates and draws nothing,
    and leaves the frames, the table and the global as they are. *)
Theorem no_active_frame_no_progress (inputs : list TickInput) (w : World) :
  current_frame w = None ->
  exists w', main_loop inputs w = Ok w' /\
    current_frame w' = None /\ heap w' = heap w /\ frames w' = frames w /\
    ENGINE_CURRENT_FRAME (module_globals w')
    = ENGINE_CURRENT_FRAME (module_globals w) /\
    screen w' = screen w.
Proof.
  revert w. induction inputs as [|i rest IH]; intros w Hnone; cbn.
  - exists w. done.
  - destruct (running w); [| exists w; done].
    assert (Hbody : exists w1, loop_body i w = Ok w1 /\
              current_frame w1 = None /\ heap w1 = heap w /\
              frames w1 = frames w /\
              ENGINE_CURRENT_FRAME (module_globals w1)
              = ENGINE_CURRENT_FRAME (module_globals w) /\
              screen w1 = screen w).
    { destruct (pump_events_frames i w) as (Ph & Pf & Pc & Pp).
      assert (Hj : jump_frames (pump_events i w) = pump_events i w).
      { unfold jump_frames. rewrite Pc, Hnone.
        by destruct (ENGINE_CURRENT_FRAME _). }
      unfold loop_body. rewrite Hj. unfold update_current.
      rewrite Pc, Hnone. cbn. unfold draw_current. rewrite Pc, Hnone. cbn.
      eexists. split; [reflexivity |].
      unfold flip. cbn.
      unfold pump_events. destruct (quit_event i); cbn; rewrite ?Hnone; done. }
    destruct Hbody as (w1 & H1 & C1 & Hh & Hf & Hp & Hs). rewrite H1. cbn.
    destruct (IH w1 C1) as (w' & Hrun & ? & ? & ? & ? & ?).
    exists w'. split; [exact Hrun |]. repeat split; congruence.
Qed.

(** *** Starting a game from the editor *)

Lemma load_into_new_engine g scr data w0 :
  load_project (FusionCloneEngine_init g scr) data = Ok w0 ->
  table_consistent w0 /\ current_frame w0 = None /\
  (forall fd, fd ∈ default [] (frames_data data) ->
              is_Some (frames w0 !! name_of fd)) /\
  (forall s, Forall (fun fd => name_of fd <> s) (default [] (frames_data data)) ->
             frames w0 !! s = None).
Proof.
  unfold load_project. intros Hload.
  assert (Hinit : forall s a,
            frames (FusionCloneEngine_init g scr) !! s = Some a ->
            exists f', heap (FusionCloneEngine_init g scr) !! a = Some f' /\
                       frame_name_of f' = s).
  { intros s a Hs. cbn in Hs. by rewrite lookup_empty in Hs. }
  destruct (load_frames_consistent _ _ _ Hinit Hload) as [Hc1 Hcur].
  cbn in Hcur.
  split; [split; [exact Hc1 | intros a Ha; congruence] |].
  split; [exact Hcur |]. split.
  - destruct (load_frames_built (FusionCloneEngine_init g scr) _ _ _
                (fun _ => eq_refl) Hload) as (_ & _ & _ & _ & Hnew).
    intros fd Hfd. rewrite Forall_forall in Hnew. by apply Hnew.
  - intros s Hall. rewrite (load_frames_other_names _ _ _ _ Hload Hall).
    cbn. apply lookup_empty.
Qed.

(** X15. [run_game] starts the game on the frame selected in the frame
    list, or on the first frame of the project when none is selected:
    if the project loads and that name is not empty, the frame found
    under it is active when the loop begins. A selected name that is
    empty or is no frame of the project leaves the engine without an
    active frame. *)
Theorem start_engine_activates_the_start_frame (selected : option string)
    (data : ProjectData) (g : Globals) (scr : option Picture) (eng : World) :
  start_engine selected data g scr = Ok eng ->
  table_consistent eng
  /\ (forall s,
        selected = Some s \/
        (selected = None /\
         exists fd rest, frames_data data = Some (fd :: rest) /\
                         f_name fd = Some s) ->
        s <> "" ->
        (exists fd, fd ∈ default [] (frames_data data) /\ name_of fd = s) ->
        exists a f, current_frame eng = Some a /\ frames eng !! s = Some a /\
                    heap eng !! a = Some f /\ frame_name_of f = s)
  /\ (forall s, selected = Some s ->
        s = "" \/
        Forall (fun fd => name_of fd <> s) (default [] (frames_data data)) ->
        current_frame eng = None).
Proof.
  unfold start_engine. intros Hrun.
  apply bind_Ok in Hrun as (start & Hstart & Hrest).
  apply bind_Ok in Hrest as (w0 & Hload & [= <-]).
  apply load_into_new_engine in Hload as (Hc & Hnone & Hknown & Hunknown).
  assert (Hact : forall s, s <> "" ->
            (exists fd, fd ∈ default [] (frames_data data) /\ name_of fd = s) ->
            exists a f, current_frame (change_frame w0 (PStr s)) = Some a /\
              frames (change_frame w0 (PStr s)) !! s = Some a /\
              heap (change_frame w0 (PStr s)) !! a = Some f /\
              frame_name_of f = s).
  { intros s _ (fd & Hfd & <-). destruct (Hknown fd Hfd) as [a Ha].
    destruct (proj1 Hc _ _ Ha) as (f & Hf & Hn).
    exists a, f. cbn. rewrite Ha. done. }
  split; [| split].
  - destruct start as [s|]; [| exact Hc].
    destruct (negb (String.eqb s "")); [| exact Hc].
    exact (change_frame_consistent w0 (PStr s) Hc).
  - intros s Hsel Hne Hin.
    assert (start = Some s) as ->.
    { destruct Hsel as [-> | (-> & fd & rest & Hfs & Hname)].
      - by injection Hstart as <-.
      - rewrite Hfs, Hname in Hstart. by injection Hstart as <-. }
    assert (String.eqb s "" = false) as -> by by apply String.eqb_neq.
    cbn [negb]. by apply Hact.
  - intros s -> Hbad. injection Hstart as <-.
    destruct Hbad as [-> | Hall]; [exact Hnone |].
    destruct (negb (String.eqb s "")); [| exact Hnone].
    cbn. by rewrite (Hunknown s Hall).
Qed.

(** *** What the editor hands to the engine *)

Lemma on_ok_params t fields entries :
  entry_type (on_ok t fields entries) = t /\
  entry_params (on_ok t fields entries)
  = list_to_map ((fun k => (k, PStr (entries k))) <$> fields).
Proof. done. Qed.

(** X16. Every condition and action the editor's dialog can produce is
    of a type the engine has registered, and its fields are the
    parameters of that class: the engine builds it from the texts
    entered. The only texts that make the build raise are a [value]
    that is not empty and that [float] rejects. *)
Theorem editor_entries_are_built (g : Globals) (scr : option Picture)
    (entries : string -> string) :
  (forall t, t ∈ CONDITION_TYPES ->
     exists cls,
       registered_conditions (FusionCloneEngine_init g scr) !! t = Some cls /\
       condition_fields t = condition_parameters cls /\
       build_condition cls (entry_params (on_ok t (condition_fields t) entries))
       = match cls with
         | KeyPressed_cls => Ok (KeyPressed (PStr (entries "key")))
         | ObjectCollision_cls =>
             Ok (ObjectCollision (PStr (entries "obj_a"))
                                 (PStr (entries "obj_b")))
         | CompareCounter_cls =>
             val ← float_or_zero (PStr (entries "value"));
             Ok (CompareCounter (PStr (entries "counter_name"))
                                (PStr (entries "operator")) val)
         end)
  /\ (forall t, t ∈ ACTION_TYPES ->
        exists cls,
          registered_actions (FusionCloneEngine_init g scr) !! t = Some cls /\
          action_fields t = action_parameters cls /\
          build_action cls (entry_params (on_ok t (action_fields t) entries))
          = match cls with
            | ChangeObjectColor_cls =>
                Ok (ChangeObjectColor (PStr (entries "obj_name"))
                                      (PStr (entries "color_str")))
            | DestroyObject_cls => Ok (DestroyObject (PStr (entries "obj_name")))
            | GoToFrame_cls => Ok (GoToFrame (PStr (entries "frame_name")))
            | SetCounterValue_cls =>
                val ← float_or_zero (PStr (entries "value"));
                Ok (SetCounterValue (PStr (entries "counter_name")) val)
            end).
Proof.
  split; intros t Ht.
  - unfold CONDITION_TYPES in Ht.
    repeat (apply elem_of_cons in Ht as [-> | Ht]);
      [| | | by apply elem_of_nil in Ht];
      eexists; (split; [vm_compute; reflexivity |]);
      (split; [reflexivity |]); reflexivity.
  - unfold ACTION_TYPES in Ht.
    repeat (apply elem_of_cons in Ht as [-> | Ht]);
      [| | | | by apply elem_of_nil in Ht];
      eexists; (split; [vm_compute; reflexivity |]);
      (split; [reflexivity |]); reflexivity.
Qed.

(** *** The editor's lookup of a frame *)

Lemma find_frame_Some l fname fd :
  find_frame l fname = Ok (Some fd) <->
  exists i, l !! i = Some fd /\ f_name fd = Some fname /\
    forall j fd', (j < i)%nat -> l !! j = Some fd' ->
      exists n, f_name fd' = Some n /\ n <> fname.
Proof.
  induction l as [|f rest IH]; cbn [find_frame].
  - split; [discriminate |]. intros (i & Hi & _). by destruct i.
  - destruct (f_name f) as [n|] eqn:Hn.
    + destruct (String.eqb n fname) eqn:Heq.
      * apply String.eqb_eq in Heq as ->. split.
        -- intros [= <-]. exists 0%nat. split; [done |]. split; [done |].
           intros j fd' Hj. lia.
        -- intros (i & Hi & Hf & Hfirst). destruct i as [|i].
           ++ cbn in Hi. by injection Hi as ->.
           ++ destruct (Hfirst 0%nat f) as (n' & Hn' & Hne); [lia | done |].
              congruence.
      * apply String.eqb_neq in Heq. rewrite IH. split.
        -- intros (i & Hi & Hf & Hfirst). exists (S i). split; [done |].
           split; [done |]. intros [|j] fd' Hj Hfd'.
           ++ cbn in Hfd'. injection Hfd' as <-. eauto.
           ++ apply (Hfirst j); [lia | done].
        -- intros (i & Hi & Hf & Hfirst). destruct i as [|i].
           ++ cbn in Hi. injection Hi as ->. congruence.
           ++ exists i. split; [done |]. split; [done |].
              intros j fd' Hj Hfd'. apply (Hfirst (S j)); [lia | done].
    + split; [discriminate |]. intros (i & Hi & Hf & Hfirst).
      destruct i as [|i].
      * cbn in Hi. injection Hi as ->. congruence.
      * destruct (Hfirst 0%nat f) as (n' & Hn' & _); [lia | done |]. congruence.
Qed.

Lemma find_frame_None l fname :
  find_frame l fname = Ok None <->
  Forall (fun fd => exists n, f_name fd = Some n /\ n <> fname) l.
Proof.
  induction l as [|f rest IH]; cbn [find_frame].
  - split; [constructor | done].
  - rewrite Forall_cons. destruct (f_name f) as [n|] eqn:Hn.
    + destruct (String.eqb n fname) eqn:Heq.
      * apply String.eqb_eq in Heq as ->. split; [discriminate |].
        intros [(n' & [= <-] & Hne) _]. done.
      * apply String.eqb_neq in Heq. rewrite IH. split; [| tauto].
        intros Hall. split; [eauto | done].
    + split; [discriminate |]. intros [(n' & Hn' & _) _]. discriminate.
Qed.

(** X24. [find_frame_data] returns the first frame of the project that
    carries the name, and [None] exactly when no frame does. The engine
    keeps the last frame of a name: the frame the editor shows under a
    name is the frame the game runs under it exactly when no later
    frame of the project has the same name. *)
Theorem find_frame_data_finds_the_first (data : ProjectData)
    (l : list FrameData) (fname : string) :
  frames_data data = Some l ->
  (forall fd, find_frame_data data fname = Ok (Some fd) <->
     exists i, l !! i = Some fd /\ f_name fd = Some fname /\
       forall j fd', (j < i)%nat -> l !! j = Some fd' ->
         exists n, f_name fd' = Some n /\ n <> fname)
  /\ (find_frame_data data fname = Ok None <->
      Forall (fun fd => exists n, f_name fd = Some n /\ n <> fname) l)
  /\ (forall w w' fd,
        load_project w data = Ok w' ->
        find_frame_data data fname = Ok (Some fd) ->
        exists i a, l !! i = Some fd /\ frames w' !! fname = Some a /\
          (length (heap w) + i <= a)%nat /\
          (a = (length (heap w) + i)%nat <->
           forall j fd', (i < j)%nat -> l !! j = Some fd' ->
                         name_of fd' <> fname)).
Proof.
  intros Hl. unfold find_frame_data. rewrite Hl.
  split; [intros fd; apply find_frame_Some |].
  split; [apply find_frame_None |].
  intros w w' fd Hload Hfind.
  apply find_frame_Some in Hfind as (i & Hi & Hf & _).
  unfold load_project in Hload. rewrite Hl in Hload. cbn in Hload.
  assert (Hname : name_of fd = fname) by (unfold name_of; by rewrite Hf).
  destruct (load_frames_entry_at_least _ _ _ _ _ Hload Hi) as (a & Ha & Hle).
  rewrite Hname in Ha. exists i, a. split; [done |]. split; [done |].
  split; [done |]. split.
  - intros -> j fd' Hlt Hj Heq.
    destruct (load_frames_entry_at_least _ _ _ _ _ Hload Hj) as (a' & Ha' & Hle').
    rewrite Heq, Ha in Ha'. injection Ha' as <-. lia.
  - intros Hlast.
    pose proof (take_drop_middle _ _ _ Hi) as Hsplit.
    rewrite <- Hsplit in Hload.
    pose proof (load_frames_last_entry _ _ _ _ _ Hload) as Hent.
    rewrite Hname in Hent. rewrite Hent in Ha.
    + injection Ha as <-. rewrite length_take. apply lookup_lt_Some in Hi. lia.
    + apply Forall_lookup. intros k fd' Hk.
      rewrite lookup_drop in Hk. apply (Hlast (S i + k)%nat); [lia | exact Hk].
Qed.

(** *** Frame requests within a tick *)

Lemma execute_request a m m' :
  execute a m = Ok m' ->
  ENGINE_CURRENT_FRAME (globals m')
  = match a with
    | GoToFrame n => Some n
    | _ => ENGINE_CURRENT_FRAME (globals m)
    end.
Proof.
  intros Hex.
  destruct a as [k c|k|k|k v]; cbn in Hex;
    unfold ChangeObjectColor_execute, DestroyObject_execute,
      GoToFrame_execute, SetCounterValue_execute, try_except in Hex;
    try destruct (py_eval_color c) eqn:?; cbn in Hex;
    repeat (match type of Hex with
            | context [match ?x with _ => _ end] => destruct x eqn:?
            end; cbn in Hex);
    injection Hex as <-; cbn; done.
Qed.

Lemma run_actions_request acts m m' :
  run_actions acts m = Ok m' ->
  ENGINE_CURRENT_FRAME (globals m')
  = last_request acts (ENGINE_CURRENT_FRAME (globals m)).
Proof.
  revert m. induction acts as [|a rest IH]; intros m; cbn.
  - by intros [= <-].
  - intros Hrun. apply bind_Ok in Hrun as (m1 & H1 & Hrest).
    rewrite (IH _ Hrest). apply execute_request in H1. rewrite H1.
    by destruct a.
Qed.

Lemma last_request_cases acts before :
  last_request acts before = before
  \/ exists n, GoToFrame n ∈ acts /\ last_request acts before = Some n.
Proof.
  revert before. induction acts as [|a rest IH]; intros before; cbn.
  - by left.
  - destruct (IH (match a with GoToFrame n => Some n | _ => before end))
      as [E | (n & Hn & E)].
    + unfold last_request in E. rewrite E. destruct a; try by left.
      right. eexists. split; [apply list_elem_of_here | done].
    + right. exists n. split; [by apply list_elem_of_further | exact E].
Qed.

Lemma run_events_request evs m m' :
  run_events evs m = Ok m' ->
  ENGINE_CURRENT_FRAME (globals m') = ENGINE_CURRENT_FRAME (globals m)
  \/ exists e n, e ∈ evs /\ GoToFrame n ∈ actions e /\
       ENGINE_CURRENT_FRAME (globals m') = Some n.
Proof.
  revert m. induction evs as [|e rest IH]; intros m; cbn.
  - intros [= <-]. by left.
  - intros Hrun. apply bind_Ok in Hrun as (m1 & H1 & Hrest).
    destruct (IH _ Hrest) as [E | (e' & n & He' & Hn & E)].
    + unfold Event_run in H1. apply bind_Ok in H1 as ([] & _ & H1).
      * apply run_actions_request in H1.
        destruct (last_request_cases (actions e)
                    (ENGINE_CURRENT_FRAME (globals m))) as [E' | (n & Hn & E')].
        -- left. congruence.
        -- right. exists e, n. split; [apply list_elem_of_here |].
           split; [done | congruence].
      * injection H1 as <-. by left.
    + right. exists e', n. split; [by apply list_elem_of_further | done].
Qed.

(** X25. The actions of an event leave in [ENGINE_CURRENT_FRAME] the
    name of the last [GoToFrame] among them: an earlier request of the
    same tick is overwritten, not queued, and the actions after a
    [GoToFrame] still run. After a tick the pending name is what it was
    or the name of a [GoToFrame] of an event of the frame. *)
Theorem last_GoToFrame_wins (m m' : Machine) :
  (forall acts, run_actions acts m = Ok m' ->
     ENGINE_CURRENT_FRAME (globals m')
     = last_request acts (ENGINE_CURRENT_FRAME (globals m)))
  /\ (forall acts n rest m1,
        run_actions (acts ++ [GoToFrame n]) m = Ok m1 ->
        run_actions (acts ++ GoToFrame n :: rest) m = run_actions rest m1 /\
        ENGINE_CURRENT_FRAME (globals m1) = Some n)
  /\ (Frame_update m = Ok m' ->
      ENGINE_CURRENT_FRAME (globals m') = ENGINE_CURRENT_FRAME (globals m)
      \/ exists e n, e ∈ events (self_frame m) /\ GoToFrame n ∈ actions e /\
           ENGINE_CURRENT_FRAME (globals m') = Some n).
Proof.
  split; [| split].
  - intros acts. apply run_actions_request.
  - intros acts n rest m1 Hrun. split.
    + change (GoToFrame n :: rest) with ([GoToFrame n] ++ rest).
      rewrite app_assoc, run_actions_app, Hrun. reflexivity.
    + apply run_actions_request in Hrun. rewrite Hrun.
      unfold last_request. by rewrite foldl_app.
  - unfold Frame_update. intros Hrun.
    by apply run_events_request in Hrun.
Qed.

End Facts.
End MultimediaMore.

(** * Further properties of [enginev0.py] and of the loop of [CatFusion1.0.py] *)

Module EngineV0More.
Import EngineV0 EditorV0 Vocabulary.
Import MultimediaFacts EngineV0Facts.

Section Facts.
Context `{Host}.

(** *** Loading *)





(** X18. Every condition and action the dialog of [enginev0.py] can
    produce is understood by its [load_project], which takes every
    parameter from the text entered: no default is used. *)
Theorem v0_editor_entries_are_understood (entries : string -> string) :
  (forall t, t ∈ CONDITION_TYPES ->
     build_condition (on_ok t (condition_template t) entries)
     = if String.eqb t "KeyPressed"
       then Some (KeyPressed (PStr (entries "key")))
       else Some (ObjectCollision (PStr (entries "obj_name_a"))
                                  (PStr (entries "obj_name_b"))))
  /\ (forall t, t ∈ ACTION_TYPES ->
        build_action (on_ok t (action_template t) entries)
        = if String.eqb t "ChangeObjectColor"
          then Some (ChangeObjectColor (PStr (entries "obj_name"))
                                       (PStr (entries "color")))
          else if String.eqb t "DestroyObject"
          then Some (DestroyObject (PStr (entries "obj_name")))
          else Some (GoToFrame (PStr (entries "frame_name")))).
Proof.
  split; intros t Ht.
  - unfold CONDITION_TYPES in Ht.
    repeat (apply elem_of_cons in Ht as [-> | Ht]);
      [| | by apply elem_of_nil in Ht]; reflexivity.
  - unfold ACTION_TYPES in Ht.
    repeat (apply elem_of_cons in Ht as [-> | Ht]);
      [| | | by apply elem_of_nil in Ht]; reflexivity.
Qed.

(** *** The frame the game starts on *)

Lemma dict_get_set_eq d k v : dict_get (dict_set d k v) k = Some v.
Proof.
  induction d as [|[k' v'] rest IH]; cbn.
  - by rewrite String.eqb_refl.
  - destruct (String.eqb k' k) eqn:E; cbn; rewrite E; [reflexivity | exact IH].
Qed.

Lemma dict_get_set_ne d k k' v :
  k <> k' -> dict_get (dict_set d k v) k' = dict_get d k'.
Proof.
  intros Hne. induction d as [|[k0 v0] rest IH]; cbn.
  - by rewrite (proj2 (String.eqb_neq _ _) Hne).
  - destruct (String.eqb k0 k) eqn:E; cbn.
    + apply String.eqb_eq in E as ->.
      by rewrite (proj2 (String.eqb_neq _ _) Hne).
    + by rewrite IH.
Qed.

(** Assigning to a key never changes which key comes first. *)
Lemma dict_set_first d k0 v0 rest k v :
  d = (k0, v0) :: rest ->
  exists v1 rest', dict_set d k v = (k0, v1) :: rest'.
Proof. intros ->. cbn. destruct (String.eqb k0 k); eauto. Qed.

Lemma v0_build_frame_name fd f :
  build_frame fd = Ok f -> frame_name_of f = default "Untitled" (f_name fd).
Proof.
  unfold build_frame. intros Hrun.
  by apply bind_Ok in Hrun as (objs & _ & [= <-]).
Qed.

Lemma v0_load_frames_table l w w' :
  (forall s a, dict_get (frames w) s = Some a ->
     exists f, heap w !! a = Some f /\ frame_name_of f = s) ->
  load_frames l w = Ok w' ->
  (forall s a, dict_get (frames w') s = Some a ->
     exists f, heap w' !! a = Some f /\ frame_name_of f = s)
  /\ current_frame w' = current_frame w
  /\ (forall k0 v0 rest, frames w = (k0, v0) :: rest ->
        exists v1 rest', frames w' = (k0, v1) :: rest').
Proof.
  revert w. induction l as [|fd rest IH]; intros w Hc; cbn [load_frames].
  - intros [= <-]. split; [exact Hc |]. split; [reflexivity | eauto].
  - intros Hrun. apply bind_Ok in Hrun as (f & Hf & Hrest).
    apply IH in Hrest as (Hc' & Hcur & Hfirst).
    + split; [exact Hc' |]. split; [exact Hcur |].
      intros k0 v0 r Hw.
      destruct (dict_set_first _ _ _ _ (frame_name_of f) (length (heap w)) Hw)
        as (v1 & r' & Hset).
      by eapply Hfirst.
    + cbn. intros s a.
      destruct (decide (frame_name_of f = s)) as [<- | Hne].
      * rewrite dict_get_set_eq. intros [= <-]. exists f.
        by rewrite list_lookup_middle.
      * rewrite dict_get_set_ne by done. intros Hs.
        destruct (Hc s a Hs) as (f' & Hf' & Hn). exists f'.
        split; [by apply lookup_app_l_Some | done].
Qed.

(** X19. When no frame was activated before [main_loop], the loop of
    [enginev0.py] starts on the frame found under the name of the first
    frame of the project; with an empty project it starts without an
    active frame. *)
Theorem v0_main_loop_starts_on_the_first_frame (g : Globals)
    (scr : option Picture) (data : ProjectData) (w : World)
    (inputs : list TickInput) :
  load_project (FusionCloneEngine_init g scr) data = Ok w ->
  (forall fd rest, frames_data data = Some (fd :: rest) ->
     exists a f,
       main_loop inputs w = loop inputs (set_current_frame w (Some a)) /\
       dict_get (frames w) (default "Untitled" (f_name fd)) = Some a /\
       heap w !! a = Some f /\
       frame_name_of f = default "Untitled" (f_name fd))
  /\ (default [] (frames_data data) = [] ->
      w = FusionCloneEngine_init g scr /\ main_loop inputs w = loop inputs w).
Proof.
  unfold load_project. intros Hload. split.
  - intros fd rest Hfs. rewrite Hfs in Hload. cbn [default from_option id] in Hload.
    cbn [load_frames] in Hload.
    apply bind_Ok in Hload as (f & Hf & Hrest).
    apply v0_build_frame_name in Hf.
    apply v0_load_frames_table in Hrest as (Hc & Hcur & Hfirst).
    + cbn in Hcur.
      destruct (Hfirst (frame_name_of f) 0%nat [] eq_refl) as (a & r' & Hw).
      assert (Hget : dict_get (frames w) (frame_name_of f) = Some a)
        by (rewrite Hw; cbn; by rewrite String.eqb_refl).
      destruct (Hc _ _ Hget) as (f' & Hf' & Hn').
      exists a, f'. rewrite <- Hf. split; [| done].
      assert (Hm : main_loop inputs w
                   = loop inputs (change_frame w (PStr (frame_name_of f))))
        by (unfold main_loop; by rewrite Hcur, Hw).
      rewrite Hm. unfold change_frame. by rewrite Hget.
    + cbn. intros s a.
      destruct (String.eqb (frame_name_of f) s) eqn:E; [| discriminate].
      apply String.eqb_eq in E as <-. intros [= <-]. by exists f.
  - intros Hnil. rewrite Hnil in Hload. injection Hload as <-.
    split; reflexivity.
Qed.

(** X20. [enginev0.py] applies a pending frame name also when no frame
    is active: the pass activates the frame found under the name. A
    name that is not in the table is dropped and the engine stays
    without an active frame. The pass returns when the screen accepts
    the backgrounds of the frames; when it rejects the background of
    the frame found, the pass raises at the draw. *)
Theorem v0_request_is_applied_without_active_frame (i : TickInput) (w : World)
    (s : string) :
  current_frame w = None ->
  ENGINE_CURRENT_FRAME (module_globals w) = Some (PStr s) ->
  (screen_accepts w ->
   exists w', loop_body i w = Ok w' /\
     current_frame w' = dict_get (frames w) s /\
     frames w' = frames w /\
     (dict_get (frames w) s = None ->
      ENGINE_CURRENT_FRAME (module_globals w') = None /\ heap w' = heap w))
  /\ (forall a fr e,
        dict_get (frames w) s = Some a -> heap w !! a = Some fr ->
        surface_fill (bg_color fr) = Raise e -> loop_body i w = Raise e).
Proof.
  intros Hnone Hp. split.
  - intros Hacc. destruct (v0_loop_body_total i w Hacc) as [w' Hw'].
    exists w'. split; [exact Hw' |].
    unfold loop_body, pending_name in Hw'. cbn in Hw'.
    rewrite Hp, Hnone in Hw'. cbn in Hw'.
    destruct (dict_get (frames w) s) as [a|] eqn:E; cbn in Hw'.
    + destruct (heap w !! a) as [fr|]; cbn in Hw'.
      * apply bind_Ok in Hw' as (m & _ & Hw').
        apply bind_Ok in Hw' as (u & _ & [= <-]). cbn. done.
      * injection Hw' as <-. cbn. done.
    + rewrite ?Hnone in Hw'. injection Hw' as <-. cbn. done.
  - intros a fr e Ha Hfr He.
    unfold loop_body, pending_name. cbn. rewrite Hp, Hnone. cbn.
    rewrite Ha. cbn. rewrite Hfr.
    match goal with
    | |- context [Frame_update ?m] =>
        destruct (v0_Frame_update_total m) as [m' Hm]; rewrite Hm
    end.
    cbn. apply v0_run_events_bg in Hm. cbn in Hm. by rewrite Hm, He.
Qed.

(** X21. A pass of the loop of [CatFusion1.0.py] is a pass of the loop
    of [enginev0.py] when the global is [None], and when a frame is
    active whose name differs from the pending name. With a name pending
    and no active frame it reads the name of the active frame and
    raises [AttributeError], which ends the loop, where [enginev0.py]
    returns if the screen accepts the backgrounds of the frames. *)
Theorem catfusion_pass_against_enginev0 (i : TickInput)
    (rest : list TickInput) (w : World) :
  (ENGINE_CURRENT_FRAME (module_globals w) = None \/
   ENGINE_CURRENT_FRAME (module_globals w) = Some PNone ->
   CatFusion.loop_body i w = loop_body i w)
  /\ (forall p a cur,
        ENGINE_CURRENT_FRAME (module_globals w) = Some p -> p <> PNone ->
        current_frame w = Some a -> heap w !! a = Some cur ->
        py_eq_str p (frame_name_of cur) = false ->
        CatFusion.loop_body i w = loop_body i w)
  /\ (forall p,
        ENGINE_CURRENT_FRAME (module_globals w) = Some p -> p <> PNone ->
        current_frame w = None ->
        CatFusion.loop_body i w = Raise AttributeError
        /\ (running w = true ->
            CatFusion.main_loop (i :: rest) w = Raise AttributeError)
        /\ (screen_accepts w -> exists w', loop_body i w = Ok w')).
Proof.
  split; [| split].
  - intros [Hp | Hp]; unfold CatFusion.loop_body, loop_body, pending_name;
      cbn; by rewrite Hp.
  - intros p a cur Hp Hnn Ha Hcur Hne.
    unfold CatFusion.loop_body, loop_body, pending_name. cbn.
    rewrite Hp. destruct p; try done;
      rewrite Ha; cbn in Hne |- *; rewrite Hcur; cbn; by rewrite ?Hne.
  - intros p Hp Hnn Hnone.
    assert (Hb : CatFusion.loop_body i w = Raise AttributeError).
    { unfold CatFusion.loop_body, pending_name. cbn. rewrite Hp.
      destruct p; try done; by rewrite Hnone. }
    split; [exact Hb |]. split; [| apply v0_loop_body_total].
    intros R.
    change (CatFusion.main_loop (i :: rest) w)
      with (if running w
            then w' ← CatFusion.loop_body i w; CatFusion.main_loop rest w'
            else Ok w).
    by rewrite R, Hb.
Qed.

(** *** The editor's files and frame list *)

(** X22. Saving a project under a name chosen in the dialog and opening
    that file again gives the project back, also when the editor was
    reset by [new_project] in between. Once a file name is known saving goes
    to it and the dialog is not consulted. Opening with the dialog
    cancelled, opening a file that does not exist and saving with the
    dialog cancelled leave the editor as it is. *)
Theorem save_then_open_restores (ed : Editor) (p : string) :
  (current_filename ed = None ->
   project_data (open_project (Some p) (new_project (save_project (Some p) ed)))
   = project_data ed)
  /\ (forall q, current_filename ed = Some q ->
        save_project (Some p) ed = save_project None ed /\
        project_data
          (open_project (Some q) (new_project (save_project (Some p) ed)))
        = project_data ed)
  /\ (current_filename ed = None -> save_project None ed = ed)
  /\ open_project None ed = ed
  /\ (files ed !! p = None -> open_project (Some p) ed = ed).
Proof.
  split; [| split; [| split; [| split]]].
  - intros Hn. unfold save_project, new_project, open_project. rewrite Hn.
    cbn. by rewrite lookup_insert_eq.
  - intros q Hq. unfold save_project, new_project, open_project. rewrite Hq.
    cbn. by rewrite lookup_insert_eq.
  - intros Hn. unfold save_project. by rewrite Hn.
  - reflexivity.
  - intros Hf. unfold open_project. by rewrite Hf.
Qed.

Lemma delete_app_lt {A} (l k : list A) (i : nat) :
  (i < length l)%nat -> delete i (l ++ k) = delete i l ++ k.
Proof.
  revert i. induction l as [|x l IH]; intros [|i] Hi; cbn in *; try lia.
  - reflexivity.
  - f_equal. apply IH. lia.
Qed.

(** X23. [add_frame] names the new frame after the number of frames.
    So after adding a frame, removing one of the earlier frames and
    adding again, the two newest frames carry the same name: frame
    names are not kept unique. *)
Theorem add_frame_after_remove_repeats_a_name (ed : Editor)
    (l : list FrameData) (i : nat) :
  frames_data (project_data ed) = Some l -> (i < length l)%nat ->
  frames_data (project_data (add_frame ed))
  = Some (l ++ [new_frame_data (length l + 1)])
  /\ frames_data
       (project_data (add_frame (remove_frame (select_frame i (add_frame ed)))))
     = Some (delete i l ++ [new_frame_data (length l + 1);
                            new_frame_data (length l + 1)])
  /\ ¬ NoDup (f_name <$> delete i l ++ [new_frame_data (length l + 1);
                                        new_frame_data (length l + 1)]).
Proof.
  intros Hl Hi.
  assert (H1 : frames_data (project_data (add_frame ed))
               = Some (l ++ [new_frame_data (length l + 1)])).
  { unfold add_frame. by rewrite Hl. }
  split; [exact H1 |]. split.
  - unfold remove_frame, select_frame. cbn [selection project_data].
    rewrite H1. rewrite decide_True by (rewrite length_app; cbn; lia).
    unfold add_frame at 1. cbn [project_data set_project frames_data].
    rewrite delete_app_lt by exact Hi.
    cbn [set_project project_data frames_data].
    rewrite length_app, length_delete by (by apply lookup_lt_is_Some).
    cbn [length]. replace (length l - 1 + 1 + 1)%nat with (length l + 1)%nat by lia.
    unfold new_frame_data. by rewrite <- app_assoc.
  - rewrite fmap_app. intros ND. apply NoDup_app in ND as (_ & _ & ND).
    cbn in ND. apply NoDup_cons in ND as [Hnot _]. apply Hnot. by left.
Qed.

End Facts.
End EngineV0More.

(** * The further statements at work *)

Module MoreWitnesses.
Import Multimedia Vocabulary MultimediaEditor Examples MultimediaMore.

Lemma score_is_first : first_named "Score" (objects demo_frame) demo_score.
Proof.
  exists 2%nat. split; [reflexivity |]. split; [reflexivity |].
  intros [|[|j]] o' Hj Ho; cbn in Ho; try lia; injection Ho as <-; discriminate.
Defined.

Lemma wall_is_first_twin :
  first_named "Wall" (objects (self_frame twin_machine)) demo_wall.
Proof.
  exists 0%nat. split; [reflexivity |]. split; [reflexivity |]. intros j o' Hj. lia.
Defined.

(** After [SetCounterValue("Score", 3)] the score is below 5. *)
Lemma SetCounterValue_then_CompareCounter_witness :
  exists m', execute (H:=demo_host) (SetCounterValue (PStr "Score") 3)
               demo_machine = Ok m' /\
    check (H:=demo_host) (CompareCounter (PStr "Score") (PStr "<") 5) m' = Ok true.
Proof.
  destruct (SetCounterValue_then_CompareCounter (H:=demo_host) demo_machine
              "Score" demo_score 10 24 3 score_is_first eq_refl)
    as (m' & i & Hex & _ & _ & _ & _ & Hcmp).
  exists m'. split; [exact Hex |]. apply (Hcmp OpLt 5%Q). reflexivity.
Defined.

(** [Player] is a sprite, not a counter. *)
Lemma SetCounterValue_needs_a_counter_witness :
  execute (H:=demo_host) (SetCounterValue (PStr "Player") 3) demo_machine
  = Ok demo_machine.
Proof.
  apply (SetCounterValue_needs_a_counter (H:=demo_host) demo_machine "Player" 3).
  intros o (i & Hi & Hn & _).
  destruct i as [|[|[|i]]]; cbn in Hi; try discriminate;
    injection Hi as <-; try discriminate; reflexivity.
Defined.

(** Painting the player green does not change whether it touches the
    wall. *)
Lemma ChangeObjectColor_only_repaints_witness :
  exists m', execute (H:=demo_host)
               (ChangeObjectColor (PStr "Player") (PStr "(0,255,0)"))
               demo_machine = Ok m' /\
    check (H:=demo_host) (ObjectCollision (PStr "Player") (PStr "Wall")) m'
    = check (H:=demo_host) (ObjectCollision (PStr "Player") (PStr "Wall"))
            demo_machine.
Proof.
  eexists. split; [vm_compute; reflexivity |].
  apply (ChangeObjectColor_only_repaints (H:=demo_host) (PStr "Player")
           (PStr "(0,255,0)") demo_machine).
  vm_compute. reflexivity.
Defined.

(** The score is painted green and then set: the result is that of
    setting it alone. *)
Lemma SetCounterValue_undoes_the_repaint_witness :
  run_actions (H:=demo_host)
    [ChangeObjectColor (PStr "Score") (PStr "(0,255,0)");
     SetCounterValue (PStr "Score") 3] demo_machine
  = run_actions (H:=demo_host) [SetCounterValue (PStr "Score") 3] demo_machine.
Proof.
  exact (SetCounterValue_undoes_the_repaint (H:=demo_host) demo_machine "Score"
           (PStr "(0,255,0)") 3 demo_score score_is_first eq_refl).
Defined.

(** A tick of the demo frame with the space bar held destroys the wall:
    no more than the three objects are left and their names are unique. *)
Lemma tick_never_adds_objects_witness :
  exists m', Frame_update (H:=demo_host) demo_machine = Ok m' /\
    (length (objects (self_frame m')) <= 3)%nat /\ unique_names (self_frame m').
Proof.
  destruct (MultimediaFacts.Frame_update_total (H:=demo_host) demo_machine)
    as [m' Hm'].
  exists m'. split; [exact Hm' |].
  destruct (tick_never_adds_objects (H:=demo_host) demo_machine m' Hm')
    as (_ & Hlen & Huniq).
  split; [exact Hlen |]. apply Huniq.
  unfold unique_names. apply (bool_decide_unpack _). vm_compute. exact I.
Defined.

(** Of the two walls the second stays. *)
Lemma DestroyObject_removes_only_the_first_witness :
  exists m', execute (H:=demo_host) (DestroyObject (PStr "Wall")) twin_machine
             = Ok m' /\
    ¬ absent (PStr "Wall") (self_frame m').
Proof.
  destruct (DestroyObject_removes_only_the_first (H:=demo_host) twin_machine
              "Wall" demo_wall demo_wall 2 wall_is_first_twin)
    as (i & m' & Hi & Hex & Hdel & _ & _ & Hstill).
  exists m'. split; [exact Hex |].
  apply Hstill; [reflexivity | reflexivity |].
  intros <-. vm_compute in Hex. injection Hex as <-.
  vm_compute in Hdel. discriminate Hdel.
Defined.

(** The score is 10: "if Score == 10 set it to 0" fires once. *)
Lemma counter_event_fires_once_witness :
  exists m',
    Event_run (H:=demo_host)
      (mkEvent [CompareCounter (PStr "Score") (PStr "==") 10]
               [SetCounterValue (PStr "Score") 0]) demo_machine = Ok m' /\
    Event_run (H:=demo_host)
      (mkEvent [CompareCounter (PStr "Score") (PStr "==") 10]
               [SetCounterValue (PStr "Score") 0]) m' = Ok m'.
Proof.
  destruct (counter_event_fires_once (H:=demo_host) demo_machine "Score"
              demo_score 10 24 10 0 score_is_first eq_refl)
    as (m' & i & Hrun & _ & _ & _ & Hagain).
  - reflexivity.
  - intros E. discriminate E.
  - exists m'. split; [exact Hrun | exact Hagain].
Defined.

(** [KeyPressed] is built from a mapping with the one key [key], and not
    from one with a second key. *)
Lemma build_class_instance_witness :
  (exists c, build_condition (H:=demo_host) KeyPressed_cls
               {[ "key" := PStr "K_SPACE" ]} = Ok c)
  /\ ¬ (exists c, build_condition (H:=demo_host) KeyPressed_cls
                    (<[ "key" := PStr "K_SPACE" ]> {[ "mods" := PStr "ctrl" ]})
                  = Ok c).
Proof.
  split.
  - apply (proj1 (build_class_instance_needs_exact_keywords (H:=demo_host)
                    {[ "key" := PStr "K_SPACE" ]}) KeyPressed_cls).
    split; [| discriminate].
    apply (bool_decide_unpack _). vm_compute. exact I.
  - intros Hc.
    apply (proj1 (build_class_instance_needs_exact_keywords (H:=demo_host)
                    (<[ "key" := PStr "K_SPACE" ]> {[ "mods" := PStr "ctrl" ]}))
                 KeyPressed_cls) in Hc as [Hdom _].
    revert Hdom. apply (bool_decide_unpack _). vm_compute. exact I.
Defined.

(** The project with the two frames [Level1] loads; the project with the
    threshold [abc] does not. *)
Lemma load_project_returns_witness :
  (exists w', load_project (H:=demo_host) new_engine twin_project = Ok w')
  /\ ¬ (exists w', load_project (H:=demo_host) new_engine bad_project = Ok w').
Proof.
  split.
  - apply (load_project_returns_iff_constructible (H:=demo_host) new_engine
             twin_project).
    unfold rest_is_valid. cbn.
    repeat (apply Forall_cons_2; [split; apply Forall_nil_2 |]).
    apply Forall_nil_2.
  - intros Hload.
    apply (load_project_returns_iff_constructible (H:=demo_host) new_engine
             bad_project) in Hload.
    unfold rest_is_valid in Hload. cbn in Hload.
    apply Forall_cons_1 in Hload as [[_ Hev] _].
    apply Forall_cons_1 in Hev as [[Hconds _] _].
    cbn in Hconds. apply Forall_cons_1 in Hconds as [Hc _].
    destruct (Hc CompareCounter_cls) as [c Hbuild]; [vm_compute; reflexivity |].
    vm_compute in Hbuild. discriminate Hbuild.
Defined.

(** The object of the unknown type [Backdrop] is built as a plain object
    called [Sky]. *)
Lemma objects_are_never_skipped_witness :
  exists f o, build_frame (H:=demo_host) new_engine odd_frame = Ok f /\
    objects f !! 0%nat = Some o /\ payload o = ActivePayload /\ name o = "Sky" /\
    rect o = mkRect 0 0 800 600.
Proof.
  assert (E : exists f, build_frame (H:=demo_host) new_engine odd_frame = Ok f)
    by (eexists; vm_compute; reflexivity).
  destruct E as [f E].
  destruct (proj2 (objects_are_never_skipped (H:=demo_host) new_engine
                     odd_frame f E) 0%nat odd_object "Backdrop")
    as (o & Ho & Hp & Hn & Hr).
  - reflexivity.
  - reflexivity.
  - vm_compute. reflexivity.
  - exists f, o. repeat split; assumption.
Defined.

(** The table of the engine is consistent after the load of the project
    with two frames of one name and after a frame change. *)
Lemma frame_table_witness :
  exists w', load_project (H:=demo_host) new_engine twin_project = Ok w' /\
    table_consistent w' /\ table_consistent (change_frame w' (PStr "Level1")).
Proof.
  destruct (frame_table_stays_consistent (H:=demo_host))
    as (Hinit & Hload & Hchange & _).
  assert (E : exists w', load_project (H:=demo_host) new_engine twin_project
                         = Ok w') by (eexists; vm_compute; reflexivity).
  destruct E as [w' E]. exists w'.
  destruct (Hload new_engine twin_project w'
              (Hinit (mkGlobals None nothing_held) None) eq_refl E) as [Hc _].
  split; [exact E |]. split; [exact Hc |]. apply Hchange. exact Hc.
Defined.

(** Of the two frames called [Level1] the table has the later one. *)
Lemma last_frame_of_a_name_witness :
  exists w', load_project (H:=demo_host) new_engine twin_project = Ok w' /\
    frames w' !! "Level1" = Some 2%nat /\
    frames w' !! "Level1" <> Some 0%nat.
Proof.
  assert (E : exists w', load_project (H:=demo_host) new_engine twin_project
                         = Ok w') by (eexists; vm_compute; reflexivity).
  destruct E as [w' E]. exists w'. split; [exact E |].
  pose proof (last_frame_of_a_name_wins (H:=demo_host) new_engine twin_project
                w' E) as Hlast.
  split.
  - apply (proj2 (proj2 (Hlast 2%nat
                    (mkFrameData (Some "Level1") (Some [2; 2; 2]) None None)
                    eq_refl))).
    intros j fd' Hj Hfd'. destruct j as [|[|[|j]]]; try lia; discriminate Hfd'.
  - intros H0.
    pose proof (proj1 (proj2 (Hlast 0%nat
                    (mkFrameData (Some "Level1") (Some [1; 1; 1]) None None)
                    eq_refl)) H0) as H1.
    apply (H1 2%nat (mkFrameData (Some "Level1") (Some [2; 2; 2]) None None));
      [lia | reflexivity | reflexivity].
Defined.

(** The pass that receives [QUIT] is the last: the tick that follows is
    not looked at. *)
Lemma quit_ends_the_loop_witness :
  exists w1, loop_body (H:=demo_host) quit_tick demo_world = Ok w1 /\
    running w1 = false /\
    main_loop (H:=demo_host) [quit_tick; space_tick] demo_world = Ok w1.
Proof.
  destruct (proj1 (quit_ends_the_loop_after_the_pass (H:=demo_host) quit_tick
                     [space_tick] demo_world eq_refl)
                  Witnesses.demo_backgrounds)
    as (w1 & Hb & Hr & _ & _ & Hq & _).
  exists w1. split; [exact Hb |]. split; [exact Hr | exact (Hq eq_refl)].
Defined.

(** With no frame active two passes change neither the frames nor the
    active frame. *)
Lemma no_active_frame_witness :
  exists w', main_loop (H:=demo_host) [space_tick; idle_tick] idle_world = Ok w' /\
    current_frame w' = None /\ heap w' = [demo_menu; demo_frame].
Proof.
  destruct (no_active_frame_no_progress (H:=demo_host) [space_tick; idle_tick]
              idle_world eq_refl)
    as (w' & Hrun & Hc & Hh & _).
  exists w'. split; [exact Hrun |]. split; [exact Hc | exact Hh].
Defined.

(** With nothing selected the game of the demo project starts on [Menu],
    its first frame. *)
Lemma start_engine_witness :
  exists eng a f,
    start_engine (H:=demo_host) None demo_project (mkGlobals None nothing_held)
                 None = Ok eng /\
    current_frame eng = Some a /\ heap eng !! a = Some f /\
    frame_name_of f = "Menu".
Proof.
  assert (E : exists eng, start_engine (H:=demo_host) None demo_project
                            (mkGlobals None nothing_held) None = Ok eng)
    by (eexists; vm_compute; reflexivity).
  destruct E as [eng E].
  destruct (proj1 (proj2 (start_engine_activates_the_start_frame (H:=demo_host)
                            None demo_project (mkGlobals None nothing_held) None
                            eng E)) "Menu")
    as (a & f & Ha & _ & Hf & Hn).
  - right. split; [reflexivity |]. eexists _, _. split; reflexivity.
  - discriminate.
  - eexists. split; [apply list_elem_of_here | reflexivity].
  - exists eng, a, f. repeat split; assumption.
Defined.

(** The dialog's [CompareCounter] with the threshold field left empty is
    built with the threshold 0. *)
Lemma editor_entries_witness :
  build_condition (H:=demo_host) CompareCounter_cls
    (entry_params (on_ok "CompareCounter" (condition_fields "CompareCounter")
                     (fun k => if String.eqb k "value" then "" else k)))
  = Ok (CompareCounter (PStr "counter_name") (PStr "operator") 0).
Proof.
  destruct (proj1 (editor_entries_are_built (H:=demo_host)
                     (mkGlobals None nothing_held) None
                     (fun k => if String.eqb k "value" then "" else k))
                  "CompareCounter")
    as (cls & Hreg & _ & Hbuild).
  - cbn. set_solver.
  - vm_compute in Hreg. injection Hreg as <-. exact Hbuild.
Defined.

(** ** [enginev0.py] and [CatFusion1.0.py] *)


(** The dialog's [ObjectCollision] is loaded with the two names entered. *)
Lemma v0_editor_entries_witness :
  EngineV0.build_condition
    (EditorV0.on_ok "ObjectCollision"
       (EditorV0.condition_template "ObjectCollision") (fun k => k))
  = Some (EngineV0.ObjectCollision (PStr "obj_name_a") (PStr "obj_name_b")).
Proof.
  apply (proj1 (EngineV0More.v0_editor_entries_are_understood (fun k => k))
               "ObjectCollision").
  cbn. set_solver.
Defined.

(** The loop of [enginev0.py] starts the demo project on [Menu]. *)
Lemma v0_main_loop_starts_witness :
  exists w a f,
    EngineV0.load_project (H:=demo_host) new_v0_engine demo_project = Ok w /\
    EngineV0.main_loop (H:=demo_host) [idle_tick] w
    = EngineV0.loop (H:=demo_host) [idle_tick]
        (EngineV0.set_current_frame w (Some a)) /\
    EngineV0.heap w !! a = Some f /\ EngineV0.frame_name_of f = "Menu".
Proof.
  assert (E : exists w, EngineV0.load_project (H:=demo_host) new_v0_engine
                          demo_project = Ok w)
    by (eexists; vm_compute; reflexivity).
  destruct E as [w E].
  destruct (proj1 (EngineV0More.v0_main_loop_starts_on_the_first_frame
                     (H:=demo_host) (mkGlobals None nothing_held) None
                     demo_project w [idle_tick] E) _ _ eq_refl)
    as (a & f & Hm & _ & Hf & Hn).
  exists w, a, f. repeat split; assumption.
Defined.

(** With [Menu] pending and no frame active, a pass of [enginev0.py]
    activates [Menu]. *)
Lemma v0_request_is_applied_witness :
  exists w', EngineV0.loop_body (H:=demo_host) idle_tick v0_pending_world = Ok w' /\
    EngineV0.current_frame w' = Some 0%nat.
Proof.
  destruct (proj1 (EngineV0More.v0_request_is_applied_without_active_frame
                     (H:=demo_host) idle_tick v0_pending_world "Menu"
                     eq_refl eq_refl))
    as (w' & Hb & Hc & _).
  { apply Forall_cons_2; [vm_compute; reflexivity | apply Forall_nil_2]. }
  exists w'. split; [exact Hb | exact Hc].
Defined.

(** In the same state the loop of [CatFusion1.0.py] raises. *)
Lemma catfusion_pass_witness :
  CatFusion.main_loop (H:=demo_host) [idle_tick; idle_tick] v0_pending_world
  = Raise AttributeError
  /\ exists w', EngineV0.loop_body (H:=demo_host) idle_tick v0_pending_world
                = Ok w'.
Proof.
  destruct (proj2 (proj2 (EngineV0More.catfusion_pass_against_enginev0
                            (H:=demo_host) idle_tick [idle_tick]
                            v0_pending_world))
                  (PStr "Menu") eq_refl)
    as (_ & Hloop & Hv0); [discriminate | reflexivity |].
  split; [exact (Hloop eq_refl) |]. apply Hv0.
  apply Forall_cons_2; [vm_compute; reflexivity | apply Forall_nil_2].
Defined.

(** The demo editor has no file name yet: saved as [copy.json], reset and
    opened from that file it has its project again. *)
Lemma save_then_open_witness :
  EngineV0.project_data
    (EngineV0.open_project (Some "copy.json")
       (EditorV0.new_project
          (EngineV0.save_project (Some "copy.json") demo_editor)))
  = EngineV0.project_data demo_editor.
Proof.
  exact (proj1 (EngineV0More.save_then_open_restores demo_editor "copy.json")
               eq_refl).
Defined.

(** Two frames, a third is added, the first removed, a frame added: two
    frames are called [Frame3]. *)
Lemma add_frame_after_remove_witness :
  frames_data
    (EngineV0.project_data
       (EditorV0.add_frame
          (EditorV0.remove_frame
             (EditorV0.select_frame 0 (EditorV0.add_frame two_frame_editor)))))
  = Some [EditorV0.new_frame_data 2; EditorV0.new_frame_data 3;
          EditorV0.new_frame_data 3].
Proof.
  exact (proj1 (proj2 (EngineV0More.add_frame_after_remove_repeats_a_name
                         two_frame_editor
                         [EditorV0.new_frame_data 1; EditorV0.new_frame_data 2]
                         0%nat eq_refl (Nat.lt_0_succ 1)))).
Defined.

(** ** The editor's lookup and the requests of a tick *)

(** The editor finds the first of the two frames called [Level1], and no
    frame called [Credits]. *)
Lemma find_frame_data_witness :
  find_frame_data twin_project "Level1"
  = Ok (Some (mkFrameData (Some "Level1") (Some [1; 1; 1]) None None))
  /\ find_frame_data twin_project "Credits" = Ok None.
Proof.
  split.
  - apply (proj2 (proj1 (find_frame_data_finds_the_first (H:=demo_host)
                           twin_project _ "Level1" eq_refl) _)).
    exists 0%nat. split; [reflexivity |]. split; [reflexivity |].
    intros j fd' Hj. lia.
  - apply (proj2 (proj1 (proj2 (find_frame_data_finds_the_first
                                  (H:=demo_host) twin_project _ "Credits"
                                  eq_refl)))).
    repeat (apply Forall_cons_2; [eexists; split; [reflexivity | discriminate] |]).
    apply Forall_nil_2.
Defined.

(** Of two requests in one list of actions the second is the one left
    pending. *)
Lemma last_GoToFrame_wins_witness :
  exists m',
    run_actions (H:=demo_host)
      [GoToFrame (PStr "Menu"); DestroyObject (PStr "Wall");
       GoToFrame (PStr "Level2")] demo_machine = Ok m' /\
    ENGINE_CURRENT_FRAME (globals m') = Some (PStr "Level2").
Proof.
  destruct (MultimediaFacts.run_actions_total (H:=demo_host)
              [GoToFrame (PStr "Menu"); DestroyObject (PStr "Wall");
               GoToFrame (PStr "Level2")] demo_machine) as [m' Hrun].
  exists m'. split; [exact Hrun |].
  exact (proj1 (last_GoToFrame_wins (H:=demo_host) demo_machine m') _ Hrun).
Defined.

End MoreWitnesses.
